(** * Dynamic inventory: a shallow embedding of [inventory.py]

    The development follows the layout of the script: the [Host]
    normalizer, the inventory builder ([build_groups], [build_hostvars],
    [build_ansible_inventory]), the selector in [main], the output
    routine [dump] and the writer [add_host].

    Conventions.
    - A Python [str] is a [string] holding its UTF-8 bytes.  Splitting on
      an ASCII separator, prefix tests, equality and ordering agree on
      code points and on UTF-8 bytes, so nothing is lost.
    - A Python [dict] is an association list with unique keys kept in
      insertion order ([Dict]); assigning to an existing key keeps the
      position of the key.
    - A raised exception is the [Raise] case of [result]. *)

From stdpp Require Import base tactics option list strings gmap sorting.
From Stdlib Require Import ZArith NArith Ascii Lia.
From Stdlib Require String.

(** ** Exceptions and results *)

Inductive exn :=
| KeyError (key : string)
| ValueError (msg : string)
| AddressValueError (msg : string)
| TypeError (msg : string)
| IndexError (msg : string)
| Gaierror (errno : Z) (strerror : string)
| OtherError (msg : string)
| SystemExit (code : Z).

Inductive result (A : Type) :=
| Ok (a : A)
| Raise (e : exn).
Arguments Ok {A} a.
Arguments Raise {A} e.

#[global] Instance result_ret : MRet result := @Ok.
#[global] Instance result_bind : MBind result := λ A B f r,
  match r with
  | Ok a => f a
  | Raise e => Raise e
  end.
#[global] Instance result_fmap : FMap result := λ A B f r,
  match r with
  | Ok a => Ok (f a)
  | Raise e => Raise e
  end.

(** [try: r except handler]: every exception of [r] goes to [handler]. *)
Definition try_except {A} (r : result A) (handler : exn → result A) : result A :=
  match r with
  | Ok a => Ok a
  | Raise e => handler e
  end.

(** ** Python dictionaries *)

Module Dict.
Section dict.
Context {V : Type}.

Definition t := list (string * V).

(** [d[k]] as an rvalue; [None] stands for [KeyError]. *)
Fixpoint get (k : string) (d : t) : option V :=
  match d with
  | [] => None
  | (k', v) :: d' => if String.eqb k k' then Some v else get k d'
  end.

(** [k in d] *)
Definition mem (k : string) (d : t) : bool :=
  match get k d with Some _ => true | None => false end.

(** [d[k] = v] *)
Fixpoint set (k : string) (v : V) (d : t) : t :=
  match d with
  | [] => [(k, v)]
  | (k', v') :: d' =>
      if String.eqb k k' then (k', v) :: d' else (k', v') :: set k v d'
  end.

(** [del d[k]]; [None] stands for [KeyError]. *)
Fixpoint del (k : string) (d : t) : option t :=
  match d with
  | [] => None
  | (k', v') :: d' =>
      if String.eqb k k' then Some d'
      else match del k d' with
           | Some r => Some ((k', v') :: r)
           | None => None
           end
  end.

(** [d.keys()], in iteration order *)
Definition keys (d : t) : list string := d.*1.

(** [d.copy()]: a new dictionary with the same items; the model is
    pure, so the copy is the same association list. *)
Definition copy (d : t) : t := d.
End dict.
Arguments t : clear implicits.
End Dict.

(** ** Strings *)

(** [s.split(sep)] for a one-character separator: every occurrence of
    [sep] ends a segment, empty segments are kept. *)
Fixpoint split (sep : ascii) (s : string) : list string :=
  match s with
  | EmptyString => [EmptyString]
  | String c s' =>
      if Ascii.eqb c sep then EmptyString :: split sep s'
      else match split sep s' with
           | seg :: segs => String c seg :: segs
           | [] => [String c EmptyString]
           end
  end.

(** The text of one line feed, ['\n']. *)
Definition newline : string := String "010" EmptyString.

(** [sep.join(parts)] *)
Definition join (sep : string) (parts : list string) : string :=
  String.concat sep parts.

(** [c in s] for a one-character [c] *)
Fixpoint contains (c : ascii) (s : string) : bool :=
  match s with
  | EmptyString => false
  | String c' s' => Ascii.eqb c' c || contains c s'
  end.

(** Truth value of an optional string: [None] and [''] are false. *)
Definition truthy (o : option string) : bool :=
  match o with
  | Some (String _ _) => true
  | _ => false
  end.

(** [s.partition(sep)] for a one-character separator: the text before
    the first [sep], whether [sep] was found, and the text after it. *)
Fixpoint partition (sep : ascii) (s : string) : string * bool * string :=
  match s with
  | EmptyString => (EmptyString, false, EmptyString)
  | String c s' =>
      if Ascii.eqb c sep then (EmptyString, true, s')
      else let '(before, found, after) := partition sep s' in
           (String c before, found, after)
  end.

Fixpoint string_forallb (p : ascii → bool) (s : string) : bool :=
  match s with
  | EmptyString => true
  | String c s' => p c && string_forallb p s'
  end.

Definition is_empty (s : string) : bool :=
  match s with EmptyString => true | String _ _ => false end.

(** ** Integers as text *)

Module Fmt.
Local Open Scope N_scope.

(** The digit [d < 16] as a lower-case character. *)
Definition digit_char (d : N) : ascii :=
  if d <? 10 then ascii_of_N (48 + d) else ascii_of_N (87 + d).

(** The value of a digit character in base 16 (both cases). *)
Definition digit_value (c : ascii) : option N :=
  let n := N_of_ascii c in
  if (48 <=? n) && (n <=? 57) then Some (n - 48)
  else if (97 <=? n) && (n <=? 102) then Some (n - 87)
  else if (65 <=? n) && (n <=? 70) then Some (n - 55)
  else None.

Definition is_decimal_digit (c : ascii) : bool :=
  let n := N_of_ascii c in (48 <=? n) && (n <=? 57).

(** Membership in [_HEX_DIGITS = frozenset('0123456789ABCDEFabcdef')]. *)
Definition is_hex_digit (c : ascii) : bool :=
  match digit_value c with Some _ => true | None => false end.

(** [width] digits of [n] in [base], most significant first. *)
Fixpoint fixed (base : N) (width : nat) (n : N) : string :=
  match width with
  | O => EmptyString
  | S w => fixed base w (n / base) +:+ String (digit_char (n mod base)) EmptyString
  end.

Fixpoint render (base : N) (fuel : nat) (n : N) : string :=
  match fuel with
  | O => EmptyString
  | S f =>
      if n <? base then String (digit_char n) EmptyString
      else render base f (n / base) +:+ String (digit_char (n mod base)) EmptyString
  end.

(** The shortest numeral of [n] in [base]: ['%x' % n] for base 16,
    [str(n)] for base 10.  A number has at most as many digits as
    bits, which bounds the recursion. *)
Definition to_base (base : N) (n : N) : string :=
  render base (S (N.size_nat n)) n.

Fixpoint zeros (k : nat) : string :=
  match k with
  | O => EmptyString
  | S k' => String "0" (zeros k')
  end.

(** Left padding with ['0'] up to [width]: the [0<width>] flag of a
    [%] conversion. *)
Definition zfill (width : nat) (s : string) : string :=
  zeros (width - String.length s) +:+ s.

(** ['%x' % n] *)
Definition hex (n : N) : string := to_base 16 n.
(** ['%032x' % n] *)
Definition hex032 (n : N) : string := zfill 32 (to_base 16 n).
(** [str(n)] for [n >= 0] *)
Definition str (n : N) : string := to_base 10 n.

Fixpoint int_digits (base : N) (s : string) (acc : N) : option N :=
  match s with
  | EmptyString => Some acc
  | String c s' =>
      match digit_value c with
      | Some d => if d <? base then int_digits base s' (base * acc + d) else None
      | None => None
      end
  end.

(** [int(s, base)] on a text of digits.  Python also accepts signs,
    blanks, underscores and prefixes; every call site has checked the
    characters before, so only digits and the empty text (which
    raises) reach it. *)
Definition int (s : string) (base : N) : result N :=
  if is_empty s then Raise (ValueError "invalid literal for int()")
  else match int_digits base s 0 with
       | Some n => Ok n
       | None => Raise (ValueError "invalid literal for int()")
       end.
End Fmt.

(** ** Time stamps *)

(** A [datetime.datetime] as the database driver returns it. *)
Record datetime := {
  year : N; month : N; day : N;
  hour : N; minute : N; second : N; microsecond : N
}.

(** One conversion of [strftime]: the directives the script uses, as the
    C library renders them ([%Y] is the plain decimal year, the other
    fields are two digits wide, zero padded). *)
Definition strftime_directive (d : datetime) (c : ascii) : result string :=
  if Ascii.eqb c "Y" then Ok (Fmt.str (year d))
  else if Ascii.eqb c "m" then Ok (Fmt.zfill 2 (Fmt.str (month d)))
  else if Ascii.eqb c "d" then Ok (Fmt.zfill 2 (Fmt.str (day d)))
  else if Ascii.eqb c "H" then Ok (Fmt.zfill 2 (Fmt.str (hour d)))
  else if Ascii.eqb c "M" then Ok (Fmt.zfill 2 (Fmt.str (minute d)))
  else if Ascii.eqb c "S" then Ok (Fmt.zfill 2 (Fmt.str (second d)))
  else if Ascii.eqb c "%" then Ok "%"
  else Raise (OtherError "strftime directive outside the model").

(** [d.strftime(fmt)]: ordinary characters are copied, [%x] is
    converted. *)
Fixpoint strftime (d : datetime) (fmt : string) : result string :=
  match fmt with
  | EmptyString => Ok EmptyString
  | String "%" (String c fmt') =>
      field ← strftime_directive d c;
      rest ← strftime d fmt';
      Ok (field +:+ rest)
  | String c fmt' =>
      rest ← strftime d fmt';
      Ok (String c rest)
  end.

(** ** The [ipaddress] module of the standard library

    [Host.__init__] calls [ipaddress.ip_address] and [build_hostvars]
    reads [.exploded]; both are library code, embedded here from
    CPython's [Lib/ipaddress.py] (3.9 and later: strict octets, scope
    identifiers) for a [str] argument.  Messages of exceptions are kept
    without their interpolated operands. *)

Module ipaddress.
Local Open Scope N_scope.

(** An address object: [_ip], and [_scope_id] for version 6. *)
Inductive t :=
| IPv4 (_ip : N)
| IPv6 (_ip : N) (_scope_id : option string).

Definition _ip (a : t) : N :=
  match a with IPv4 ip | IPv6 ip _ => ip end.

(** [_BaseV4._parse_octet] *)
Definition v4_parse_octet (octet_str : string) : result N :=
  if is_empty octet_str then Raise (ValueError "Empty octet not permitted")
  else if negb (string_forallb Fmt.is_decimal_digit octet_str) then
    Raise (ValueError "Only decimal digits permitted")
  else if (3 <? String.length octet_str)%nat then
    Raise (ValueError "At most 3 characters permitted")
  else if negb (String.eqb octet_str "0")
          && match octet_str with String "0" _ => true | _ => false end then
    Raise (ValueError "Leading zeros are not permitted")
  else
    octet_int ← Fmt.int octet_str 10;
    if 255 <? octet_int then Raise (ValueError "Octet (> 255) not permitted")
    else Ok octet_int.

(** [int.from_bytes(bs, 'big')] *)
Definition from_bytes (bs : list N) : N :=
  foldl (λ acc b, acc * 256 + b) 0 bs.

(** [n.to_bytes(4, 'big')] *)
Definition to_bytes4 (n : N) : result (list N) :=
  if 2 ^ 32 <=? n then Raise (OtherError "OverflowError: int too big to convert")
  else Ok [N.land (N.shiftr n 24) 255; N.land (N.shiftr n 16) 255;
           N.land (N.shiftr n 8) 255; N.land n 255].

(** [_BaseV4._ip_int_from_string] *)
Definition v4_ip_int_from_string (ip_str : string) : result N :=
  if is_empty ip_str then Raise (AddressValueError "Address cannot be empty")
  else
    let octets := split "." ip_str in
    if negb (length octets =? 4)%nat then
      Raise (AddressValueError "Expected 4 octets")
    else
      match mapM v4_parse_octet octets with
      | Ok bs => Ok (from_bytes bs)
      | Raise (ValueError msg) => Raise (AddressValueError msg)
      | Raise e => Raise e
      end.

(** [_BaseV4._string_from_ip_int] *)
Definition v4_string_from_ip_int (ip_int : N) : result string :=
  bs ← to_bytes4 ip_int;
  Ok (join "." (Fmt.str <$> bs)).

(** [IPv4Address(address)] for a [str] *)
Definition IPv4Address (address : string) : result t :=
  if contains "/" address then Raise (AddressValueError "Unexpected '/'")
  else ip ← v4_ip_int_from_string address; Ok (IPv4 ip).

(** [_BaseV6._parse_hextet] *)
Definition v6_parse_hextet (hextet_str : string) : result N :=
  if negb (string_forallb Fmt.is_hex_digit hextet_str) then
    Raise (ValueError "Only hex digits permitted")
  else if (4 <? String.length hextet_str)%nat then
    Raise (ValueError "At most 4 characters permitted")
  else Fmt.int hextet_str 16.

(** The search for ['::']: [for i in range(1, len(parts) - 1)], with
    [indices] the values of [i] still to visit. *)
Fixpoint v6_find_skip (parts : list string) (indices : list nat)
    (skip_index : option nat) : result (option nat) :=
  match indices with
  | [] => Ok skip_index
  | i :: rest =>
      if is_empty (nth i parts EmptyString) then
        match skip_index with
        | Some _ => Raise (AddressValueError "At most one '::' permitted")
        | None => v6_find_skip parts rest (Some i)
        end
      else v6_find_skip parts rest skip_index
  end.

(** [ip_int <<= 16; ip_int |= cls._parse_hextet(part)] over [parts] *)
Fixpoint v6_parse_hextets (parts : list string) (ip_int : N) : result N :=
  match parts with
  | [] => Ok ip_int
  | part :: rest =>
      h ← v6_parse_hextet part;
      v6_parse_hextets rest (N.lor (N.shiftl ip_int 16) h)
  end.

(** [_BaseV6._ip_int_from_string].  The two parsing loops visit
    [parts[0 .. parts_hi)] and [parts[len - parts_lo .. len)]. *)
Definition v6_ip_int_from_string (ip_str : string) : result N :=
  if is_empty ip_str then Raise (AddressValueError "Address cannot be empty")
  else
    let parts := split ":" ip_str in
    if (length parts <? 3)%nat then
      Raise (AddressValueError "At least 3 parts expected")
    else
      parts ←
        (if contains "." (List.last parts EmptyString) then
           a ← IPv4Address (List.last parts EmptyString);
           let ipv4_int := _ip a in
           Ok (removelast parts ++
                 [Fmt.hex (N.land (N.shiftr ipv4_int 16) 65535);
                  Fmt.hex (N.land ipv4_int 65535)])
         else Ok parts);
      if (9 <? length parts)%nat then
        Raise (AddressValueError "At most 8 colons permitted")
      else
        skip_index ← v6_find_skip parts (seq 1 (length parts - 2)) None;
        '(parts_hi, parts_lo, parts_skipped) ←
          match skip_index with
          | Some skip_index =>
              let parts_hi := Z.of_nat skip_index in
              let parts_lo := (Z.of_nat (length parts) - Z.of_nat skip_index - 1)%Z in
              parts_hi ←
                (if is_empty (nth 0 parts EmptyString) then
                   let parts_hi := (parts_hi - 1)%Z in
                   if negb (parts_hi =? 0)%Z then
                     Raise (AddressValueError "Leading ':' only permitted as part of '::'")
                   else Ok parts_hi
                 else Ok parts_hi);
              parts_lo ←
                (if is_empty (List.last parts EmptyString) then
                   let parts_lo := (parts_lo - 1)%Z in
                   if negb (parts_lo =? 0)%Z then
                     Raise (AddressValueError "Trailing ':' only permitted as part of '::'")
                   else Ok parts_lo
                 else Ok parts_lo);
              let parts_skipped := (8 - (parts_hi + parts_lo))%Z in
              if (parts_skipped <? 1)%Z then
                Raise (AddressValueError "Expected at most 7 other parts with '::'")
              else Ok (parts_hi, parts_lo, parts_skipped)
          | None =>
              if negb (length parts =? 8)%nat then
                Raise (AddressValueError "Exactly 8 parts expected without '::'")
              else if is_empty (nth 0 parts EmptyString) then
                Raise (AddressValueError "Leading ':' only permitted as part of '::'")
              else if is_empty (List.last parts EmptyString) then
                Raise (AddressValueError "Trailing ':' only permitted as part of '::'")
              else Ok (Z.of_nat (length parts), 0%Z, 0%Z)
          end;
        match
          ip_int ← v6_parse_hextets (take (Z.to_nat parts_hi) parts) 0;
          let ip_int := N.shiftl ip_int (16 * Z.to_N parts_skipped) in
          v6_parse_hextets (drop (length parts - Z.to_nat parts_lo) parts) ip_int
        with
        | Ok ip_int => Ok ip_int
        | Raise (ValueError msg) => Raise (AddressValueError msg)
        | Raise e => Raise e
        end.

(** [_BaseV6._split_scope_id] *)
Definition v6_split_scope_id (ip_str : string) : result (string * option string) :=
  let '(addr, sep, scope_id) := partition "%" ip_str in
  if negb sep then Ok (addr, None)
  else if is_empty scope_id || contains "%" scope_id then
    Raise (AddressValueError "Invalid IPv6 address")
  else Ok (addr, Some scope_id).

(** [IPv6Address(address)] for a [str] *)
Definition IPv6Address (address : string) : result t :=
  if contains "/" address then Raise (AddressValueError "Unexpected '/'")
  else
    '(addr_str, scope_id) ← v6_split_scope_id address;
    ip ← v6_ip_int_from_string addr_str;
    Ok (IPv6 ip scope_id).

(** [ipaddress.ip_address(address)] *)
Definition ip_address (address : string) : result t :=
  match IPv4Address address with
  | Ok a => Ok a
  | Raise (AddressValueError _) =>
      match IPv6Address address with
      | Ok a => Ok a
      | Raise (AddressValueError _) =>
          Raise (ValueError "does not appear to be an IPv4 or IPv6 address")
      | Raise e => Raise e
      end
  | Raise e => Raise e
  end.

(** [_BaseV6._compress_hextets]: one turn of the scanning loop.  The
    state is [(best_doublecolon_start, best_doublecolon_len,
    doublecolon_start, doublecolon_len)]. *)
Definition v6_compress_step (st : Z * Z * Z * Z) (index : Z) (hextet : string)
    : Z * Z * Z * Z :=
  let '(best_doublecolon_start, best_doublecolon_len,
        doublecolon_start, doublecolon_len) := st in
  if String.eqb hextet "0" then
    let doublecolon_len := (doublecolon_len + 1)%Z in
    let doublecolon_start :=
      if (doublecolon_start =? -1)%Z then index else doublecolon_start in
    if (best_doublecolon_len <? doublecolon_len)%Z then
      (doublecolon_start, doublecolon_len, doublecolon_start, doublecolon_len)
    else
      (best_doublecolon_start, best_doublecolon_len,
       doublecolon_start, doublecolon_len)
  else (best_doublecolon_start, best_doublecolon_len, (-1)%Z, 0%Z).

(** [for index, hextet in enumerate(hextets)] *)
Fixpoint v6_compress_scan (hextets : list string) (index : Z)
    (st : Z * Z * Z * Z) : Z * Z * Z * Z :=
  match hextets with
  | [] => st
  | hextet :: rest =>
      v6_compress_scan rest (index + 1)%Z (v6_compress_step st index hextet)
  end.

(** [_BaseV6._compress_hextets] *)
Definition v6_compress_hextets (hextets : list string) : list string :=
  let '(best_doublecolon_start, best_doublecolon_len, _, _) :=
    v6_compress_scan hextets 0%Z ((-1)%Z, 0%Z, (-1)%Z, 0%Z) in
  if (1 <? best_doublecolon_len)%Z then
    let best_doublecolon_end :=
      (best_doublecolon_start + best_doublecolon_len)%Z in
    let hextets :=
      if (best_doublecolon_end =? Z.of_nat (length hextets))%Z
      then hextets ++ [EmptyString] else hextets in
    let hextets :=
      take (Z.to_nat best_doublecolon_start) hextets
        ++ [EmptyString] ++ drop (Z.to_nat best_doublecolon_end) hextets in
    if (best_doublecolon_start =? 0)%Z then EmptyString :: hextets else hextets
  else hextets.

(** [[hex_str[x:x+4] for x in range(0, 32, 4)]] *)
Definition v6_slices (hex_str : string) : list string :=
  (λ x, String.substring x 4 hex_str) <$> [0; 4; 8; 12; 16; 20; 24; 28]%nat.

(** [_BaseV6._string_from_ip_int] *)
Definition v6_string_from_ip_int (ip_int : N) : result string :=
  if 2 ^ 128 - 1 <? ip_int then Raise (ValueError "IPv6 address is too large")
  else
    let hex_str := Fmt.hex032 ip_int in
    hextets ← mapM (λ slice, h ← Fmt.int slice 16; Ok (Fmt.hex h)) (v6_slices hex_str);
    let hextets := v6_compress_hextets hextets in
    Ok (join ":" hextets).

(** [str(address)]: [_BaseAddress.__str__], overridden by
    [IPv6Address.__str__], which appends the scope identifier. *)
Definition str (a : t) : result string :=
  match a with
  | IPv4 ip => v4_string_from_ip_int ip
  | IPv6 ip scope_id =>
      ip_str ← v6_string_from_ip_int ip;
      Ok (if truthy scope_id
          then ip_str +:+ "%" +:+ default EmptyString scope_id
          else ip_str)
  end.

(** [address.exploded]: [_explode_shorthand_ip_string].  Version 4
    returns [str(self)]; version 6 parses [str(self)] again and prints
    the integer as eight groups of four digits. *)
Definition exploded (a : t) : result string :=
  match a with
  | IPv4 _ => str a
  | IPv6 _ _ =>
      ip_str ← str a;
      ip_int ← v6_ip_int_from_string ip_str;
      let hex_str := Fmt.hex032 ip_int in
      let parts := v6_slices hex_str in
      Ok (join ":" parts)
  end.
End ipaddress.

(** ** Rows and hosts *)

(** One row of [server_inventory] as the [DictCursor] returns it: the
    nullable columns are optional. *)
Module DbRow.
Record t := {
  id : Z;
  fqdn : string;
  enabled : option Z;
  features : option string;
  ipaddr : string;
  label : option string;
  groups : option string;
  upd : datetime
}.
End DbRow.

Module Host.
Record t := {
  id : Z;
  fqdn : string;
  upd : datetime;
  enabled : bool;
  ipaddr : ipaddress.t;
  groups : list string;
  features : list string;
  label : string
}.

(** [Host.__init__] *)
Definition __init__ (id : Z) (fqdn : string) (enabled : option Z)
    (features : option string) (ipaddr : string) (label : option string)
    (groups : option string) (upd : datetime) : result t :=
  let self_id := id in
  let self_fqdn := fqdn in
  let self_upd := upd in
  (* convert mysql int-based boolean to real boolean *)
  let self_enabled :=
    match enabled with
    | Some z => if (z =? 0)%Z then false else true
    | None => false
    end in
  (* create objects from parsable fields *)
  self_ipaddr ← ipaddress.ip_address ipaddr;
  (* return empty data types if Null in table *)
  let self_groups :=
    if truthy groups then split "," (default EmptyString groups) else [] in
  let self_features :=
    if truthy features then split "," (default EmptyString features) else [] in
  let self_label := if truthy label then default EmptyString label else EmptyString in
  Ok {| id := self_id; fqdn := self_fqdn; upd := self_upd;
        enabled := self_enabled; ipaddr := self_ipaddr;
        groups := self_groups; features := self_features;
        label := self_label |}.
End Host.

(** The values held by the attributes of a host. *)
Inductive value :=
| VInt (z : Z)
| VBool (b : bool)
| VStr (s : string)
| VList (l : list string)
| VDatetime (d : datetime)
| VAddress (a : ipaddress.t).

(** [host.__dict__]: the attributes in the order [__init__] assigns
    them. *)
Definition Host__dict__ (host : Host.t) : Dict.t value :=
  [("id", VInt (Host.id host));
   ("fqdn", VStr (Host.fqdn host));
   ("upd", VDatetime (Host.upd host));
   ("enabled", VBool (Host.enabled host));
   ("ipaddr", VAddress (Host.ipaddr host));
   ("groups", VList (Host.groups host));
   ("features", VList (Host.features host));
   ("label", VStr (Host.label host))].

(** [process_hosts]: the first row that fails aborts the whole list. *)
Fixpoint process_hosts (host_list : list DbRow.t) : result (list Host.t) :=
  match host_list with
  | [] => Ok []
  | host :: rest =>
      h ← Host.__init__ (DbRow.id host) (DbRow.fqdn host) (DbRow.enabled host)
            (DbRow.features host) (DbRow.ipaddr host) (DbRow.label host)
            (DbRow.groups host) (DbRow.upd host);
      hosts ← process_hosts rest;
      Ok (h :: hosts)
  end.

(** ** The inventory builder *)

Definition getitem {V} (k : string) (d : Dict.t V) : result V :=
  match Dict.get k d with
  | Some v => Ok v
  | None => Raise (KeyError k)
  end.

Definition delitem {V} (k : string) (d : Dict.t V) : result (Dict.t V) :=
  match Dict.del k d with
  | Some d' => Ok d'
  | None => Raise (KeyError k)
  end.

Definition upd_format : string := "%Y-%d-%m %H:%M:%S".

(** The body of the loop of [build_hostvars]: the rendered attributes of
    one host. *)
Definition host_vars (host : Host.t) : result (Dict.t value) :=
  let host_dict := Dict.copy (Host__dict__ host) in
  host_dict ← delitem "fqdn" host_dict;
  upd ← getitem "upd" host_dict;
  upd ←
    match upd with
    | VDatetime d => strftime d upd_format
    | _ => Raise (OtherError "AttributeError: strftime")
    end;
  let host_dict := Dict.set "upd" (VStr upd) host_dict in
  ipaddr ← getitem "ipaddr" host_dict;
  ipaddr ←
    match ipaddr with
    | VAddress a => ipaddress.exploded a
    | _ => Raise (OtherError "AttributeError: exploded")
    end;
  let host_dict := Dict.set "ipaddr" (VStr ipaddr) host_dict in
  Ok host_dict.

Definition hostvars_t := Dict.t (Dict.t value).

Fixpoint build_hostvars_from (hostvars : hostvars_t) (hosts : list Host.t)
    : result hostvars_t :=
  match hosts with
  | [] => Ok hostvars
  | host :: rest =>
      host_dict ← host_vars host;
      build_hostvars_from (Dict.set (Host.fqdn host) host_dict hostvars) rest
  end.

(** [build_hostvars] *)
Definition build_hostvars (hosts : list Host.t) : result hostvars_t :=
  build_hostvars_from [] hosts.

(** The dictionary [{'hosts': [...]}] of one group. *)
Module group_dict.
Record t := { hosts : list string }.
End group_dict.

Definition groups_t := Dict.t group_dict.t.

(** The body of the inner loop of [build_groups]; the append to the
    list under ['hosts'] rewrites the entry in place. *)
Definition add_member (fqdn : string) (groups : groups_t) (group : string)
    : groups_t :=
  let groups :=
    if negb (Dict.mem group groups)
    then Dict.set group {| group_dict.hosts := [] |} groups
    else groups in
  match Dict.get group groups with
  | Some g =>
      Dict.set group {| group_dict.hosts := group_dict.hosts g ++ [fqdn] |} groups
  | None => groups
  end.

(** [build_groups] *)
Definition build_groups (hosts : list Host.t) : groups_t :=
  foldl (λ groups host, foldl (add_member (Host.fqdn host)) groups (Host.groups host))
        [] hosts.

(** A value of the inventory document: a group, or the dictionary
    [{'hostvars': hostvars}] stored under ['_meta']. *)
Inductive entry :=
| Group (g : group_dict.t)
| Meta (hostvars : hostvars_t).

Definition inventory_t := Dict.t entry.

(** [build_ansible_inventory] *)
Definition build_ansible_inventory (groups : groups_t) (hostvars : hostvars_t)
    : inventory_t :=
  let inventory := Dict.copy (prod_map id Group <$> groups) in
  let inventory := Dict.set "_meta" (Meta hostvars) inventory in
  inventory.

(** ** Output *)

(** [sorted(data)] on texts.  The order on texts is total and
    antisymmetric, so every sorting algorithm gives the same list. *)
Definition sorted (data : list string) : list string :=
  merge_sort String.le data.

(** What the script hands to [dump]. *)
Inductive data :=
| DataHostvars (hostvars : hostvars_t)
| DataInventory (inventory : inventory_t)
| DataList (l : list string)
| DataKeys (keys : list string).

(** ** The process: store, standard output, exit status *)

(** What a run can observe and change: the rows of [server_inventory],
    the statements executed and committed so far, the texts written by
    [print] (one element per call, with its final newline) and the
    number of open connections. *)
Record world := {
  table : list DbRow.t;
  statements : list string;
  stdout : list string;
  connections : nat
}.

Definition M (A : Type) : Type := world → world * result A.

#[global] Instance M_ret : MRet M := λ A a w, (w, Ok a).
#[global] Instance M_bind : MBind M := λ A B f m w,
  match m w with
  | (w', Ok a) => f a w'
  | (w', Raise e) => (w', Raise e)
  end.

Definition raise {A} (e : exn) : M A := λ w, (w, Raise e).

Definition lift {A} (r : result A) : M A := λ w, (w, r).

(** [print(text)] *)
Definition print (text : string) : M unit := λ w,
  ({| table := table w; statements := statements w;
      stdout := stdout w ++ [text +:+ newline]; connections := connections w |}, Ok ()).

(** [sys.exit(code)] *)
Definition sys_exit {A} (code : Z) : M A := raise (SystemExit code).

(** The exit status of the interpreter after a run: an exception that
    nobody catches ends the process with status 1. *)
Definition exit_status {A} (r : result A) : Z :=
  match r with
  | Ok _ => 0%Z
  | Raise (SystemExit code) => code
  | Raise _ => 1%Z
  end.

(** [connect_db]: the connection is a handle on the store of the
    world. *)
Definition connect_db : M unit := λ w,
  ({| table := table w; statements := statements w;
      stdout := stdout w; connections := S (connections w) |}, Ok ()).

(** [db.close()] *)
Definition db_close : M unit := λ w,
  ({| table := table w; statements := statements w;
      stdout := stdout w; connections := pred (connections w) |}, Ok ()).

(** [read_query] of the one query [get_hosts] builds: every row. *)
Definition read_query : M (list DbRow.t) := λ w, (w, Ok (table w)).

(** [get_hosts] *)
Definition get_hosts : M (list DbRow.t) :=
  _ ← connect_db;
  host_list ← read_query;
  _ ← db_close;
  mret host_list.

(** The parsed command line.  [name] is a one-element list for
    [get host] and [add] ([nargs=1]) and a text or [None] for
    [get group] ([nargs='?']). *)
Inductive name_arg :=
| NameNone
| NameStr (s : string)
| NameList (l : list string).

Record Namespace := {
  subparser : option string;
  list_flag : bool;
  get_subparser : option string;
  name : name_arg;
  ipaddr : option string;
  groups : option string;
  features : option string;
  label : option string;
  disabled : bool
}.

(** [o == s] for an optional text *)
Definition opt_eqb (o : option string) (s : string) : bool :=
  match o with
  | Some s' => String.eqb s' s
  | None => false
  end.

(** [args.name[0]] *)
Definition name_0 (n : name_arg) : result string :=
  match n with
  | NameList (x :: _) => Ok x
  | NameList [] => Raise (IndexError "list index out of range")
  | NameStr (String c _) => Ok (String c EmptyString)
  | NameStr EmptyString => Raise (IndexError "string index out of range")
  | NameNone => Raise (TypeError "'NoneType' object is not subscriptable")
  end.

(** [groups[args.name]] *)
Definition getitem_name (groups : groups_t) (n : name_arg) : result group_dict.t :=
  match n with
  | NameStr s => getitem s groups
  | NameNone => Raise (KeyError "None")
  | NameList _ => Raise (TypeError "unhashable type: 'list'")
  end.

(** ['{}'.format(args.name)] where the script uses it *)
Definition format_name (n : name_arg) : string :=
  match n with
  | NameStr s => s
  | NameNone => "None"
  | NameList l => "[" +:+ join ", " ((λ x, "'" +:+ x +:+ "'") <$> l) +:+ "]"
  end.

(** A value of the list [values] of [add_host]. *)
Inductive sql_value :=
| SqlStr (s : string)
| SqlInt (z : Z).

Definition str_of_Z (z : Z) : string :=
  if (z <? 0)%Z then "-" +:+ Fmt.str (Z.to_N (- z)) else Fmt.str (Z.to_N z).

Section script.
(** The collaborators of the script: the JSON serializer, the
    resolver ([socket.gethostbyname]) and the reaction of the store
    to a statement (the new rows, or the text of the error). *)
Variable json_dumps : data → string.
Variable gethostbyname : string → result string.
Variable execute : string → list DbRow.t → string + list DbRow.t.

(** [write_query] *)
Definition write_query (query : string) : M unit := λ w,
  match execute query (table w) with
  | inr rows =>
      ({| table := rows; statements := statements w ++ [query];
          stdout := stdout w; connections := connections w |}, Ok ())
  | inl msg =>
      (_ ← print ("ERROR: " +:+ msg);
       _ ← db_close;
       sys_exit 1) w
  end.

(** [add_host] *)
Definition add_host (name : string) (ipaddr groups features label : option string)
    (disabled : bool) : M unit :=
  _ ← connect_db;
  let fields := ["fqdn"; "ipaddr"] in
  let values := [SqlStr name] in
  values ←
    (if truthy ipaddr then mret (values ++ [SqlStr (default EmptyString ipaddr)])
     else
       match gethostbyname name with
       | Ok ip => mret (values ++ [SqlStr ip])
       | Raise (Gaierror _ strerror) =>
           _ ← print ("ERROR: " +:+ strerror);
           _ ← db_close;
           sys_exit 1
       | Raise e => raise e
       end);
  let '(fields, values) :=
    if truthy groups
    then (fields ++ ["groups"], values ++ [SqlStr (default EmptyString groups)])
    else (fields, values) in
  let '(fields, values) :=
    if truthy features
    then (fields ++ ["features"], values ++ [SqlStr (default EmptyString features)])
    else (fields, values) in
  let '(fields, values) :=
    if truthy label
    then (fields ++ ["label"], values ++ [SqlStr (default EmptyString label)])
    else (fields, values) in
  let '(fields, values) :=
    if disabled
    then (fields ++ ["enabled"], values ++ [SqlInt 0])
    else (fields, values) in
  let fields := join "," ((λ x, "`" +:+ x +:+ "`") <$> fields) in
  let values :=
    join "," ((λ x, match x with
                    | SqlStr s => "'" +:+ s +:+ "'"
                    | SqlInt z => str_of_Z z
                    end) <$> values) in
  let query :=
    "INSERT INTO `server_inventory` (" +:+ fields +:+ ") VALUES ("
      +:+ values +:+ ");" in
  _ ← write_query query;
  db_close.

(** [dump]: a dictionary goes out as one line of JSON, a list or a
    view of keys as its sorted elements, one per line. *)
Definition dump (d : data) : M unit :=
  match d with
  | DataHostvars _ | DataInventory _ =>
      let output := json_dumps d in
      print output
  | DataList l | DataKeys l =>
      let output := sorted l in
      print (join newline output)
  end.

(** The loop [for host in host_subset: hostvar_subset[host] =
    hostvars[host]] *)
Fixpoint hostvar_subset_from (hostvars hostvar_subset : hostvars_t)
    (host_subset : list string) : result hostvars_t :=
  match host_subset with
  | [] => Ok hostvar_subset
  | host :: rest =>
      v ← getitem host hostvars;
      hostvar_subset_from hostvars (Dict.set host v hostvar_subset) rest
  end.

(** [main] *)
Definition main (args : Namespace) : M unit :=
  if truthy (subparser args) && opt_eqb (subparser args) "add" then
    name0 ← lift (name_0 (name args));
    add_host name0 (ipaddr args) (groups args) (features args) (label args)
      (disabled args)
  else if negb (truthy (subparser args)) || opt_eqb (subparser args) "get" then
    host_list ← get_hosts;
    hosts ← lift (process_hosts host_list);
    let groups := build_groups hosts in
    hostvars ← lift (build_hostvars hosts);
    if truthy (subparser args) then
      if opt_eqb (get_subparser args) "host" then
        name0 ← lift (name_0 (name args));
        if negb (String.eqb name0 "all") then
          let host_subset :=
            Host.fqdn <$>
              List.filter (λ host, String.prefix name0 (Host.fqdn host)) hosts in
          hostvar_subset ← lift (hostvar_subset_from hostvars [] host_subset);
          dump (DataHostvars hostvar_subset)
        else dump (DataHostvars hostvars)
      else if opt_eqb (get_subparser args) "group" then
        if list_flag args then dump (DataKeys (Dict.keys groups))
        else
          match getitem_name groups (name args) with
          | Ok g => dump (DataList (group_dict.hosts g))
          | Raise (KeyError _) =>
              _ ← print ("No group matching " +:+ format_name (name args));
              sys_exit 1
          | Raise e => raise e
          end
      else mret ()
    else if list_flag args then
      dump (DataInventory (build_ansible_inventory groups hostvars))
    else mret ()
  else mret ().
End script.

(** ** Objects and references

    The pure functions above pass dictionaries by value.  Whether
    [build_ansible_inventory] changes the dictionary it is given is a
    question about object identity, so the function is given a second
    time over a store of objects, where [groups.copy()] allocates and
    the item assignment updates the object in place. *)

Module Heap.
Definition ref := positive.

Inductive object :=
| ODict (items : Dict.t ref)
| OList (items : list string)
| OValue (v : value).

Abbreviation heap := (gmap ref object).

(** A new object at a reference not in use. *)
Definition alloc (o : object) (h : heap) : ref * heap :=
  let r := fresh (dom h) in (r, <[r := o]> h).

(** [d.copy()]: a new dictionary object with the same items (the item
    values are the same references: a shallow copy). *)
Definition dict_copy (d : ref) (h : heap) : result (ref * heap) :=
  match h !! d with
  | Some (ODict items) => Ok (alloc (ODict items) h)
  | _ => Raise (OtherError "AttributeError: copy")
  end.

(** [d[k] = v]: the object at [d] is updated in place. *)
Definition dict_setitem (d : ref) (k : string) (v : ref) (h : heap)
    : result heap :=
  match h !! d with
  | Some (ODict items) => Ok (<[d := ODict (Dict.set k v items)]> h)
  | _ => Raise (TypeError "object does not support item assignment")
  end.

(** [build_ansible_inventory] on references *)
Definition build_ansible_inventory (groups hostvars : ref) (h : heap)
    : result (ref * heap) :=
  '(inventory, h) ← dict_copy groups h;
  let '(meta, h) := alloc (ODict [("hostvars", hostvars)]) h in
  h ← dict_setitem inventory "_meta" meta h;
  Ok (inventory, h).

(** Reading the objects back as the values of the pure model. *)
Definition read_items {V} (rd : ref → option V) (items : Dict.t ref)
    : option (Dict.t V) :=
  mapM (λ '(k, r), v ← rd r; Some (k, v)) items.

Definition read_list (h : heap) (r : ref) : option (list string) :=
  match h !! r with
  | Some (OList l) => Some l
  | _ => None
  end.

Definition read_group (h : heap) (r : ref) : option group_dict.t :=
  match h !! r with
  | Some (ODict [(k, r')]) =>
      if String.eqb k "hosts"
      then l ← read_list h r'; Some {| group_dict.hosts := l |}
      else None
  | _ => None
  end.

Definition read_groups (h : heap) (r : ref) : option groups_t :=
  match h !! r with
  | Some (ODict items) => read_items (read_group h) items
  | _ => None
  end.

Definition read_value (h : heap) (r : ref) : option value :=
  match h !! r with
  | Some (OValue v) => Some v
  | _ => None
  end.

Definition read_host_dict (h : heap) (r : ref) : option (Dict.t value) :=
  match h !! r with
  | Some (ODict items) => read_items (read_value h) items
  | _ => None
  end.

Definition read_hostvars (h : heap) (r : ref) : option hostvars_t :=
  match h !! r with
  | Some (ODict items) => read_items (read_host_dict h) items
  | _ => None
  end.

Definition read_entry (h : heap) (r : ref) : option entry :=
  match h !! r with
  | Some (ODict [(k, r')]) =>
      if String.eqb k "hosts"
      then l ← read_list h r'; Some (Group {| group_dict.hosts := l |})
      else if String.eqb k "hostvars"
      then hv ← read_hostvars h r'; Some (Meta hv)
      else None
  | _ => None
  end.

Definition read_inventory (h : heap) (r : ref) : option inventory_t :=
  match h !! r with
  | Some (ODict items) => read_items (read_entry h) items
  | _ => None
  end.
End Heap.

(** ** Reference definitions

    The statements below compare the builder with these definitions,
    which follow the wording of the specification. *)

(** The distinct elements of a list, each at the place of its first
    appearance. *)
Fixpoint first_appearances (l : list string) : list string :=
  match l with
  | [] => []
  | x :: l' => x :: filter (λ y, y ≠ x) (first_appearances l')
  end.

(** The members of group [g]: the hosts in the order they were
    supplied, each once for every time it names [g]. *)
Definition members_in_order (g : string) (hosts : list Host.t) : list string :=
  hosts ≫= (λ host, (λ _, Host.fqdn host) <$> filter (g =.) (Host.groups host)).

(** The text [YYYY-DD-MM HH:MM:SS] of a time stamp, digit by digit:
    the year on four digits, then the day, then the month, each on two
    digits. *)
Definition two_digits (n : N) : string :=
  String (Fmt.digit_char (n / 10)) (String (Fmt.digit_char (n mod 10)) EmptyString).

Definition four_digits (n : N) : string :=
  String (Fmt.digit_char (n / 1000))
    (String (Fmt.digit_char (n / 100 mod 10))
       (String (Fmt.digit_char (n / 10 mod 10))
          (String (Fmt.digit_char (n mod 10)) EmptyString))).

Definition year_day_month_text (d : datetime) : string :=
  four_digits (year d) +:+ "-" +:+ two_digits (day d) +:+ "-"
    +:+ two_digits (month d) +:+ " " +:+ two_digits (hour d) +:+ ":"
    +:+ two_digits (minute d) +:+ ":" +:+ two_digits (second d).

(** The time stamps the store holds: the fields of a calendar date and
    a time of day, the year within the range of the column type. *)
Definition stored_datetime (d : datetime) : Prop :=
  (1000 ≤ year d ≤ 9999 ∧ 1 ≤ month d ≤ 12 ∧ 1 ≤ day d ≤ 31
   ∧ hour d ≤ 23 ∧ minute d ≤ 59 ∧ second d ≤ 59)%N.

(** * Properties *)

(** ** Dictionaries *)

Section dict_facts.
Context {V : Type}.
Implicit Types (d : Dict.t V) (k : string) (v : V).

Lemma eqb_decide k k' : String.eqb k k' = bool_decide (k = k').
Proof.
  destruct (String.eqb_spec k k'); symmetry;
    [by apply bool_decide_eq_true | by apply bool_decide_eq_false].
Qed.

Lemma get_set_eq k v d : Dict.get k (Dict.set k v d) = Some v.
Proof.
  induction d as [|[k' v'] d IH]; simpl.
  - by rewrite String.eqb_refl.
  - destruct (String.eqb k k') eqn:E; simpl; rewrite E; [done | apply IH].
Qed.

Lemma get_set_ne k k' v d :
  k ≠ k' → Dict.get k' (Dict.set k v d) = Dict.get k' d.
Proof.
  intros Hne. induction d as [|[k0 v0] d IH]; simpl.
  - by apply String.eqb_neq in Hne; rewrite String.eqb_sym, Hne.
  - destruct (String.eqb k k0) eqn:E; simpl; [|by rewrite IH].
    apply String.eqb_eq in E as <-.
    assert (String.eqb k' k = false) as -> by (apply String.eqb_neq; congruence).
    done.
Qed.

Lemma get_None_keys k d : Dict.get k d = None ↔ k ∉ Dict.keys d.
Proof.
  unfold Dict.keys. induction d as [|[k' v'] d IH]; csimpl.
  - split; [intros _; apply not_elem_of_nil | done].
  - rewrite not_elem_of_cons, <- IH.
    destruct (String.eqb_spec k k'); naive_solver.
Qed.

Lemma get_Some_keys k d : is_Some (Dict.get k d) ↔ k ∈ Dict.keys d.
Proof.
  destruct (Dict.get k d) eqn:E.
  - split; [intros _ | by eauto].
    destruct (decide (k ∈ Dict.keys d)) as [|Hn]; [done|].
    apply get_None_keys in Hn. congruence.
  - split; [by intros [? ?] | intros Hin]. by apply get_None_keys in E.
Qed.

Lemma mem_keys k d : Dict.mem k d = bool_decide (k ∈ Dict.keys d).
Proof.
  unfold Dict.mem. destruct (Dict.get k d) eqn:E; symmetry.
  - apply bool_decide_eq_true, get_Some_keys. by rewrite E.
  - by apply bool_decide_eq_false, get_None_keys.
Qed.

(** Assignment keeps the place of a key that is present and appends a
    new key at the end. *)
Lemma keys_set k v d :
  Dict.keys (Dict.set k v d) =
    if decide (k ∈ Dict.keys d) then Dict.keys d else Dict.keys d ++ [k].
Proof.
  unfold Dict.keys. induction d as [|[k' v'] d IH]; csimpl.
  - by destruct (decide (k ∈ [])) as [?%elem_of_nil|].
  - destruct (String.eqb_spec k k') as [->|Hne]; csimpl.
    + destruct (decide (k' ∈ k' :: d.*1)) as [|Hn]; [done|].
      exfalso. apply Hn. left.
    + rewrite IH.
      destruct (decide (k ∈ d.*1)), (decide (k ∈ k' :: d.*1)) as [Hc|Hc];
        try done.
      * exfalso. apply Hc. by right.
      * by apply elem_of_cons in Hc as [?|?].
Qed.

Lemma keys_set_NoDup k v d :
  NoDup (Dict.keys d) → NoDup (Dict.keys (Dict.set k v d)).
Proof.
  intros Hd. rewrite keys_set. case_decide; [done|].
  apply NoDup_app. split_and!; [done | | apply NoDup_singleton].
  intros x Hx ->%list_elem_of_singleton. done.
Qed.

Lemma get_elem_of k v d : Dict.get k d = Some v → (k, v) ∈ d.
Proof.
  induction d as [|[k' v'] d IH]; simpl; [done|].
  destruct (String.eqb_spec k k') as [->|Hne].
  - intros [= ->]. left.
  - intros. right. auto.
Qed.

Lemma elem_of_get k v d : NoDup (Dict.keys d) → (k, v) ∈ d → Dict.get k d = Some v.
Proof.
  unfold Dict.keys. induction d as [|[k' v'] d IH]; csimpl.
  - by intros _ ?%elem_of_nil.
  - intros [Hk Hd]%NoDup_cons [[= -> ->]|Hin]%elem_of_cons.
    + by rewrite String.eqb_refl.
    + destruct (String.eqb_spec k k') as [->|Hne]; [|auto].
      exfalso. apply Hk. apply list_elem_of_fmap. by exists (k', v).
Qed.

(** A key occurs as often among the items as among the keys. *)
Lemma count_keys k d :
  length (List.filter (λ kv : string * V, String.eqb kv.1 k) d)
  = length (List.filter (λ k', String.eqb k' k) (Dict.keys d)).
Proof.
  unfold Dict.keys. induction d as [|[k' v'] d IH]; simpl; [done|].
  destruct (String.eqb k' k); simpl; by rewrite IH.
Qed.

Lemma count_NoDup k (l : list string) :
  NoDup l → k ∈ l → length (List.filter (λ k', String.eqb k' k) l) = 1.
Proof.
  induction l as [|x l IH]; simpl.
  - by intros _ ?%elem_of_nil.
  - intros [Hx Hl]%NoDup_cons Hin.
    destruct (String.eqb_spec x k) as [->|Hne]; simpl.
    + f_equal. clear IH Hin Hl. induction l as [|y l IH]; simpl; [done|].
      apply not_elem_of_cons in Hx as [Hy Hx].
      destruct (String.eqb_spec y k); [congruence | auto].
    + apply elem_of_cons in Hin as [->|Hin]; [done | auto].
Qed.
End dict_facts.

(** ** First appearances *)

Lemma filter_all {A} (P : A → Prop) `{∀ x, Decision (P x)} (l : list A) :
  (∀ x, x ∈ l → P x) → filter P l = l.
Proof.
  induction l as [|x l IH]; intros Hall; [done|].
  rewrite filter_cons_True by (apply Hall; left).
  f_equal. apply IH. intros y Hy. apply Hall. by right.
Qed.

Definition see (acc : list string) (x : string) : list string :=
  if decide (x ∈ acc) then acc else acc ++ [x].

Lemma foldl_see acc l :
  foldl see acc l = acc ++ filter (λ y, y ∉ acc) (first_appearances l).
Proof.
  revert acc. induction l as [|x l IH]; intros acc; simpl.
  - by rewrite filter_nil, app_nil_r.
  - rewrite IH. unfold see. destruct (decide (x ∈ acc)) as [Hin|Hni].
    + rewrite filter_cons_False by (intros ?; done).
      rewrite list_filter_filter. f_equal. apply list_filter_iff.
      intros y. split; [|tauto]. intros Hy. split; [done|]. by intros ->.
    + rewrite filter_cons_True by done.
      rewrite <- app_assoc. simpl. do 2 f_equal.
      rewrite list_filter_filter. apply list_filter_iff.
      intros y. rewrite not_elem_of_app, list_elem_of_singleton. tauto.
Qed.

Lemma first_appearances_elem_of x l : x ∈ first_appearances l ↔ x ∈ l.
Proof.
  induction l as [|y l IH]; simpl; [done|].
  rewrite !elem_of_cons, list_elem_of_filter, IH.
  destruct (decide (x = y)); naive_solver.
Qed.

Lemma first_appearances_NoDup l : NoDup (first_appearances l).
Proof.
  induction l as [|y l IH]; simpl; [constructor|].
  apply NoDup_cons. split.
  - rewrite list_elem_of_filter. naive_solver.
  - by apply NoDup_filter.
Qed.

(** ** The group mapping *)

Definition members_opt (o : option group_dict.t) : list string :=
  from_option group_dict.hosts [] o.

Lemma add_member_keys f (d : groups_t) g :
  Dict.keys (add_member f d g) = see (Dict.keys d) g.
Proof.
  unfold add_member, see. rewrite mem_keys.
  destruct (decide (g ∈ Dict.keys d)) as [Hin|Hni].
  - rewrite bool_decide_eq_true_2 by done. simpl.
    apply get_Some_keys in Hin as Hs. destruct Hs as [e ->].
    rewrite keys_set. by rewrite decide_True.
  - rewrite bool_decide_eq_false_2 by done. simpl.
    rewrite get_set_eq, keys_set, keys_set.
    rewrite (decide_False (P := g ∈ Dict.keys d)) by done.
    rewrite decide_True; [done|]. apply elem_of_app. right. left.
Qed.

Lemma add_member_get f (d : groups_t) g g' :
  members_opt (Dict.get g' (add_member f d g))
  = members_opt (Dict.get g' d) ++ (if decide (g = g') then [f] else []).
Proof.
  unfold add_member. rewrite mem_keys.
  destruct (decide (g ∈ Dict.keys d)) as [Hin|Hni].
  - rewrite bool_decide_eq_true_2 by done. simpl.
    apply get_Some_keys in Hin as Hs. destruct Hs as [e He]. rewrite He.
    destruct (decide (g = g')) as [<-|Hne].
    + by rewrite get_set_eq, He.
    + rewrite get_set_ne by done. by rewrite app_nil_r.
  - rewrite bool_decide_eq_false_2 by done. simpl. rewrite get_set_eq.
    destruct (decide (g = g')) as [<-|Hne].
    + rewrite get_set_eq. apply get_None_keys in Hni. by rewrite Hni.
    + rewrite !get_set_ne by done. by rewrite app_nil_r.
Qed.

Lemma add_members_keys f gs (d : groups_t) :
  Dict.keys (foldl (add_member f) d gs) = foldl see (Dict.keys d) gs.
Proof.
  revert d. induction gs as [|g gs IH]; intros d; simpl; [done|].
  by rewrite IH, add_member_keys.
Qed.

Lemma add_members_get f gs (d : groups_t) g' :
  members_opt (Dict.get g' (foldl (add_member f) d gs))
  = members_opt (Dict.get g' d) ++ ((λ _, f) <$> filter (g' =.) gs).
Proof.
  revert d. induction gs as [|g gs IH]; intros d; simpl.
  - by rewrite app_nil_r.
  - rewrite IH, add_member_get, <- app_assoc. f_equal.
    destruct (decide (g = g')) as [<-|Hne].
    + by rewrite filter_cons_True.
    + by rewrite filter_cons_False by congruence.
Qed.

Definition build_groups_from (d : groups_t) (hosts : list Host.t) : groups_t :=
  foldl (λ groups host, foldl (add_member (Host.fqdn host)) groups (Host.groups host))
        d hosts.

Lemma build_groups_from_keys hosts (d : groups_t) :
  Dict.keys (build_groups_from d hosts)
  = foldl see (Dict.keys d) (hosts ≫= Host.groups).
Proof.
  revert d. induction hosts as [|h hosts IH]; intros d; [done|].
  rewrite bind_cons, foldl_app, <- (add_members_keys (Host.fqdn h)). apply IH.
Qed.

Lemma members_in_order_cons g h hosts :
  members_in_order g (h :: hosts)
  = ((λ _, Host.fqdn h) <$> filter (g =.) (Host.groups h))
      ++ members_in_order g hosts.
Proof. unfold members_in_order. by rewrite bind_cons. Qed.

Lemma build_groups_from_get hosts (d : groups_t) g :
  members_opt (Dict.get g (build_groups_from d hosts))
  = members_opt (Dict.get g d) ++ members_in_order g hosts.
Proof.
  revert d. induction hosts as [|h hosts IH]; intros d.
  - by rewrite app_nil_r.
  - rewrite members_in_order_cons, app_assoc, <- add_members_get. apply IH.
Qed.

Lemma build_groups_keys hosts :
  Dict.keys (build_groups hosts) = first_appearances (hosts ≫= Host.groups).
Proof.
  change (build_groups hosts) with (build_groups_from [] hosts).
  rewrite build_groups_from_keys, foldl_see. simpl.
  apply filter_all. intros x _. apply not_elem_of_nil.
Qed.

Lemma build_groups_get hosts g e :
  Dict.get g (build_groups hosts) = Some e →
  group_dict.hosts e = members_in_order g hosts.
Proof.
  intros He.
  change (build_groups hosts) with (build_groups_from [] hosts) in He.
  pose proof (build_groups_from_get hosts [] g) as H.
  by rewrite He in H.
Qed.

Lemma build_groups_NoDup hosts : NoDup (Dict.keys (build_groups hosts)).
Proof. rewrite build_groups_keys. apply first_appearances_NoDup. Qed.

Lemma build_groups_is_Some hosts g :
  is_Some (Dict.get g (build_groups hosts)) ↔ ∃ host, host ∈ hosts ∧ g ∈ Host.groups host.
Proof.
  rewrite get_Some_keys, build_groups_keys, first_appearances_elem_of.
  rewrite list_elem_of_bind. naive_solver.
Qed.

Lemma members_in_order_elem_of f g hosts :
  f ∈ members_in_order g hosts
  ↔ ∃ host, host ∈ hosts ∧ Host.fqdn host = f ∧ g ∈ Host.groups host.
Proof.
  unfold members_in_order. rewrite list_elem_of_bind. split.
  - intros (h & Hf & Hh). apply list_elem_of_fmap in Hf as (g' & -> & Hg).
    apply list_elem_of_filter in Hg as [<- Hg]. eauto.
  - intros (h & Hh & <- & Hg). exists h. split; [|done].
    apply list_elem_of_fmap. exists g. split; [done|].
    by apply list_elem_of_filter.
Qed.

(** ** The normalizer *)

Definition Host_of_row (r : DbRow.t) : result Host.t :=
  Host.__init__ (DbRow.id r) (DbRow.fqdn r) (DbRow.enabled r) (DbRow.features r)
    (DbRow.ipaddr r) (DbRow.label r) (DbRow.groups r) (DbRow.upd r).

(** The list that [split] makes of a nullable column. *)
Definition csv (column : option string) : list string :=
  if truthy column then split "," (default EmptyString column) else [].

Lemma Host_of_row_Ok r h :
  Host_of_row r = Ok h →
  ipaddress.ip_address (DbRow.ipaddr r) = Ok (Host.ipaddr h)
  ∧ Host.fqdn h = DbRow.fqdn r
  ∧ Host.id h = DbRow.id r
  ∧ Host.upd h = DbRow.upd r
  ∧ Host.groups h = csv (DbRow.groups r)
  ∧ Host.features h = csv (DbRow.features r).
Proof.
  unfold Host_of_row, Host.__init__.
  destruct (ipaddress.ip_address (DbRow.ipaddr r)) as [a|e]; simpl; [|done].
  by intros [= <-].
Qed.

Lemma process_hosts_Forall2 rows hosts :
  process_hosts rows = Ok hosts ↔ Forall2 (λ r h, Host_of_row r = Ok h) rows hosts.
Proof.
  revert hosts. induction rows as [|r rows IH]; intros hosts; simpl.
  - split; [intros [= <-]; constructor | by inversion 1].
  - fold (Host_of_row r). split.
    + destruct (Host_of_row r) as [h|e] eqn:Eh; simpl; [|done].
      destruct (process_hosts rows) as [hs|e] eqn:Ehs; simpl; [|done].
      intros [= <-]. constructor; [done | by apply IH].
    + inversion 1 as [|? h ? hs Hh Hhs]; subst. rewrite Hh. simpl.
      apply IH in Hhs as ->. done.
Qed.

Lemma process_hosts_fqdn rows hosts :
  process_hosts rows = Ok hosts → Host.fqdn <$> hosts = DbRow.fqdn <$> rows.
Proof.
  intros H%process_hosts_Forall2.
  induction H as [|r h rows hosts Hh _ IH]; [done|]. csimpl.
  apply Host_of_row_Ok in Hh as (_ & -> & _). by rewrite IH.
Qed.

Lemma process_hosts_elem_of rows hosts r :
  process_hosts rows = Ok hosts → r ∈ rows →
  ∃ h, h ∈ hosts ∧ Host_of_row r = Ok h.
Proof.
  intros H%process_hosts_Forall2 [i Hi]%list_elem_of_lookup.
  destruct (Forall2_lookup_l _ _ _ _ _ H Hi) as (h & Hh & ?).
  exists h. split; [by eapply list_elem_of_lookup_2 | done].
Qed.

Lemma process_hosts_elem_of_inv rows hosts h :
  process_hosts rows = Ok hosts → h ∈ hosts →
  ∃ r, r ∈ rows ∧ Host_of_row r = Ok h.
Proof.
  intros H%process_hosts_Forall2 [i Hi]%list_elem_of_lookup.
  destruct (Forall2_lookup_r _ _ _ _ _ H Hi) as (r & Hr & ?).
  exists r. split; [by eapply list_elem_of_lookup_2 | done].
Qed.

(** ** The hostvars mapping *)

Lemma build_hostvars_from_keys hosts (d hostvars : hostvars_t) :
  build_hostvars_from d hosts = Ok hostvars →
  Dict.keys hostvars = foldl see (Dict.keys d) (Host.fqdn <$> hosts).
Proof.
  revert d. induction hosts as [|h hosts IH]; intros d; simpl.
  - by intros [= <-].
  - destruct (host_vars h) as [hd|e]; simpl; [|done].
    intros ->%IH. by rewrite keys_set.
Qed.

Lemma build_hostvars_keys hosts hostvars :
  build_hostvars hosts = Ok hostvars →
  Dict.keys hostvars = first_appearances (Host.fqdn <$> hosts).
Proof.
  intros ->%build_hostvars_from_keys. rewrite foldl_see. simpl.
  apply filter_all. intros x _. apply not_elem_of_nil.
Qed.

(** Every entry of the mapping is the rendering of a host with that
    name, and every host has an entry. *)
Lemma build_hostvars_from_get hosts (d hostvars : hostvars_t) f v :
  build_hostvars_from d hosts = Ok hostvars →
  Dict.get f hostvars = Some v →
  Dict.get f d = Some v
  ∨ ∃ host, host ∈ hosts ∧ Host.fqdn host = f ∧ host_vars host = Ok v.
Proof.
  revert d. induction hosts as [|h hosts IH]; intros d; simpl.
  - intros [= <-]. by left.
  - destruct (host_vars h) as [hd|e] eqn:Eh; simpl; [|done].
    intros Hb Hg. destruct (IH _ Hb Hg) as [Hd|(h' & Hin & Hf & Hv)].
    + destruct (decide (Host.fqdn h = f)) as [Hf|Hne].
      * rewrite Hf, get_set_eq in Hd. injection Hd as <-.
        right. exists h. split_and!; [left | done | done].
      * rewrite get_set_ne in Hd by done. by left.
    + right. exists h'. split_and!; [by right | done | done].
Qed.

Lemma build_hostvars_get hosts hostvars f v :
  build_hostvars hosts = Ok hostvars →
  Dict.get f hostvars = Some v →
  ∃ host, host ∈ hosts ∧ Host.fqdn host = f ∧ host_vars host = Ok v.
Proof.
  intros Hb Hg. by destruct (build_hostvars_from_get _ _ _ _ _ Hb Hg).
Qed.

Lemma build_hostvars_is_Some hosts hostvars f :
  build_hostvars hosts = Ok hostvars →
  is_Some (Dict.get f hostvars) ↔ f ∈ Host.fqdn <$> hosts.
Proof.
  intros Hb. by rewrite get_Some_keys, (build_hostvars_keys _ _ Hb),
    first_appearances_elem_of.
Qed.

(** ** The inventory document *)

Lemma get_fmap {A B} (f : A → B) (d : Dict.t A) k :
  Dict.get k (prod_map id f <$> d) = f <$> Dict.get k d.
Proof.
  induction d as [|[k' v] d IH]; csimpl; [done|].
  by destruct (String.eqb k k').
Qed.

Lemma keys_fmap {A B} (f : A → B) (d : Dict.t A) :
  Dict.keys (prod_map id f <$> d) = Dict.keys d.
Proof.
  unfold Dict.keys. rewrite <- list_fmap_compose. by apply list_fmap_ext; intros ? [].
Qed.

Lemma build_ansible_inventory_meta groups hostvars :
  Dict.get "_meta" (build_ansible_inventory groups hostvars) = Some (Meta hostvars).
Proof. apply get_set_eq. Qed.

Lemma build_ansible_inventory_group groups hostvars k :
  k ≠ "_meta" →
  Dict.get k (build_ansible_inventory groups hostvars) = Group <$> Dict.get k groups.
Proof.
  intros Hk. unfold build_ansible_inventory, Dict.copy.
  rewrite get_set_ne by done. apply get_fmap.
Qed.

Lemma build_ansible_inventory_Group groups hostvars k e :
  Dict.get k (build_ansible_inventory groups hostvars) = Some (Group e) →
  k ≠ "_meta" ∧ Dict.get k groups = Some e.
Proof.
  destruct (decide (k = "_meta")) as [->|Hk].
  - by rewrite build_ansible_inventory_meta.
  - rewrite build_ansible_inventory_group by done.
    destruct (Dict.get k groups); [|done]. by intros [= ->].
Qed.

(** ** Hosts without groups *)

Lemma NoDup_fmap_inj {A B} (f : A → B) (l : list A) x y :
  NoDup (f <$> l) → x ∈ l → y ∈ l → f x = f y → x = y.
Proof.
  induction l as [|z l IH]; csimpl; [by intros _ ?%elem_of_nil|].
  intros [Hz Hl]%NoDup_cons [->|Hx]%elem_of_cons [->|Hy]%elem_of_cons Hf;
    [done | | | by apply IH].
  - exfalso. apply Hz. rewrite Hf. by apply list_elem_of_fmap_2.
  - exfalso. apply Hz. rewrite <- Hf. by apply list_elem_of_fmap_2.
Qed.

Lemma csv_falsy column : column = None ∨ column = Some EmptyString → csv column = [].
Proof. by intros [-> | ->]. Qed.

(** C1. A row whose [groups] column is null or the empty text is named
    by no group of the built inventory, neither in the group mapping nor
    among the group entries of the merged document, and the hostvars
    mapping holds exactly one entry under its fqdn.  The rows are those
    of one snapshot, where [fqdn] is a unique key. *)
Theorem C1_ungrouped_host rows hosts hostvars r :
  process_hosts rows = Ok hosts →
  build_hostvars hosts = Ok hostvars →
  NoDup (DbRow.fqdn <$> rows) →
  r ∈ rows →
  DbRow.groups r = None ∨ DbRow.groups r = Some EmptyString →
  (∀ g e, Dict.get g (build_groups hosts) = Some e →
          DbRow.fqdn r ∉ group_dict.hosts e)
  ∧ (∀ g e, Dict.get g (build_ansible_inventory (build_groups hosts) hostvars)
            = Some (Group e) →
            DbRow.fqdn r ∉ group_dict.hosts e)
  ∧ length (List.filter (λ kv : string * Dict.t value, String.eqb kv.1 (DbRow.fqdn r))
              hostvars) = 1.
Proof.
  intros Hp Hb Hnd Hr Hg.
  assert (∀ g e, Dict.get g (build_groups hosts) = Some e →
                 DbRow.fqdn r ∉ group_dict.hosts e) as Hgroups.
  { intros g e He Hin. rewrite (build_groups_get _ _ _ He) in Hin.
    apply members_in_order_elem_of in Hin as (h & Hh & Hf & Hgh).
    destruct (process_hosts_elem_of_inv _ _ _ Hp Hh) as (r' & Hr' & Hinit).
    apply Host_of_row_Ok in Hinit as (_ & Hf' & _ & _ & Hgs & _).
    assert (r' = r) as ->.
    { apply (NoDup_fmap_inj DbRow.fqdn rows); [done..|congruence]. }
    rewrite Hgs, csv_falsy in Hgh by done. by apply elem_of_nil in Hgh. }
  split_and!; [done | |].
  - intros g e [_ He]%build_ansible_inventory_Group. by eapply Hgroups.
  - rewrite count_keys. apply count_NoDup.
    + rewrite (build_hostvars_keys _ _ Hb). apply first_appearances_NoDup.
    + apply get_Some_keys, (build_hostvars_is_Some _ _ _ Hb).
      rewrite (process_hosts_fqdn _ _ Hp). by apply list_elem_of_fmap_2.
Qed.

(** ** Order of groups and members *)

(** C6. The keys of the group mapping are the group names in the order
    of their first appearance over the supplied hosts, and the member
    list of a group names the hosts in the order they were supplied
    (once for every time a host names the group): nothing is sorted. *)
Theorem C6_group_and_member_order hosts :
  Dict.keys (build_groups hosts) = first_appearances (hosts ≫= Host.groups)
  ∧ ∀ g e, Dict.get g (build_groups hosts) = Some e →
           group_dict.hosts e = members_in_order g hosts.
Proof. split; [apply build_groups_keys | apply build_groups_get]. Qed.

(** ** Splitting on commas *)

Fixpoint count_char (c : ascii) (s : string) : nat :=
  match s with
  | EmptyString => 0
  | String c' s' => (if Ascii.eqb c' c then 1 else 0) + count_char c s'
  end.

Lemma split_nonempty sep s : split sep s ≠ [].
Proof.
  destruct s as [|c s]; simpl; [done|].
  destruct (Ascii.eqb c sep); [done|]. by destruct (split sep s).
Qed.

Lemma split_length sep s : length (split sep s) = S (count_char sep s).
Proof.
  induction s as [|c s IH]; simpl; [done|].
  destruct (Ascii.eqb c sep); simpl; [by rewrite IH|].
  pose proof (split_nonempty sep s). by destruct (split sep s).
Qed.

Lemma join_split sep s : join (String sep EmptyString) (split sep s) = s.
Proof.
  unfold join. induction s as [|c s IH]; simpl; [done|].
  destruct (Ascii.eqb_spec c sep) as [->|Hne].
  - pose proof (split_nonempty sep s).
    destruct (split sep s) as [|seg segs] eqn:E; [done|].
    simpl in *. by rewrite IH.
  - pose proof (split_nonempty sep s).
    destruct (split sep s) as [|seg segs] eqn:E; [done|].
    simpl in *. destruct segs; simpl in *; by rewrite <- IH.
Qed.

Lemma split_app sep a b :
  split sep (a +:+ String sep b) = split sep a ++ split sep b.
Proof.
  induction a as [|c a IH]; simpl.
  - by rewrite Ascii.eqb_refl.
  - destruct (Ascii.eqb c sep); [by rewrite IH|].
    rewrite IH. pose proof (split_nonempty sep a). by destruct (split sep a).
Qed.

Lemma split_segment_no_sep sep s seg :
  seg ∈ split sep s → contains sep seg = false.
Proof.
  revert seg. induction s as [|c s IH]; intros seg; simpl.
  - by intros ->%list_elem_of_singleton.
  - destruct (Ascii.eqb c sep) eqn:Ec.
    + intros [->|?]%elem_of_cons; [done | auto].
    + pose proof (split_nonempty sep s).
      destruct (split sep s) as [|seg0 segs]; [done|].
      intros [->|?]%elem_of_cons.
      * simpl. rewrite Ec. apply IH. left.
      * apply IH. by right.
Qed.

(** C10. [Host.__init__] turns a non-empty [groups] text, and a
    non-empty [features] text, into the list of its segments between
    commas and does nothing else to it: the attribute of the host is
    [split] of the column, joining the segments with commas gives the
    text back, there is one segment more than there are commas, and no
    segment is trimmed or dropped.  So a comma at the end of the text,
    or two commas in a row, leave an empty segment in the attribute, and
    a row with such a [groups] text is a member of the group named by
    the empty text. *)
Theorem C10_split_keeps_empty_segments c s :
  let column := String c s in
  (∀ id fqdn enabled features ipaddr label upd host,
     Host.__init__ id fqdn enabled features ipaddr label (Some column) upd
     = Ok host →
     Host.groups host = split "," column)
  ∧ (∀ id fqdn enabled ipaddr label groups upd host,
       Host.__init__ id fqdn enabled (Some column) ipaddr label groups upd
       = Ok host →
       Host.features host = split "," column)
  ∧ (∀ id fqdn enabled features ipaddr label groups upd a,
       ipaddress.ip_address ipaddr = Ok a →
       ∃ host, Host.__init__ id fqdn enabled features ipaddr label groups upd
               = Ok host)
  ∧ (∀ upd,
       Host.groups <$>
         Host.__init__ 1 "h.example.com" (Some 1%Z) (Some "x,,y") "10.0.0.1" None
           (Some "a,") upd
       = Ok ["a"; ""]
       ∧ Host.features <$>
           Host.__init__ 1 "h.example.com" (Some 1%Z) (Some "x,,y") "10.0.0.1"
             None (Some "a,") upd
         = Ok ["x"; ""; "y"])
  ∧ csv (Some column) = split "," column
  ∧ join "," (split "," column) = column
  ∧ length (split "," column) = S (count_char "," column)
  ∧ split "," "a," = ["a"; ""]
  ∧ (∀ a, column = a +:+ "," → EmptyString ∈ split "," column)
  ∧ (∀ a b, column = a +:+ ",," +:+ b → EmptyString ∈ split "," column)
  ∧ (∀ rows hosts r,
       process_hosts rows = Ok hosts → r ∈ rows →
       DbRow.groups r = Some column → EmptyString ∈ split "," column →
       ∃ e host, Dict.get EmptyString (build_groups hosts) = Some e
                 ∧ DbRow.fqdn r ∈ group_dict.hosts e
                 ∧ host ∈ hosts ∧ Host.fqdn host = DbRow.fqdn r
                 ∧ Host.groups host = split "," column).
Proof.
  intros column. split_and!.
  - intros id fqdn enabled features ipaddr label upd host.
    unfold Host.__init__.
    destruct (ipaddress.ip_address ipaddr) as [a|]; simpl; [|done].
    by intros [= <-].
  - intros id fqdn enabled ipaddr label groups upd host.
    unfold Host.__init__.
    destruct (ipaddress.ip_address ipaddr) as [a|]; simpl; [|done].
    by intros [= <-].
  - intros id fqdn enabled features ipaddr label groups upd a Ha.
    unfold Host.__init__. rewrite Ha. simpl. eauto.
  - intros upd. split; vm_compute; reflexivity.
  - done.
  - apply join_split.
  - apply split_length.
  - done.
  - intros a ->. change (a +:+ ",") with (a +:+ String "," EmptyString).
    rewrite split_app. apply elem_of_app. right. left.
  - intros a b ->.
    change (a +:+ ",," +:+ b) with (a +:+ String "," (String "," b)).
    rewrite split_app. apply elem_of_app. right. simpl. left.
  - intros rows hosts r Hp Hr Hg Hin.
    destruct (process_hosts_elem_of _ _ _ Hp Hr) as (h & Hh & Hinit).
    apply Host_of_row_Ok in Hinit as (_ & Hf & _ & _ & Hgs & _).
    rewrite Hg in Hgs. change (csv (Some column)) with (split "," column) in Hgs.
    assert (is_Some (Dict.get EmptyString (build_groups hosts))) as [e He].
    { apply build_groups_is_Some. exists h. by rewrite Hgs. }
    exists e, h. split_and!; [done | | done | done | done].
    rewrite (build_groups_get _ _ _ He).
    apply members_in_order_elem_of. exists h. by rewrite Hgs.
Qed.

(** ** A snapshot to run the builder on *)

Definition stamp : datetime :=
  {| year := 2020; month := 3; day := 17;
     hour := 4; minute := 5; second := 6; microsecond := 0 |}.

Definition row (id : Z) (fqdn ipaddr : string) (groups : option string) : DbRow.t :=
  {| DbRow.id := id; DbRow.fqdn := fqdn; DbRow.enabled := Some 1%Z;
     DbRow.features := None; DbRow.ipaddr := ipaddr; DbRow.label := None;
     DbRow.groups := groups; DbRow.upd := stamp |}.

Definition snapshot : list DbRow.t :=
  [row 1 "web1.example.com" "10.0.0.1" (Some "web,prod");
   row 2 "web2.example.com" "10.0.0.2" (Some "web");
   row 3 "db1.example.com" "::1" (Some "prod,db");
   row 4 "spare.example.com" "10.0.0.9" (Some "");
   row 5 "new.example.com" "10.0.0.10" None].

Definition snapshot_hosts : list Host.t :=
  Eval vm_compute in
    match process_hosts snapshot with Ok hosts => hosts | Raise _ => [] end.

Definition snapshot_hostvars : hostvars_t :=
  Eval vm_compute in
    match build_hostvars snapshot_hosts with Ok hv => hv | Raise _ => [] end.

Lemma C1_ungrouped_host_witness :
  (∀ g e, Dict.get g (build_groups snapshot_hosts) = Some e →
          "spare.example.com" ∉ group_dict.hosts e)
  ∧ (∀ g e, Dict.get g (build_ansible_inventory (build_groups snapshot_hosts)
                          snapshot_hostvars) = Some (Group e) →
            "spare.example.com" ∉ group_dict.hosts e)
  ∧ length (List.filter (λ kv : string * Dict.t value,
                           String.eqb kv.1 "spare.example.com")
              snapshot_hostvars) = 1.
Proof.
  apply (C1_ungrouped_host snapshot snapshot_hosts snapshot_hostvars
           (row 4 "spare.example.com" "10.0.0.9" (Some ""))).
  - vm_compute. reflexivity.
  - vm_compute. reflexivity.
  - apply (bool_decide_unpack _). vm_compute. exact I.
  - apply (list_elem_of_lookup_2 _ 3). reflexivity.
  - right. reflexivity.
Defined.

(** ** Prefixes and the order on texts *)

Lemma prefix_spec X f : String.prefix X f = true ↔ ∃ rest, f = X +:+ rest.
Proof.
  revert f. induction X as [|c X IH]; intros f.
  - destruct f; simpl; split; eauto.
  - destruct f as [|c' f]; simpl.
    + split; [done | by intros [? ?]].
    + destruct (ascii_dec c c') as [->|Hne].
      * rewrite IH. split; intros [rest Hr]; exists rest.
        -- by rewrite Hr.
        -- by injection Hr.
      * split; [done | intros [rest [= ? ?]]; done].
Qed.

Lemma sorted_Sorted l : Sorted String.le (sorted l).
Proof. apply Sorted_merge_sort, _. Qed.

Lemma sorted_Permutation l : sorted l ≡ₚ l.
Proof. apply merge_sort_Permutation. Qed.

(** The sorted list depends on the elements only, not on their order
    in the input (nor on the algorithm that sorts). *)
Lemma sorted_unique l l' :
  Sorted String.le l' → l' ≡ₚ l → l' = sorted l.
Proof.
  intros Hs Hp. apply (Sorted_unique String.le); [done | apply sorted_Sorted |].
  by rewrite Hp, sorted_Permutation.
Qed.

Lemma sorted_perm l l' : l ≡ₚ l' → sorted l = sorted l'.
Proof.
  intros Hp. apply sorted_unique; [apply sorted_Sorted|].
  by rewrite sorted_Permutation.
Qed.

(** ** The selector *)

Definition with_stdout (w : world) (out : list string) : world :=
  {| table := table w; statements := statements w;
     stdout := out; connections := connections w |}.

Lemma hostvar_subset_from_spec (hostvars res acc : hostvars_t) l :
  hostvar_subset_from hostvars acc l = Ok res →
  ∀ f, Dict.get f res =
       if decide (f ∈ l) then Dict.get f hostvars else Dict.get f acc.
Proof.
  revert acc. induction l as [|x l IH]; intros acc; simpl.
  - intros [= <-] f. by destruct (decide (f ∈ [])) as [?%elem_of_nil|].
  - unfold getitem. destruct (Dict.get x hostvars) as [v|] eqn:Ex; simpl; [|done].
    intros Hr f. rewrite (IH _ Hr).
    destruct (decide (f ∈ l)) as [Hin|Hni], (decide (f ∈ x :: l)) as [Hc|Hc];
      try done.
    + exfalso. apply Hc. by right.
    + apply elem_of_cons in Hc as [->|?]; [|done]. by rewrite get_set_eq.
    + apply not_elem_of_cons in Hc as [? _]. by rewrite get_set_ne.
Qed.

Lemma hostvar_subset_from_Ok (hostvars acc : hostvars_t) l :
  (∀ f, f ∈ l → is_Some (Dict.get f hostvars)) →
  ∃ res, hostvar_subset_from hostvars acc l = Ok res.
Proof.
  revert acc. induction l as [|x l IH]; intros acc Hl; simpl; [eauto|].
  unfold getitem. destruct (Hl x) as [v ->]; [left|]. simpl.
  apply IH. intros f Hf. apply Hl. by right.
Qed.

Lemma hostvar_subset_from_NoDup (hostvars res acc : hostvars_t) l :
  hostvar_subset_from hostvars acc l = Ok res →
  NoDup (Dict.keys acc) → NoDup (Dict.keys res).
Proof.
  revert acc. induction l as [|x l IH]; intros acc; simpl.
  - by intros [= <-].
  - unfold getitem. destruct (Dict.get x hostvars) as [v|]; simpl; [|done].
    intros Hr Hnd. apply (IH _ Hr). by apply keys_set_NoDup.
Qed.

Lemma get_nil_inv {V} (d : Dict.t V) : (∀ f, Dict.get f d = None) → d = [].
Proof.
  destruct d as [|[k v] d]; [done|]. intros H. specialize (H k).
  simpl in H. by rewrite String.eqb_refl in H.
Qed.

(** The read path up to the choice of the view: the rows are read,
    normalized and folded into the two mappings. *)
Ltac run_read_path Hs Hp Hb :=
  unfold main; rewrite Hs; simpl;
  unfold mbind, M_bind, get_hosts, mbind, M_bind, lift; simpl;
  rewrite Hp, Hb; simpl.

Section selector_facts.
Variable json_dumps : data → string.
Variable gethostbyname : string → result string.
Variable execute : string → list DbRow.t → string + list DbRow.t.

(** C4. [get group G]: when [G] is not a key of the group mapping the
    run prints the not-found message and nothing else, and ends with
    exit status 1, so no empty mapping and no empty list is written;
    when [G] is a key the run hands the member list of [G] (which is
    never empty) to [dump], which prints it sorted, one name per line,
    and ends normally. *)
Theorem C4_group_by_name args w hosts hostvars G :
  subparser args = Some "get" →
  get_subparser args = Some "group" →
  list_flag args = false →
  name args = NameStr G →
  process_hosts (table w) = Ok hosts →
  build_hostvars hosts = Ok hostvars →
  match Dict.get G (build_groups hosts) with
  | None =>
      main json_dumps gethostbyname execute args w
      = (with_stdout w (stdout w ++ [("No group matching " +:+ G) +:+ newline]),
         Raise (SystemExit 1))
      ∧ exit_status (main json_dumps gethostbyname execute args w).2 = 1%Z
  | Some e =>
      main json_dumps gethostbyname execute args w
      = dump json_dumps (DataList (group_dict.hosts e)) w
      ∧ main json_dumps gethostbyname execute args w
        = (with_stdout w
             (stdout w ++ [join newline (sorted (group_dict.hosts e)) +:+ newline]),
           Ok ())
      ∧ exit_status (main json_dumps gethostbyname execute args w).2 = 0%Z
      ∧ group_dict.hosts e = members_in_order G hosts
      ∧ group_dict.hosts e ≠ []
  end.
Proof.
  intros Hs Hg Hl Hn Hp Hb. destruct w as [tbl stm out conns]. simpl in Hp.
  destruct (Dict.get G (build_groups hosts)) as [e|] eqn:He.
  - assert (main json_dumps gethostbyname execute args
              {| table := tbl; statements := stm; stdout := out;
                 connections := conns |}
            = dump json_dumps (DataList (group_dict.hosts e))
                {| table := tbl; statements := stm; stdout := out;
                   connections := conns |}) as Hmain.
    { run_read_path Hs Hp Hb. rewrite Hg, Hl, Hn. simpl.
      unfold getitem. by rewrite He. }
    rewrite Hmain. split_and!; try done.
    + by apply build_groups_get.
    + rewrite (build_groups_get _ _ _ He).
      assert (is_Some (Dict.get G (build_groups hosts))) as Hs' by by rewrite He.
      apply build_groups_is_Some in Hs' as (h & Hh & HG).
      intros Hnil. eapply elem_of_nil. rewrite <- Hnil.
      apply members_in_order_elem_of. eauto.
  - assert (main json_dumps gethostbyname execute args
              {| table := tbl; statements := stm; stdout := out;
                 connections := conns |}
            = (with_stdout
                 {| table := tbl; statements := stm; stdout := out;
                    connections := conns |}
                 (out ++ [("No group matching " +:+ G) +:+ newline]),
               Raise (SystemExit 1))) as Hmain.
    { run_read_path Hs Hp Hb. rewrite Hg, Hl, Hn. simpl.
      unfold getitem. by rewrite He. }
    by rewrite Hmain.
Qed.
(** C2. [get host X] for [X] other than [all]: the run prints, as one
    JSON document, the mapping that holds exactly the entries of the
    hostvars mapping whose key starts with [X] (the comparison is on the
    characters as they are, so it is case-sensitive), and ends normally;
    when no key starts with [X] the mapping is empty and the run still
    ends normally. *)
Theorem C2_host_by_prefix args w hosts hostvars X :
  subparser args = Some "get" →
  get_subparser args = Some "host" →
  name args = NameList [X] →
  X ≠ "all" →
  process_hosts (table w) = Ok hosts →
  build_hostvars hosts = Ok hostvars →
  ∃ hostvar_subset : hostvars_t,
    main json_dumps gethostbyname execute args w
    = (with_stdout w
         (stdout w ++ [json_dumps (DataHostvars hostvar_subset) +:+ newline]),
       Ok ())
    ∧ exit_status (main json_dumps gethostbyname execute args w).2 = 0%Z
    ∧ (∀ f v, Dict.get f hostvar_subset = Some v
              ↔ Dict.get f hostvars = Some v ∧ String.prefix X f = true)
    ∧ (∀ f, String.prefix X f = true ↔ ∃ rest, f = X +:+ rest)
    ∧ NoDup (Dict.keys hostvar_subset)
    ∧ ((∀ f, f ∈ Dict.keys hostvars → String.prefix X f = false) →
       hostvar_subset = []).
Proof.
  intros Hs Hg Hn HX Hp Hb. destruct w as [tbl stm out conns]. simpl in Hp.
  set (host_subset :=
         Host.fqdn <$> List.filter (λ host, String.prefix X (Host.fqdn host)) hosts).
  assert (∀ f, f ∈ host_subset
               ↔ f ∈ Host.fqdn <$> hosts ∧ String.prefix X f = true) as Hsub.
  { intros f. unfold host_subset. rewrite !list_elem_of_fmap. split.
    - intros (h & -> & Hh). apply list_elem_of_In, filter_In in Hh as [Hh Hpre].
      split; [|done]. exists h. by rewrite list_elem_of_In.
    - intros [(h & -> & Hh) Hpre]. exists h. split; [done|].
      apply list_elem_of_In, filter_In. by rewrite <- list_elem_of_In. }
  destruct (hostvar_subset_from_Ok hostvars [] host_subset) as [res Hres].
  { intros f [Hf _]%Hsub. by apply (build_hostvars_is_Some _ _ _ Hb). }
  assert (∀ f v, Dict.get f res = Some v
                 ↔ Dict.get f hostvars = Some v ∧ String.prefix X f = true) as Hget.
  { intros f v. rewrite (hostvar_subset_from_spec _ _ _ _ Hres f).
    destruct (decide (f ∈ host_subset)) as [Hin|Hni].
    - apply Hsub in Hin as [_ Hpre]. tauto.
    - simpl. split; [done|]. intros [Hv Hpre]. exfalso. apply Hni, Hsub.
      split; [|done]. apply (build_hostvars_is_Some _ _ _ Hb). by rewrite Hv. }
  exists res.
  assert (main json_dumps gethostbyname execute args
            {| table := tbl; statements := stm; stdout := out;
               connections := conns |}
          = (with_stdout
               {| table := tbl; statements := stm; stdout := out;
                  connections := conns |}
               (out ++ [json_dumps (DataHostvars res) +:+ newline]),
             Ok ())) as Hmain.
  { run_read_path Hs Hp Hb. rewrite Hg, Hn. simpl.
    apply String.eqb_neq in HX as ->. simpl.
    fold host_subset. by rewrite Hres. }
  rewrite Hmain. split_and!; try done.
  - apply prefix_spec.
  - by apply (hostvar_subset_from_NoDup _ _ _ _ Hres), NoDup_nil.
  - intros Hnone. apply get_nil_inv. intros f.
    destruct (Dict.get f res) as [v|] eqn:Ef; [|done].
    apply Hget in Ef as [Hv Hpre].
    rewrite Hnone in Hpre; [done|]. apply get_Some_keys. by rewrite Hv.
Qed.

(** C7. [get group --list]: the run prints the names of the groups,
    each once, in the order of the texts ([String.le], the comparison
    of [str]), one per line; the
    printed list is the same for every other supply of hosts that names
    the same groups, in whatever order they are met. *)
Theorem C7_group_list_sorted args w hosts hostvars :
  subparser args = Some "get" →
  get_subparser args = Some "group" →
  list_flag args = true →
  process_hosts (table w) = Ok hosts →
  build_hostvars hosts = Ok hostvars →
  let names := sorted (Dict.keys (build_groups hosts)) in
  main json_dumps gethostbyname execute args w
  = (with_stdout w (stdout w ++ [join newline names +:+ newline]), Ok ())
  ∧ Sorted String.le names
  ∧ NoDup names
  ∧ (∀ g, g ∈ names ↔ ∃ host, host ∈ hosts ∧ g ∈ Host.groups host)
  ∧ (∀ hosts',
       (∀ g, g ∈ hosts' ≫= Host.groups ↔ g ∈ hosts ≫= Host.groups) →
       sorted (Dict.keys (build_groups hosts')) = names).
Proof.
  intros Hs Hg Hl Hp Hb names. destruct w as [tbl stm out conns]. simpl in Hp.
  split_and!.
  - run_read_path Hs Hp Hb. by rewrite Hg, Hl.
  - apply sorted_Sorted.
  - unfold names. rewrite sorted_Permutation. apply build_groups_NoDup.
  - intros g. unfold names. rewrite sorted_Permutation.
    rewrite <- get_Some_keys. apply build_groups_is_Some.
  - intros hosts' Hsame. apply sorted_perm.
    apply NoDup_Permutation; [apply build_groups_NoDup..|].
    intros g. rewrite !build_groups_keys, !first_appearances_elem_of. apply Hsame.
Qed.

(** C8. [add NAME] without an address, when the resolver fails: no
    statement is executed and the rows of the store are what they were.
    When the failure is the resolver's own error ([socket.gaierror]) the
    run prints the error text, closes the connection and ends with exit
    status 1. *)
Theorem C8_unresolvable_host_not_inserted args w name_ e :
  subparser args = Some "add" →
  name args = NameList [name_] →
  truthy (ipaddr args) = false →
  gethostbyname name_ = Raise e →
  let run := main json_dumps gethostbyname execute args w in
  statements run.1 = statements w
  ∧ table run.1 = table w
  ∧ (∀ errno strerror, e = Gaierror errno strerror →
       run = (with_stdout w (stdout w ++ [("ERROR: " +:+ strerror) +:+ newline]),
              Raise (SystemExit 1))
       ∧ exit_status run.2 = 1%Z).
Proof.
  intros Hs Hn Hi Hr run. destruct w as [tbl stm out conns].
  assert (run = match e with
                | Gaierror _ strerror =>
                    (with_stdout
                       {| table := tbl; statements := stm; stdout := out;
                          connections := conns |}
                       (out ++ [("ERROR: " +:+ strerror) +:+ newline]),
                     Raise (SystemExit 1))
                | _ => ({| table := tbl; statements := stm; stdout := out;
                           connections := S conns |}, Raise e)
                end) as Hrun.
  { unfold run, main. rewrite Hs, Hn. simpl.
    unfold mbind, M_bind, lift, add_host, mbind, M_bind. simpl.
    rewrite Hi, Hr. by destruct e. }
  rewrite Hrun. split_and!.
  - by destruct e.
  - by destruct e.
  - by intros errno strerror ->.
Qed.
End selector_facts.

(** ** Runs on the snapshot *)

(** Stand-ins for the collaborators: a serializer that prints the keys
    of a mapping, a resolver that knows no name, a store that accepts
    every statement. *)
Definition keys_json (d : data) : string :=
  match d with
  | DataHostvars hostvars => "{" +:+ join "," (Dict.keys hostvars) +:+ "}"
  | DataInventory inventory => "{" +:+ join "," (Dict.keys inventory) +:+ "}"
  | DataList l | DataKeys l => "[" +:+ join "," l +:+ "]"
  end.

Definition no_resolver (name : string) : result string :=
  Raise (Gaierror (-2) "Name or service not known").

Definition accepting_store (query : string) (rows : list DbRow.t)
    : string + list DbRow.t :=
  inr rows.

Definition snapshot_world : world :=
  {| table := snapshot; statements := []; stdout := []; connections := 0 |}.

Definition get_args (view : string) (list_flag : bool) (name : name_arg)
    : Namespace :=
  {| subparser := Some "get"; list_flag := list_flag;
     get_subparser := Some view; name := name;
     ipaddr := None; groups := None; features := None; label := None;
     disabled := false |}.

Definition add_args (name : string) : Namespace :=
  {| subparser := Some "add"; list_flag := false;
     get_subparser := None; name := NameList [name];
     ipaddr := None; groups := None; features := None; label := None;
     disabled := false |}.

Definition run_snapshot (args : Namespace) : world * result unit :=
  main keys_json no_resolver accepting_store args snapshot_world.

Lemma C2_host_by_prefix_witness :
  ∃ hostvar_subset : hostvars_t,
    run_snapshot (get_args "host" false (NameList ["web"]))
    = (with_stdout snapshot_world
         [keys_json (DataHostvars hostvar_subset) +:+ newline], Ok ())
    ∧ (∀ f v, Dict.get f hostvar_subset = Some v
              ↔ Dict.get f snapshot_hostvars = Some v
                ∧ String.prefix "web" f = true)
    ∧ run_snapshot (get_args "host" false (NameList ["web"]))
      = (with_stdout snapshot_world
           ["{web1.example.com,web2.example.com}" +:+ newline], Ok ()).
Proof.
  destruct (C2_host_by_prefix keys_json no_resolver accepting_store
              (get_args "host" false (NameList ["web"])) snapshot_world
              snapshot_hosts snapshot_hostvars "web")
    as (subset & Hmain & _ & Hget & _).
  - reflexivity.
  - reflexivity.
  - reflexivity.
  - apply (bool_decide_unpack _). vm_compute. exact I.
  - vm_compute. reflexivity.
  - vm_compute. reflexivity.
  - exists subset. split_and!; [exact Hmain | exact Hget |].
    vm_compute. reflexivity.
Defined.

Lemma C4_group_by_name_witness :
  run_snapshot (get_args "group" false (NameStr "missing-group"))
  = (with_stdout snapshot_world ["No group matching missing-group" +:+ newline],
     Raise (SystemExit 1))
  ∧ exit_status (run_snapshot (get_args "group" false (NameStr "missing-group"))).2
    = 1%Z.
Proof.
  exact (C4_group_by_name keys_json no_resolver accepting_store
           (get_args "group" false (NameStr "missing-group")) snapshot_world
           snapshot_hosts snapshot_hostvars "missing-group"
           eq_refl eq_refl eq_refl eq_refl eq_refl eq_refl).
Defined.

Lemma C7_group_list_sorted_witness :
  run_snapshot (get_args "group" true NameNone)
  = (with_stdout snapshot_world
       [join newline (sorted (Dict.keys (build_groups snapshot_hosts))) +:+ newline],
     Ok ())
  ∧ sorted (Dict.keys (build_groups snapshot_hosts)) = ["db"; "prod"; "web"]
  ∧ Dict.keys (build_groups snapshot_hosts) = ["web"; "prod"; "db"].
Proof.
  destruct (C7_group_list_sorted keys_json no_resolver accepting_store
              (get_args "group" true NameNone) snapshot_world
              snapshot_hosts snapshot_hostvars)
    as (Hmain & _).
  - reflexivity.
  - reflexivity.
  - reflexivity.
  - vm_compute. reflexivity.
  - vm_compute. reflexivity.
  - split_and!; [exact Hmain | vm_compute; reflexivity | vm_compute; reflexivity].
Defined.

Lemma C8_unresolvable_host_not_inserted_witness :
  statements (run_snapshot (add_args "nowhere.example.com")).1 = []
  ∧ table (run_snapshot (add_args "nowhere.example.com")).1 = snapshot
  ∧ run_snapshot (add_args "nowhere.example.com")
    = (with_stdout snapshot_world ["ERROR: Name or service not known" +:+ newline],
       Raise (SystemExit 1)).
Proof.
  destruct (C8_unresolvable_host_not_inserted keys_json no_resolver accepting_store
              (add_args "nowhere.example.com") snapshot_world
              "nowhere.example.com"
              (Gaierror (-2) "Name or service not known"))
    as (Hst & Htb & Hrun).
  - reflexivity.
  - reflexivity.
  - reflexivity.
  - reflexivity.
  - split_and!; [exact Hst | exact Htb |].
    exact (proj1 (Hrun _ _ eq_refl)).
Defined.

(** ** Numerals *)

Section numerals.
Local Open Scope N_scope.

Lemma string_app_nil_l (b : string) : "" +:+ b = b.
Proof. reflexivity. Qed.

Lemma string_app_cons x (a b : string) : String x a +:+ b = String x (a +:+ b).
Proof. reflexivity. Qed.

Lemma string_app_length (a b : string) :
  String.length (a +:+ b) = (String.length a + String.length b)%nat.
Proof.
  induction a as [|c a IH]; [done|].
  rewrite string_app_cons. simpl. by rewrite IH.
Qed.

Lemma string_app_assoc (a b c : string) : (a +:+ b) +:+ c = a +:+ (b +:+ c).
Proof.
  induction a as [|x a IH]; [done|]. rewrite !string_app_cons. by f_equal.
Qed.

Lemma string_app_nil_r (a : string) : a +:+ "" = a.
Proof.
  induction a as [|x a IH]; [done|]. rewrite string_app_cons. by f_equal.
Qed.

Lemma zeros_length k : String.length (Fmt.zeros k) = k.
Proof. induction k; simpl; [done | by f_equal]. Qed.

Lemma fixed_length b w n : String.length (Fmt.fixed b w n) = w.
Proof.
  revert n. induction w as [|w IH]; intros n; simpl; [done|].
  rewrite string_app_length, IH. simpl. lia.
Qed.

Lemma zeros_snoc k : Fmt.zeros k +:+ "0" = Fmt.zeros (S k).
Proof.
  induction k as [|k IH]; [done|].
  cbn [Fmt.zeros] in *. rewrite string_app_cons. by f_equal.
Qed.

Lemma fixed_zero b w : b ≠ 0 → Fmt.fixed b w 0 = Fmt.zeros w.
Proof.
  intros Hb. induction w as [|w IH]; [done|].
  cbn [Fmt.fixed]. rewrite N.Div0.div_0_l, N.Div0.mod_0_l, IH.
  apply zeros_snoc.
Qed.

Lemma render_nonempty b fuel n : (0 < fuel)%nat → Fmt.render b fuel n ≠ "".
Proof.
  destruct fuel as [|f]; [lia|]. intros _. cbn [Fmt.render].
  destruct (n <? b); [done|].
  destruct (Fmt.render b f (n / b)); [|rewrite string_app_cons]; done.
Qed.

(** Padding the shortest numeral gives the numeral of fixed width. *)
Lemma render_zfill b fuel n W :
  1 < b → n < b ^ N.of_nat fuel → n < b ^ N.of_nat (S W) →
  Fmt.zfill (S W) (Fmt.render b fuel n) = Fmt.fixed b (S W) n.
Proof.
  intros Hb. revert n W. induction fuel as [|f IH]; intros n W Hf HW.
  - assert (n = 0) as -> by (simpl in Hf; lia).
    rewrite fixed_zero by lia. unfold Fmt.zfill. cbn [Fmt.render String.length].
    by rewrite Nat.sub_0_r, string_app_nil_r.
  - cbn [Fmt.render Fmt.fixed]. destruct (N.ltb_spec n b) as [Hlt|Hge].
    + rewrite N.div_small, N.mod_small by done. rewrite fixed_zero by lia.
      unfold Fmt.zfill. cbn [String.length].
      by replace (S W - 1)%nat with W by lia.
    + assert (n / b < b ^ N.of_nat f) as Hq.
      { apply N.Div0.div_lt_upper_bound.
        by rewrite <- N.pow_succ_r', <- Nat2N.inj_succ. }
      destruct W as [|W].
      { simpl in HW. lia. }
      assert (n / b < b ^ N.of_nat (S W)) as Hq'.
      { apply N.Div0.div_lt_upper_bound.
        by rewrite <- N.pow_succ_r', <- Nat2N.inj_succ. }
      rewrite <- (IH _ _ Hq Hq'). unfold Fmt.zfill.
      rewrite string_app_length, string_app_assoc. cbn [String.length].
      do 2 f_equal. lia.
Qed.

Lemma render_length_gt b fuel n w :
  1 < b → n < b ^ N.of_nat fuel → b ^ N.of_nat w ≤ n →
  (w < String.length (Fmt.render b fuel n))%nat.
Proof.
  intros Hb. revert fuel n. induction w as [|w IH]; intros fuel n Hf Hw.
  - destruct fuel as [|f]; [simpl in *; lia|].
    pose proof (render_nonempty b (S f) n ltac:(lia)).
    destruct (Fmt.render b (S f) n); [done | simpl; lia].
  - destruct fuel as [|f].
    { simpl in Hf. assert (0 < b ^ N.of_nat (S w)) by (apply N.neq_0_lt_0, N.pow_nonzero; lia). lia. }
    rewrite Nat2N.inj_succ, N.pow_succ_r' in Hw, Hf.
    assert (b ≤ n).
    { assert (0 < b ^ N.of_nat w) by (apply N.neq_0_lt_0, N.pow_nonzero; lia). nia. }
    cbn [Fmt.render]. destruct (N.ltb_spec n b) as [Hlt|Hge]; [lia|].
    rewrite string_app_length. simpl.
    assert (w < String.length (Fmt.render b f (n / b)))%nat; [|lia].
    apply IH.
    + by apply N.Div0.div_lt_upper_bound.
    + apply N.div_le_lower_bound; [lia|done].
Qed.

Lemma size_nat_gt n : n < 2 ^ N.of_nat (N.size_nat n).
Proof.
  destruct n as [|p]; [done|]. simpl.
  induction p as [p IH|p IH|]; cbn [Pos.size_nat];
    rewrite ?Nat2N.inj_succ, ?N.pow_succ_r'; simpl; lia.
Qed.

Lemma to_base_fuel b n : 1 < b → n < b ^ N.of_nat (S (N.size_nat n)).
Proof.
  intros Hb. pose proof (size_nat_gt n) as H.
  eapply N.lt_le_trans; [exact H|].
  rewrite Nat2N.inj_succ, N.pow_succ_r'.
  assert (2 ^ N.of_nat (N.size_nat n) ≤ b ^ N.of_nat (N.size_nat n))
    by (apply N.pow_le_mono_l; lia).
  nia.
Qed.

(** [str(n).zfill(w)] and ['%0wx' % n] are the [w] digits of [n] when
    [n] has at most [w] digits. *)
Lemma zfill_to_base b n W :
  1 < b → n < b ^ N.of_nat (S W) →
  Fmt.zfill (S W) (Fmt.to_base b n) = Fmt.fixed b (S W) n.
Proof. intros Hb HW. apply render_zfill; [done | by apply to_base_fuel | done]. Qed.

Lemma to_base_fixed b n W :
  1 < b → b ^ N.of_nat W ≤ n → n < b ^ N.of_nat (S W) →
  Fmt.to_base b n = Fmt.fixed b (S W) n.
Proof.
  intros Hb Hlo Hhi. rewrite <- zfill_to_base by done.
  unfold Fmt.zfill.
  pose proof (render_length_gt b (S (N.size_nat n)) n W Hb
                (to_base_fuel b n Hb) Hlo) as Hlen.
  fold (Fmt.to_base b n) in Hlen.
  replace (S W - String.length (Fmt.to_base b n))%nat with 0%nat by lia.
  done.
Qed.
End numerals.

(** ** The time stamp of a host *)

Section time_stamps.
Local Open Scope N_scope.

Lemma fixed_two n : n < 100 → Fmt.fixed 10 2 n = two_digits n.
Proof.
  intros Hn. unfold two_digits. cbn [Fmt.fixed].
  rewrite string_app_nil_l, string_app_cons, string_app_nil_l.
  rewrite (N.mod_small (n / 10) 10); [done|].
  by apply N.Div0.div_lt_upper_bound.
Qed.

Lemma fixed_four n : n < 10000 → Fmt.fixed 10 4 n = four_digits n.
Proof.
  intros Hn. unfold four_digits. cbn [Fmt.fixed].
  repeat (rewrite ?string_app_nil_l, ?string_app_cons).
  rewrite !N.Div0.div_div. change (10 * (10 * 10)) with 1000. change (10 * 10) with 100.
  rewrite (N.mod_small (n / 1000) 10); [done|].
  by apply N.Div0.div_lt_upper_bound.
Qed.

Lemma strftime_upd_format d :
  strftime d upd_format
  = Ok (Fmt.str (year d) +:+ "-" +:+ Fmt.zfill 2 (Fmt.str (day d)) +:+ "-"
          +:+ Fmt.zfill 2 (Fmt.str (month d)) +:+ " "
          +:+ Fmt.zfill 2 (Fmt.str (hour d)) +:+ ":"
          +:+ Fmt.zfill 2 (Fmt.str (minute d)) +:+ ":"
          +:+ Fmt.zfill 2 (Fmt.str (second d))).
Proof.
  unfold upd_format. cbn [strftime]. unfold strftime_directive. simpl.
  rewrite string_app_nil_r. reflexivity.
Qed.
End time_stamps.

Lemma host_vars_eq host :
  host_vars host =
    ipaddr ← ipaddress.exploded (Host.ipaddr host);
    Ok [("id", VInt (Host.id host));
        ("upd", VStr (Fmt.str (year (Host.upd host)) +:+ "-"
                        +:+ Fmt.zfill 2 (Fmt.str (day (Host.upd host))) +:+ "-"
                        +:+ Fmt.zfill 2 (Fmt.str (month (Host.upd host))) +:+ " "
                        +:+ Fmt.zfill 2 (Fmt.str (hour (Host.upd host))) +:+ ":"
                        +:+ Fmt.zfill 2 (Fmt.str (minute (Host.upd host))) +:+ ":"
                        +:+ Fmt.zfill 2 (Fmt.str (second (Host.upd host)))));
        ("enabled", VBool (Host.enabled host));
        ("ipaddr", VStr ipaddr);
        ("groups", VList (Host.groups host));
        ("features", VList (Host.features host));
        ("label", VStr (Host.label host))].
Proof.
  unfold host_vars. simpl. rewrite string_app_nil_r. reflexivity.
Qed.

Lemma stored_datetime_text d :
  stored_datetime d →
  Fmt.str (year d) +:+ "-" +:+ Fmt.zfill 2 (Fmt.str (day d)) +:+ "-"
    +:+ Fmt.zfill 2 (Fmt.str (month d)) +:+ " "
    +:+ Fmt.zfill 2 (Fmt.str (hour d)) +:+ ":"
    +:+ Fmt.zfill 2 (Fmt.str (minute d)) +:+ ":"
    +:+ Fmt.zfill 2 (Fmt.str (second d))
  = year_day_month_text d.
Proof.
  intros (Hy & Hm & Hd & Hh & Hmi & Hs). unfold year_day_month_text, Fmt.str.
  rewrite (to_base_fixed 10 (year d) 3) by (simpl; lia).
  rewrite !zfill_to_base by (simpl; lia).
  rewrite fixed_four by lia. by rewrite !fixed_two by lia.
Qed.

(** C5. In every entry of the hostvars mapping the attribute [upd] is
    the text [YYYY-DD-MM HH:MM:SS] of the host's time stamp: four digits
    of the year, then two of the day, then two of the month.  The time
    stamps are those the store holds (a calendar date and time, the year
    from 1000 to 9999). *)
Theorem C5_upd_day_before_month hosts hostvars f v :
  build_hostvars hosts = Ok hostvars →
  Forall (λ host, stored_datetime (Host.upd host)) hosts →
  Dict.get f hostvars = Some v →
  ∃ host, host ∈ hosts ∧ Host.fqdn host = f
          ∧ strftime (Host.upd host) upd_format
            = Ok (year_day_month_text (Host.upd host))
          ∧ Dict.get "upd" v = Some (VStr (year_day_month_text (Host.upd host)))
          ∧ String.length (year_day_month_text (Host.upd host)) = 19.
Proof.
  intros Hb Hall Hget.
  destruct (build_hostvars_get _ _ _ _ Hb Hget) as (host & Hin & Hf & Hv).
  exists host. rewrite Forall_forall in Hall. specialize (Hall _ Hin).
  split_and!; [done | done | | | done].
  - by rewrite strftime_upd_format, stored_datetime_text.
  - rewrite host_vars_eq in Hv.
    destruct (ipaddress.exploded (Host.ipaddr host)) as [e|]; simpl in Hv; [|done].
    injection Hv as <-. simpl. by rewrite stored_datetime_text.
Qed.

Lemma C5_upd_day_before_month_witness :
  ∃ host, host ∈ snapshot_hosts ∧ Host.fqdn host = "db1.example.com"
          ∧ Dict.get "upd" (default [] (Dict.get "db1.example.com" snapshot_hostvars))
            = Some (VStr "2020-17-03 04:05:06").
Proof.
  destruct (C5_upd_day_before_month snapshot_hosts snapshot_hostvars
              "db1.example.com"
              (default [] (Dict.get "db1.example.com" snapshot_hostvars)))
    as (host & Hin & Hf & Hfmt & Hupd & _).
  - vm_compute. reflexivity.
  - apply (bool_decide_unpack _). vm_compute. exact I.
  - vm_compute. reflexivity.
  - exists host. split_and!; [exact Hin | exact Hf |].
    vm_compute. reflexivity.
Defined.

(** ** The merge on objects *)

Section heap_facts.
Implicit Types (h : Heap.heap) (r : Heap.ref).

Lemma read_items_Some {V} (rd : Heap.ref → option V) items d :
  Heap.read_items rd items = Some d
  ↔ Forall2 (λ kr kv, kr.1 = kv.1 ∧ rd kr.2 = Some kv.2) items d.
Proof.
  unfold Heap.read_items. etrans; [apply mapM_Some|].
  split; intros H; eapply Forall2_impl; try exact H;
    intros [k r] [k' v]; simpl; destruct (rd r) as [x|]; simpl; naive_solver.
Qed.

Lemma read_items_weaken {V} (rd rd' : Heap.ref → option V) items d :
  (∀ r v, rd r = Some v → rd' r = Some v) →
  Heap.read_items rd items = Some d → Heap.read_items rd' items = Some d.
Proof.
  intros Hw. rewrite !read_items_Some. intros H.
  eapply Forall2_impl; [exact H|]. naive_solver.
Qed.

Lemma read_list_weaken h h' r l :
  h ⊆ h' → Heap.read_list h r = Some l → Heap.read_list h' r = Some l.
Proof.
  intros Hsub. unfold Heap.read_list.
  destruct (h !! r) as [o|] eqn:E; [|done].
  by rewrite (lookup_weaken _ _ _ _ E Hsub).
Qed.

Lemma read_value_weaken h h' r v :
  h ⊆ h' → Heap.read_value h r = Some v → Heap.read_value h' r = Some v.
Proof.
  intros Hsub. unfold Heap.read_value.
  destruct (h !! r) as [o|] eqn:E; [|done].
  by rewrite (lookup_weaken _ _ _ _ E Hsub).
Qed.

Lemma read_group_weaken h h' r g :
  h ⊆ h' → Heap.read_group h r = Some g → Heap.read_group h' r = Some g.
Proof.
  intros Hsub. unfold Heap.read_group.
  destruct (h !! r) as [o|] eqn:E; [|done].
  rewrite (lookup_weaken _ _ _ _ E Hsub).
  destruct o as [[|[k r'] [|]]| |]; try done.
  destruct (String.eqb k "hosts"); [|done].
  destruct (Heap.read_list h r') as [l|] eqn:El; [|done].
  by rewrite (read_list_weaken _ _ _ _ Hsub El).
Qed.

Lemma read_groups_weaken h h' r g :
  h ⊆ h' → Heap.read_groups h r = Some g → Heap.read_groups h' r = Some g.
Proof.
  intros Hsub. unfold Heap.read_groups.
  destruct (h !! r) as [o|] eqn:E; [|done].
  rewrite (lookup_weaken _ _ _ _ E Hsub). destruct o; try done.
  apply read_items_weaken. intros ??. by apply read_group_weaken.
Qed.

Lemma read_host_dict_weaken h h' r d :
  h ⊆ h' → Heap.read_host_dict h r = Some d → Heap.read_host_dict h' r = Some d.
Proof.
  intros Hsub. unfold Heap.read_host_dict.
  destruct (h !! r) as [o|] eqn:E; [|done].
  rewrite (lookup_weaken _ _ _ _ E Hsub). destruct o; try done.
  apply read_items_weaken. intros ??. by apply read_value_weaken.
Qed.

Lemma read_hostvars_weaken h h' r hv :
  h ⊆ h' → Heap.read_hostvars h r = Some hv → Heap.read_hostvars h' r = Some hv.
Proof.
  intros Hsub. unfold Heap.read_hostvars.
  destruct (h !! r) as [o|] eqn:E; [|done].
  rewrite (lookup_weaken _ _ _ _ E Hsub). destruct o; try done.
  apply read_items_weaken. intros ??. by apply read_host_dict_weaken.
Qed.

Lemma read_group_entry h r g :
  Heap.read_group h r = Some g → Heap.read_entry h r = Some (Group g).
Proof.
  unfold Heap.read_group, Heap.read_entry.
  destruct (h !! r) as [[[|[k r'] [|]]| |]|]; try done.
  destruct (String.eqb k "hosts"); [|done].
  destruct (Heap.read_list h r') as [l|]; [|done]. by intros [= <-].
Qed.

(** Reading a dictionary after an item assignment. *)
Lemma read_items_set {A B} (rd : Heap.ref → option A) (rd' : Heap.ref → option B)
    (f : A → B) items d k m v :
  Heap.read_items rd items = Some d →
  (∀ r x, rd r = Some x → rd' r = Some (f x)) →
  rd' m = Some v →
  Heap.read_items rd' (Dict.set k m items)
  = Some (Dict.set k v (prod_map id f <$> d)).
Proof.
  intros Hd Hf Hm. apply read_items_Some. apply read_items_Some in Hd.
  induction Hd as [|[k1 r1] [k2 x2] items d [Hk Hx] Htl IH]; csimpl.
  - by constructor.
  - simpl in Hk, Hx. subst k2. destruct (String.eqb k k1).
    + constructor; [done|]. clear IH.
      apply Forall2_fmap_r. eapply Forall2_impl; [exact Htl|].
      intros [??] [??] [??]. simpl in *. split; [done | by apply Hf].
    + constructor; [|done]. simpl. split; [done | by apply Hf].
Qed.
End heap_facts.

Lemma heap_build_ansible_inventory_eq (h : Heap.heap) groups hostvars items :
  h !! groups = Some (Heap.ODict items) →
  let inventory := fresh (dom h) in
  let h1 := <[inventory := Heap.ODict items]> h in
  let meta := fresh (dom h1) in
  let h2 := <[meta := Heap.ODict [("hostvars", hostvars)]]> h1 in
  let h3 := <[inventory := Heap.ODict (Dict.set "_meta" meta items)]> h2 in
  Heap.build_ansible_inventory groups hostvars h = Ok (inventory, h3)
  ∧ inventory ∉ dom h ∧ meta ∉ dom h ∧ meta ≠ inventory ∧ h ⊆ h3.
Proof.
  intros Hg inventory h1 meta h2 h3.
  assert (inventory ∉ dom h) as Hinv by apply is_fresh.
  assert (meta ∉ dom h1) as Hmeta by apply is_fresh.
  assert (meta ≠ inventory ∧ meta ∉ dom h) as [Hne Hmeta'].
  { unfold h1 in Hmeta. rewrite dom_insert_L in Hmeta. set_solver. }
  split_and!; try done.
  - unfold Heap.build_ansible_inventory, Heap.dict_copy, Heap.alloc.
    rewrite Hg. simpl. unfold Heap.dict_setitem.
    fold inventory. fold h1. fold meta. fold h2.
    assert (h2 !! inventory = Some (Heap.ODict items)) as ->; [|done].
    unfold h2, h1. rewrite lookup_insert_ne by done. apply lookup_insert_eq.
  - apply map_subseteq_spec. intros r o Hr.
    assert (r ∈ dom h) as Hdom by (apply elem_of_dom; eauto).
    unfold h3, h2, h1.
    rewrite !lookup_insert_ne by (intros ->; done). done.
Qed.

(** C9. The merge copies the group mapping into a new dictionary and
    assigns [{'hostvars': hostvars}] to its key [_meta], whatever the
    groups are: the document maps [_meta] to the metadata and every
    other key to its group, so a group that is itself named [_meta]
    loses its member list to the metadata.  On objects: the document is
    a new object, every object that existed before the call is
    unchanged, and the dictionary of the groups reads as before. *)
Theorem C9_meta_wins_and_input_kept (h : Heap.heap) groups hostvars g hv :
  Heap.read_groups h groups = Some g →
  Heap.read_hostvars h hostvars = Some hv →
  ∃ inventory h',
    Heap.build_ansible_inventory groups hostvars h = Ok (inventory, h')
    ∧ Heap.read_inventory h' inventory = Some (build_ansible_inventory g hv)
    ∧ inventory ∉ dom h
    ∧ (∀ r, r ∈ dom h → h' !! r = h !! r)
    ∧ Heap.read_groups h' groups = Some g
    ∧ Dict.get "_meta" (build_ansible_inventory g hv) = Some (Meta hv)
    ∧ (∀ k, k ≠ "_meta" →
         Dict.get k (build_ansible_inventory g hv) = Group <$> Dict.get k g)
    ∧ Dict.keys (build_ansible_inventory g hv)
      = (if decide ("_meta" ∈ Dict.keys g)
         then Dict.keys g else Dict.keys g ++ ["_meta"]).
Proof.
  intros Hg Hhv. unfold Heap.read_groups in Hg.
  destruct (h !! groups) as [[items| |]|] eqn:Eg; try done.
  destruct (heap_build_ansible_inventory_eq h groups hostvars items Eg)
    as (Hrun & Hinv & Hmeta & Hne & Hsub).
  eexists _, _. split; [exact Hrun|]. split_and!; try done.
  - unfold Heap.read_inventory. rewrite lookup_insert_eq.
    unfold build_ansible_inventory, Dict.copy.
    eapply (read_items_set (Heap.read_group h)); [done | |].
    + intros r x Hx. apply read_group_entry. by eapply read_group_weaken.
    + unfold Heap.read_entry. rewrite lookup_insert_ne by done.
      rewrite lookup_insert_eq. simpl.
      by rewrite (read_hostvars_weaken _ _ _ _ Hsub Hhv).
  - intros r [o Hr]%elem_of_dom. rewrite Hr. by eapply lookup_weaken.
  - eapply read_groups_weaken; [done|]. unfold Heap.read_groups. by rewrite Eg.
  - apply build_ansible_inventory_meta.
  - intros k Hk. by apply build_ansible_inventory_group.
  - unfold build_ansible_inventory, Dict.copy. by rewrite keys_set, keys_fmap.
Qed.

(** A store where a group is named [_meta]: the groups at reference 5,
    the hostvars at reference 8. *)
Definition colliding_heap : Heap.heap :=
  list_to_map
    [(1%positive, Heap.OList ["a.example.com"]);
     (2%positive, Heap.ODict [("hosts", 1%positive)]);
     (3%positive, Heap.OList ["b.example.com"; "a.example.com"]);
     (4%positive, Heap.ODict [("hosts", 3%positive)]);
     (5%positive, Heap.ODict [("_meta", 2%positive); ("web", 4%positive)]);
     (6%positive, Heap.OValue (VStr "spare"));
     (7%positive, Heap.ODict [("label", 6%positive)]);
     (8%positive, Heap.ODict [("a.example.com", 7%positive)])].

Definition colliding_groups : groups_t :=
  [("_meta", {| group_dict.hosts := ["a.example.com"] |});
   ("web", {| group_dict.hosts := ["b.example.com"; "a.example.com"] |})].

Definition colliding_hostvars : hostvars_t :=
  [("a.example.com", [("label", VStr "spare")])].

Lemma C9_meta_wins_and_input_kept_witness :
  ∃ inventory h',
    Heap.build_ansible_inventory 5%positive 8%positive colliding_heap
    = Ok (inventory, h')
    ∧ Heap.read_inventory h' inventory
      = Some [("_meta", Meta colliding_hostvars);
              ("web", Group {| group_dict.hosts :=
                                 ["b.example.com"; "a.example.com"] |})]
    ∧ Heap.read_groups h' 5%positive = Some colliding_groups.
Proof.
  destruct (C9_meta_wins_and_input_kept colliding_heap 5%positive 8%positive
              colliding_groups colliding_hostvars)
    as (inventory & h' & Hrun & Hread & _ & _ & Hgroups & _).
  - vm_compute. reflexivity.
  - vm_compute. reflexivity.
  - exists inventory, h'. split_and!; [exact Hrun | exact Hread | exact Hgroups].
Defined.

(** ** Rendering of addresses *)

Definition row_address (r : DbRow.t) : result value :=
  host ← Host_of_row r;
  host_dict ← host_vars host;
  getitem "ipaddr" host_dict.

Example stored_loopback_renders_expanded :
  row_address (row 1 "localhost6" "::1" None)
  = Ok (VStr "0000:0000:0000:0000:0000:0000:0000:0001").
Proof. vm_compute. reflexivity. Qed.

Example stored_dotted_quad_renders_unchanged :
  row_address (row 1 "gateway" "10.0.0.1" None) = Ok (VStr "10.0.0.1").
Proof. vm_compute. reflexivity. Qed.

Definition scoped_row : DbRow.t :=
  row 6 "router.example.com" "fe80::1%eth0" (Some "net").

Definition scoped_world : world :=
  {| table := snapshot ++ [scoped_row]; statements := []; stdout := [];
     connections := 0 |}.

(** C3, at a stored address with a zone: ["fe80::1%eth0"] parses as an
    IPv6 address (with [_scope_id = 'eth0']), so the row is normalized,
    but [.exploded] parses [str(address)] again, zone included, and
    raises [AddressValueError]: the address is not rendered,
    [build_hostvars] raises, and the whole inventory run ends with an
    uncaught exception and no output. *)
Theorem C3_scoped_address_not_rendered :
  ipaddress.ip_address "fe80::1%eth0"
  = Ok (ipaddress.IPv6 338288524927261089654018896841347694593 (Some "eth0"))
  ∧ (∃ host, Host_of_row scoped_row = Ok host
             ∧ ipaddress.str (Host.ipaddr host) = Ok "fe80::1%eth0"
             ∧ ipaddress.exploded (Host.ipaddr host)
               = Raise (AddressValueError "Only hex digits permitted")
             ∧ host_vars host = Raise (AddressValueError "Only hex digits permitted"))
  ∧ row_address scoped_row = Raise (AddressValueError "Only hex digits permitted")
  ∧ (∃ hosts, process_hosts (table scoped_world) = Ok hosts
              ∧ build_hostvars hosts
                = Raise (AddressValueError "Only hex digits permitted"))
  ∧ main keys_json no_resolver accepting_store
      {| subparser := None; list_flag := true; get_subparser := None;
         name := NameNone; ipaddr := None; groups := None; features := None;
         label := None; disabled := false |} scoped_world
    = (scoped_world, Raise (AddressValueError "Only hex digits permitted")).
Proof.
  split_and!.
  - vm_compute. reflexivity.
  - exists {| Host.id := 6; Host.fqdn := "router.example.com"; Host.upd := stamp;
              Host.enabled := true;
              Host.ipaddr :=
                ipaddress.IPv6 338288524927261089654018896841347694593
                  (Some "eth0");
              Host.groups := ["net"]; Host.features := []; Host.label := "" |}.
    split_and!; vm_compute; reflexivity.
  - vm_compute. reflexivity.
  - exists (snapshot_hosts ++
              [{| Host.id := 6; Host.fqdn := "router.example.com";
                  Host.upd := stamp; Host.enabled := true;
                  Host.ipaddr :=
                    ipaddress.IPv6 338288524927261089654018896841347694593
                      (Some "eth0");
                  Host.groups := ["net"]; Host.features := [];
                  Host.label := "" |}]).
    split; vm_compute; reflexivity.
  - vm_compute. reflexivity.
Qed.

(** ** Digits read back *)

Section digits.
Local Open Scope N_scope.

Lemma N_lt_16_cases (P : N → Prop) :
  P 0 → P 1 → P 2 → P 3 → P 4 → P 5 → P 6 → P 7 → P 8 → P 9 → P 10 → P 11 →
  P 12 → P 13 → P 14 → P 15 → ∀ d, d < 16 → P d.
Proof.
  intros H0 H1 H2 H3 H4 H5 H6 H7 H8 H9 H10 H11 H12 H13 H14 H15 d Hd.
  assert (d = 0 ∨ d = 1 ∨ d = 2 ∨ d = 3 ∨ d = 4 ∨ d = 5 ∨ d = 6 ∨ d = 7
          ∨ d = 8 ∨ d = 9 ∨ d = 10 ∨ d = 11 ∨ d = 12 ∨ d = 13 ∨ d = 14 ∨ d = 15)
    as Hcases by lia.
  destruct_or!; by subst.
Qed.

Lemma digit_value_digit_char d :
  d < 16 → Fmt.digit_value (Fmt.digit_char d) = Some d.
Proof.
  revert d. refine (N_lt_16_cases _ _ _ _ _ _ _ _ _ _ _ _ _ _ _ _ _); done.
Qed.

Lemma digit_char_not_colon d : d < 16 → Ascii.eqb (Fmt.digit_char d) ":" = false.
Proof.
  revert d. refine (N_lt_16_cases _ _ _ _ _ _ _ _ _ _ _ _ _ _ _ _ _); done.
Qed.

Lemma digit_char_not_dot d : d < 16 → Ascii.eqb (Fmt.digit_char d) "." = false.
Proof.
  revert d. refine (N_lt_16_cases _ _ _ _ _ _ _ _ _ _ _ _ _ _ _ _ _); done.
Qed.

Lemma digit_char_zero d : d < 16 → Fmt.digit_char d = "0"%char → d = 0.
Proof.
  revert d. refine (N_lt_16_cases _ _ _ _ _ _ _ _ _ _ _ _ _ _ _ _ _); done.
Qed.
Lemma string_forallb_app p (a b : string) :
  string_forallb p (a +:+ b) = string_forallb p a && string_forallb p b.
Proof.
  induction a as [|c a IH]; [done|].
  rewrite string_app_cons. simpl. by rewrite IH, andb_assoc.
Qed.

Lemma contains_forallb c s :
  contains c s = negb (string_forallb (λ x, negb (Ascii.eqb x c)) s).
Proof.
  induction s as [|x s IH]; [done|]. simpl. rewrite IH.
  by destruct (Ascii.eqb x c).
Qed.

(** Every character of a numeral is a digit of the base. *)
Lemma render_forallb (p : ascii → bool) b fuel n :
  0 < b → (∀ d, d < b → p (Fmt.digit_char d) = true) →
  string_forallb p (Fmt.render b fuel n) = true.
Proof.
  intros Hb Hp. revert n. induction fuel as [|f IH]; intros n; [done|].
  cbn [Fmt.render]. destruct (N.ltb_spec n b) as [Hlt|Hge].
  - simpl. by rewrite Hp.
  - rewrite string_forallb_app, IH. simpl.
    rewrite Hp; [done|]. apply N.mod_lt. lia.
Qed.

Lemma fixed_forallb (p : ascii → bool) b w n :
  0 < b → (∀ d, d < b → p (Fmt.digit_char d) = true) →
  string_forallb p (Fmt.fixed b w n) = true.
Proof.
  intros Hb Hp. revert n. induction w as [|w IH]; intros n; [done|].
  cbn [Fmt.fixed]. rewrite string_forallb_app, IH. simpl.
  rewrite Hp; [done|]. apply N.mod_lt. lia.
Qed.

Lemma int_digits_app b (s1 s2 : string) acc :
  Fmt.int_digits b (s1 +:+ s2) acc
  = Fmt.int_digits b s1 acc ≫= Fmt.int_digits b s2.
Proof.
  revert acc. induction s1 as [|c s1 IH]; intros acc; [done|].
  rewrite string_app_cons. simpl.
  destruct (Fmt.digit_value c) as [d|]; [|done].
  destruct (d <? b); [apply IH | done].
Qed.

Lemma int_digits_fixed b w n acc :
  1 < b → b ≤ 16 →
  Fmt.int_digits b (Fmt.fixed b w n) acc
  = Some (acc * b ^ N.of_nat w + n mod b ^ N.of_nat w).
Proof.
  intros Hb Hb'. revert n acc. induction w as [|w IH]; intros n acc.
  - simpl. f_equal. rewrite N.mod_1_r. lia.
  - cbn [Fmt.fixed]. rewrite int_digits_app, IH. simpl.
    assert (n mod b < b) as Hd by (apply N.mod_lt; lia).
    rewrite digit_value_digit_char by lia.
    apply N.ltb_lt in Hd as ->. f_equal.
    rewrite Nat2N.inj_succ, N.pow_succ_r'.
    rewrite (N.Div0.mod_mul_r n b (b ^ N.of_nat w)). lia.
Qed.

Lemma int_digits_zeros b k s :
  0 < b → Fmt.int_digits b (Fmt.zeros k +:+ s) 0 = Fmt.int_digits b s 0.
Proof.
  intros Hb. induction k as [|k IH]; [done|].
  cbn [Fmt.zeros]. rewrite string_app_cons. cbn [Fmt.int_digits].
  change (Fmt.digit_value "0") with (Some 0). cbv iota beta.
  apply N.ltb_lt in Hb as ->. by rewrite N.mul_0_r.
Qed.

(** [int(str(n), base)] gives [n] back. *)
Lemma int_to_base b n :
  1 < b → b ≤ 16 → Fmt.int (Fmt.to_base b n) b = Ok n.
Proof.
  intros Hb Hb'. unfold Fmt.int.
  pose proof (render_nonempty b (S (N.size_nat n)) n ltac:(lia)) as Hne.
  fold (Fmt.to_base b n) in Hne.
  destruct (Fmt.to_base b n) as [|c s] eqn:E; [done|]. simpl is_empty. cbv iota.
  rewrite <- E. clear E c s Hne.
  pose proof (to_base_fuel b n Hb) as Hfuel.
  rewrite <- (int_digits_zeros b (S (N.size_nat n) - String.length (Fmt.to_base b n)))
    by lia.
  fold (Fmt.zfill (S (N.size_nat n)) (Fmt.to_base b n)).
  rewrite zfill_to_base, int_digits_fixed by done.
  rewrite N.mod_small by done. by rewrite N.mul_0_l.
Qed.

Lemma int_fixed b w n :
  1 < b → b ≤ 16 →
  Fmt.int (Fmt.fixed b (S w) n) b = Ok (n mod b ^ N.of_nat (S w)).
Proof.
  intros Hb Hb'. unfold Fmt.int.
  pose proof (fixed_length b (S w) n) as Hlen.
  destruct (Fmt.fixed b (S w) n) as [|c s] eqn:E; [done|]. simpl is_empty. cbv iota.
  rewrite <- E, int_digits_fixed by done. by rewrite N.mul_0_l.
Qed.

Lemma to_base_length_le b n W :
  1 < b → n < b ^ N.of_nat (S W) →
  (String.length (Fmt.to_base b n) ≤ S W)%nat.
Proof.
  intros Hb HW. pose proof (zfill_to_base b n W Hb HW) as Hz.
  apply (f_equal String.length) in Hz.
  unfold Fmt.zfill in Hz. rewrite string_app_length, zeros_length, fixed_length in Hz.
  lia.
Qed.
End digits.

(** ** Hextets *)

Section hextets.
Local Open Scope N_scope.

(** A text that the parser of version 6 reads as the hextet [h]: not
    empty, free of [':'] and ['.'], and parsed to [h]. *)
Definition hextet_of (x : string) (h : N) : Prop :=
  x ≠ "" ∧ contains ":" x = false ∧ contains "." x = false
  ∧ ipaddress.v6_parse_hextet x = Ok h.

Lemma hex_hextet h : h < 65536 → hextet_of (Fmt.hex h) h.
Proof.
  intros Hh. unfold hextet_of, Fmt.hex. split_and!.
  - apply render_nonempty. lia.
  - rewrite contains_forallb. unfold Fmt.to_base.
    rewrite render_forallb; [done | lia |].
    intros d Hd. by rewrite digit_char_not_colon.
  - rewrite contains_forallb. unfold Fmt.to_base.
    rewrite render_forallb; [done | lia |].
    intros d Hd. by rewrite digit_char_not_dot.
  - unfold ipaddress.v6_parse_hextet.
    assert (string_forallb Fmt.is_hex_digit (Fmt.to_base 16 h) = true) as ->.
    { apply render_forallb; [lia|]. intros d Hd. unfold Fmt.is_hex_digit.
      by rewrite digit_value_digit_char. }
    pose proof (to_base_length_le 16 h 3 ltac:(lia) ltac:(simpl; lia)) as Hlen.
    simpl negb. cbv iota.
    destruct (Nat.ltb_spec 4 (String.length (Fmt.to_base 16 h))); [lia|].
    apply int_to_base; lia.
Qed.

Lemma zero_hextet : hextet_of "0" 0.
Proof. by split_and!. Qed.

Lemma lor_shiftl_add a h k : h < 2 ^ k → N.lor (N.shiftl a k) h = a * 2 ^ k + h.
Proof.
  intros Hh. rewrite <- N.lxor_lor, <- N.add_nocarry_lxor, N.shiftl_mul_pow2;
    [done | |].
  all: apply N.bits_inj; intros i; rewrite N.land_spec, N.bits_0;
    destruct (N.lt_ge_cases i k) as [Hlt|Hge];
    [ by rewrite N.shiftl_spec_low
    | rewrite <- (N.mod_small h (2 ^ k)) by done;
      by rewrite N.mod_pow2_bits_high, andb_false_r ].
Qed.

Lemma v6_parse_hextets_app l1 l2 acc :
  ipaddress.v6_parse_hextets (l1 ++ l2) acc
  = ipaddress.v6_parse_hextets l1 acc ≫= ipaddress.v6_parse_hextets l2.
Proof.
  revert acc. induction l1 as [|x l1 IH]; intros acc; [done|]. simpl.
  destruct (ipaddress.v6_parse_hextet x); [apply IH | done].
Qed.

(** The value that the two parsing loops build from hextets. *)
Definition hextets_value (hs : list N) (acc : N) : N :=
  foldl (λ a h, a * 65536 + h) acc hs.

Lemma v6_parse_hextets_value xs hs acc :
  Forall2 hextet_of xs hs → Forall (λ h, h < 65536) hs →
  ipaddress.v6_parse_hextets xs acc = Ok (hextets_value hs acc).
Proof.
  intros Hxs. revert acc.
  induction Hxs as [|x h xs hs (_ & _ & _ & Hx) _ IH]; intros acc Hhs; [done|].
  apply Forall_cons in Hhs as [Hh Hhs]. simpl. rewrite Hx. simpl.
  rewrite (lor_shiftl_add acc h 16) by done. by apply IH.
Qed.

Lemma hextets_value_zeros L acc :
  hextets_value (replicate L 0) acc = N.shiftl acc (16 * N.of_nat L).
Proof.
  unfold hextets_value. revert acc. induction L as [|L IH]; intros acc.
  - simpl. by rewrite N.shiftl_0_r.
  - cbn [replicate foldl].
    rewrite IH, N.add_0_r, !N.shiftl_mul_pow2.
    replace (16 * N.of_nat (S L)) with (16 + 16 * N.of_nat L) by lia.
    rewrite N.pow_add_r. change (2 ^ 16) with 65536. lia.
Qed.

(** The quotients of [n] by the powers of [2 ^ 16], the largest power
    first: the numbers whose last four digits are the hextets. *)
Fixpoint quotients (k : nat) (n : N) : list N :=
  match k with
  | O => []
  | S k' => quotients k' (n / 65536) ++ [n]
  end.

Definition v6_hextets (ip : N) : list N :=
  (λ q, q mod 65536) <$> quotients 8 ip.

Lemma quotients_value k n acc :
  hextets_value ((λ q, q mod 65536) <$> quotients k n) acc
  = acc * 65536 ^ N.of_nat k + n mod 65536 ^ N.of_nat k.
Proof.
  revert n acc. induction k as [|k IH]; intros n acc.
  - simpl. rewrite N.mod_1_r. lia.
  - cbn [quotients]. rewrite fmap_app. unfold hextets_value in *.
    rewrite foldl_app, IH. simpl.
    rewrite Nat2N.inj_succ, N.pow_succ_r'.
    rewrite (N.Div0.mod_mul_r n 65536 (65536 ^ N.of_nat k)). lia.
Qed.

Lemma v6_hextets_value ip : ip < 2 ^ 128 → hextets_value (v6_hextets ip) 0 = ip.
Proof.
  intros Hip. unfold v6_hextets. rewrite quotients_value.
  change (65536 ^ N.of_nat 8) with (2 ^ 128). rewrite N.mod_small by done. lia.
Qed.

Lemma v6_hextets_bound ip : Forall (λ h, h < 65536) (v6_hextets ip).
Proof.
  unfold v6_hextets. apply Forall_fmap, Forall_forall. intros q _. simpl.
  apply N.mod_lt. lia.
Qed.

Lemma v6_hextets_length ip : length (v6_hextets ip) = 8%nat.
Proof. done. Qed.
End hextets.

(** ** The text of an address of version 6 *)

Section v6_text.
Local Open Scope N_scope.

Lemma fixed_app b w1 w2 n :
  b ≠ 0 →
  Fmt.fixed b (w1 + w2) n
  = Fmt.fixed b w1 (n / b ^ N.of_nat w2) +:+ Fmt.fixed b w2 n.
Proof.
  intros Hb. revert n. induction w2 as [|w2 IH]; intros n.
  - rewrite Nat.add_0_r. simpl. by rewrite N.div_1_r, string_app_nil_r.
  - rewrite Nat.add_succ_r. cbn [Fmt.fixed]. rewrite IH, string_app_assoc.
    by rewrite N.Div0.div_div, <- N.pow_succ_r', <- Nat2N.inj_succ.
Qed.

Lemma foldr_append_app (l : list string) (t : string) :
  foldr String.append "" l +:+ t = foldr String.append t l.
Proof.
  induction l as [|x l IH]; [done|].
  cbn [foldr]. by rewrite string_app_assoc, IH.
Qed.

Lemma fixed_quotients k n :
  Fmt.fixed 16 (k * 4) n
  = foldr String.append "" (Fmt.fixed 16 4 <$> quotients k n).
Proof.
  revert n. induction k as [|k IH]; intros n; [done|].
  replace (S k * 4)%nat with (k * 4 + 4)%nat by lia.
  rewrite fixed_app by done. cbn [quotients].
  rewrite fmap_app, foldr_app, IH. change (16 ^ N.of_nat 4) with 65536.
  rewrite foldr_append_app. cbn [fmap list_fmap foldr].
  by rewrite string_app_nil_r.
Qed.

Lemma string_length_4 (s : string) :
  String.length s = 4%nat →
  ∃ a b c d, s = String a (String b (String c (String d ""))).
Proof.
  destruct s as [|a [|b [|c [|d [|]]]]]; try done. eauto 6.
Qed.

(** The slices of a text of eight groups of four characters are the
    groups. *)
Lemma v6_slices_groups (gs : list string) :
  length gs = 8%nat → Forall (λ g, String.length g = 4%nat) gs →
  ipaddress.v6_slices (foldr String.append "" gs) = gs.
Proof.
  intros Hlen Hgs.
  destruct gs as [|g0 [|g1 [|g2 [|g3 [|g4 [|g5 [|g6 [|g7 [|]]]]]]]]]; try done.
  repeat match goal with
         | H : Forall _ (_ :: _) |- _ => apply Forall_cons in H as [?%string_length_4 H]
         end.
  destruct_and?. repeat match goal with H : ∃ _, _ |- _ => destruct H as [? H] end.
  simplify_eq. reflexivity.
Qed.

Lemma mapM_result_Ok {A B} (f : A → result B) (g : A → B) (l : list A) :
  Forall (λ x, f x = Ok (g x)) l → mapM f l = Ok (g <$> l).
Proof.
  induction 1 as [|x l Hx _ IH]; [done|].
  change (mapM f (x :: l)) with (y ← f x; k ← mapM f l; mret (y :: k)).
  by rewrite Hx, IH.
Qed.

(** [str] of an address of version 6 without a zone: the hextets, each
    in its shortest form, compressed and joined by colons. *)
Lemma v6_string_from_ip_int_eq ip :
  ip < 2 ^ 128 →
  ipaddress.v6_string_from_ip_int ip
  = Ok (join ":" (ipaddress.v6_compress_hextets (Fmt.hex <$> v6_hextets ip))).
Proof.
  intros Hip. unfold ipaddress.v6_string_from_ip_int.
  destruct (N.ltb_spec (2 ^ 128 - 1) ip) as [Hgt|_]; [lia|].
  unfold Fmt.hex032. rewrite (zfill_to_base 16 ip 31) by done.
  change 32%nat with (8 * 4)%nat. rewrite fixed_quotients.
  rewrite v6_slices_groups.
  - rewrite (mapM_result_Ok _ (λ g, Fmt.hex (default 0 (Fmt.int_digits 16 g 0)))).
    + unfold v6_hextets. rewrite <- !list_fmap_compose.
      cbn [mbind result_bind]. do 3 f_equal.
      apply list_fmap_ext. intros _ q _. cbn [compose].
      by rewrite int_digits_fixed, N.mul_0_l by done.
    + apply Forall_fmap, Forall_forall. intros q _. cbn [compose].
      rewrite (int_fixed 16 3) by done. cbn [mbind result_bind]. f_equal.
      by rewrite int_digits_fixed, N.mul_0_l by done.
  - by rewrite length_fmap.
  - apply Forall_fmap, Forall_forall. intros q _. apply fixed_length.
Qed.
End v6_text.

(** ** Compression of a run of zero hextets *)

Section compression.
Local Open Scope Z_scope.

(** The hextets [hs[start .. start + len)] exist and are all ["0"]. *)
Definition zero_run (hs : list string) (start len : Z) : Prop :=
  0 ≤ start ∧ 0 < len ∧ start + len ≤ Z.of_nat (length hs)
  ∧ ∀ j : nat, start ≤ Z.of_nat j < start + len → hs !! j = Some "0".

(** What the scanning loop knows after the hextets [seen]: the best run
    and the current run are runs of zeros, the current one ends at the
    end of [seen]. *)
Definition scan_inv (seen : list string) (st : Z * Z * Z * Z) : Prop :=
  let '(best_start, best_len, cur_start, cur_len) := st in
  (best_len = 0 ∨ zero_run seen best_start best_len)
  ∧ ((cur_start = -1 ∧ cur_len = 0)
     ∨ (zero_run seen cur_start cur_len
        ∧ cur_start + cur_len = Z.of_nat (length seen))).

Lemma zero_run_weaken seen x start len :
  zero_run seen start len → zero_run (seen ++ [x]) start len.
Proof.
  intros (H0 & H1 & H2 & H3). unfold zero_run. rewrite length_app. simpl.
  split_and!; try lia. intros j Hj. rewrite lookup_app_l by lia. by apply H3.
Qed.

Lemma zero_run_extend seen start len :
  zero_run seen start len → start + len = Z.of_nat (length seen) →
  zero_run (seen ++ ["0"]) start (len + 1).
Proof.
  intros (H0 & H1 & H2 & H3) Hend. unfold zero_run. rewrite length_app. simpl.
  split_and!; try lia. intros j Hj.
  destruct (decide (j < length seen)%nat) as [Hlt|Hge].
  - rewrite lookup_app_l by lia. apply H3. lia.
  - assert (j = length seen) as -> by lia. by rewrite list_lookup_middle.
Qed.

Lemma zero_run_new seen : zero_run (seen ++ ["0"]) (Z.of_nat (length seen)) 1.
Proof.
  unfold zero_run. rewrite length_app. simpl. split_and!; try lia.
  intros j Hj. assert (j = length seen) as -> by lia. by rewrite list_lookup_middle.
Qed.

Lemma v6_compress_step_inv seen st x :
  scan_inv seen st →
  scan_inv (seen ++ [x]) (ipaddress.v6_compress_step st (Z.of_nat (length seen)) x).
Proof.
  destruct st as [[[bs bl] cs] cl]. intros [Hbest Hcur].
  unfold ipaddress.v6_compress_step.
  destruct (String.eqb_spec x "0") as [->|Hx].
  - assert (zero_run (seen ++ ["0"])
              (if cs =? -1 then Z.of_nat (length seen) else cs) (cl + 1)
            ∧ (if cs =? -1 then Z.of_nat (length seen) else cs) + (cl + 1)
              = Z.of_nat (length (seen ++ ["0"]))) as [Hrun Hend].
    { rewrite length_app. simpl. destruct Hcur as [[-> ->]|[Hrun Hend]].
      - simpl. split; [apply zero_run_new | lia].
      - destruct Hrun as (? & ? & ? & ?).
        destruct (Z.eqb_spec cs (-1)); [lia|].
        split; [by apply zero_run_extend | lia]. }
    destruct (bl <? cl + 1); (split; [|by right]).
    + by right.
    + destruct Hbest as [->|Hbest]; [by left | right; by apply zero_run_weaken].
  - split; [|by left].
    destruct Hbest as [->|Hbest]; [by left | right; by apply zero_run_weaken].
Qed.

Lemma v6_compress_scan_inv rest seen st :
  scan_inv seen st →
  scan_inv (seen ++ rest)
    (ipaddress.v6_compress_scan rest (Z.of_nat (length seen)) st).
Proof.
  revert seen st. induction rest as [|x rest IH]; intros seen st Hinv.
  - by rewrite app_nil_r.
  - simpl. replace (Z.of_nat (length seen) + 1) with (Z.of_nat (length (seen ++ [x])))
      by (rewrite length_app; simpl; lia).
    rewrite (assoc_L (++) seen [x] rest : seen ++ x :: rest = (seen ++ [x]) ++ rest).
    apply IH. by apply v6_compress_step_inv.
Qed.

Lemma take_replicate {A} (x : A) (L : nat) (l : list A) :
  (L ≤ length l)%nat → (∀ j, (j < L)%nat → l !! j = Some x) →
  take L l = replicate L x.
Proof.
  revert l. induction L as [|L IH]; intros l Hlen Hl; [done|].
  destruct l as [|y l]; [simpl in Hlen; lia|].
  pose proof (Hl 0%nat ltac:(lia)) as [= ->]. simpl. f_equal.
  apply IH; [simpl in Hlen; lia|]. intros j Hj. apply (Hl (S j)). lia.
Qed.

Lemma zero_run_split hs start len :
  zero_run hs start len →
  hs = take (Z.to_nat start) hs ++ replicate (Z.to_nat len) "0"
         ++ drop (Z.to_nat (start + len)) hs.
Proof.
  intros (H0 & H1 & H2 & H3).
  rewrite <- (take_drop (Z.to_nat start) hs) at 1. f_equal.
  rewrite <- (take_drop (Z.to_nat len) (drop (Z.to_nat start) hs)). f_equal.
  - apply take_replicate.
    + rewrite length_drop. lia.
    + intros j Hj. rewrite lookup_drop. apply H3. lia.
  - rewrite drop_drop. f_equal. lia.
Qed.

(** The result of [_compress_hextets]: the list as it is, or the list
    with one run of at least two ["0"] replaced by one empty text, and
    one more empty text in front or behind when the run is at that end. *)
Lemma v6_compress_hextets_cases hs :
  ipaddress.v6_compress_hextets hs = hs
  ∨ ∃ pre L post,
      (2 ≤ L)%nat ∧ hs = pre ++ replicate L "0" ++ post
      ∧ ipaddress.v6_compress_hextets hs
        = (if pre is [] then [""] else []) ++ pre ++ ""
            :: post ++ (if post is [] then [""] else []).
Proof.
  unfold ipaddress.v6_compress_hextets.
  assert (scan_inv hs (ipaddress.v6_compress_scan hs 0 (-1, 0, -1, 0))) as Hinv.
  { apply (v6_compress_scan_inv hs [] (-1, 0, -1, 0)). split; by left. }
  destruct (ipaddress.v6_compress_scan hs 0 (-1, 0, -1, 0))
    as [[[bs bl] cs] cl].
  destruct Hinv as [Hbest _].
  destruct (Z.ltb_spec 1 bl) as [Hbl|Hbl]; [|by left].
  destruct Hbest as [->|Hrun]; [lia|]. right.
  pose proof Hrun as (H0 & H1 & H2 & H3).
  exists (take (Z.to_nat bs) hs), (Z.to_nat bl), (drop (Z.to_nat (bs + bl)) hs).
  split_and!; [lia | by apply zero_run_split |].
  assert (take (Z.to_nat bs) hs = [] ↔ bs = 0) as Hpre.
  { split; [|by intros ->]. intros Hnil%(f_equal length).
    rewrite length_take in Hnil. simpl in Hnil. lia. }
  assert (drop (Z.to_nat (bs + bl)) hs = [] ↔ bs + bl = Z.of_nat (length hs))
    as Hpost.
  { split.
    - intros Hnil%(f_equal length). rewrite length_drop in Hnil. simpl in Hnil. lia.
    - intros ->. rewrite Nat2Z.id. apply drop_all. }
  destruct (Z.eqb_spec (bs + bl) (Z.of_nat (length hs))) as [Hend|Hend].
  - rewrite (proj2 Hpost Hend).
    rewrite take_app_le by lia.
    rewrite Hend, Nat2Z.id, drop_app_length. simpl.
    destruct (Z.eqb_spec bs 0) as [->|Hbs]; [done|].
    destruct (take (Z.to_nat bs) hs) eqn:E; [|done].
    exfalso. apply Hbs. by apply Hpre.
  - destruct (drop (Z.to_nat (bs + bl)) hs) as [|p post] eqn:Ed.
    { exfalso. apply Hend. by apply Hpost. }
    rewrite app_nil_r.
    destruct (Z.eqb_spec bs 0) as [->|Hbs]; [done|].
    destruct (take (Z.to_nat bs) hs) eqn:E; [|done].
    exfalso. apply Hbs. by apply Hpre.
Qed.
End compression.

(** ** Parsing a compressed address again *)

Section reparse.
Local Open Scope N_scope.

(** [except ValueError as exc: raise AddressValueError(...)] *)
Definition as_address_error (r : result N) : result N :=
  match r with
  | Ok ip_int => Ok ip_int
  | Raise (ValueError msg) => Raise (AddressValueError msg)
  | Raise e => Raise e
  end.

(** The numbers of parts parsed before and after the gap and of
    hextets left out: [(parts_hi, parts_lo, parts_skipped)]. *)
Definition v6_part_counts (parts : list string) (skip_index : option nat)
    : result (Z * Z * Z) :=
  match skip_index with
  | Some skip_index =>
      let parts_hi := Z.of_nat skip_index in
      let parts_lo := (Z.of_nat (length parts) - Z.of_nat skip_index - 1)%Z in
      parts_hi ←
        (if is_empty (nth 0 parts EmptyString) then
           let parts_hi := (parts_hi - 1)%Z in
           if negb (parts_hi =? 0)%Z then
             Raise (AddressValueError "Leading ':' only permitted as part of '::'")
           else Ok parts_hi
         else Ok parts_hi);
      parts_lo ←
        (if is_empty (List.last parts EmptyString) then
           let parts_lo := (parts_lo - 1)%Z in
           if negb (parts_lo =? 0)%Z then
             Raise (AddressValueError "Trailing ':' only permitted as part of '::'")
           else Ok parts_lo
         else Ok parts_lo);
      let parts_skipped := (8 - (parts_hi + parts_lo))%Z in
      if (parts_skipped <? 1)%Z then
        Raise (AddressValueError "Expected at most 7 other parts with '::'")
      else Ok (parts_hi, parts_lo, parts_skipped)
  | None =>
      if negb (length parts =? 8)%nat then
        Raise (AddressValueError "Exactly 8 parts expected without '::'")
      else if is_empty (nth 0 parts EmptyString) then
        Raise (AddressValueError "Leading ':' only permitted as part of '::'")
      else if is_empty (List.last parts EmptyString) then
        Raise (AddressValueError "Trailing ':' only permitted as part of '::'")
      else Ok (Z.of_nat (length parts), 0%Z, 0%Z)
  end.

(** The two parsing loops. *)
Definition v6_parse_parts (parts : list string) (counts : Z * Z * Z) : result N :=
  let '(parts_hi, parts_lo, parts_skipped) := counts in
  as_address_error
    (ip_int ← ipaddress.v6_parse_hextets (take (Z.to_nat parts_hi) parts) 0;
     let ip_int := N.shiftl ip_int (16 * Z.to_N parts_skipped) in
     ipaddress.v6_parse_hextets (drop (length parts - Z.to_nat parts_lo) parts) ip_int).

(** [_ip_int_from_string] from the check of the number of colons on,
    as a function of [parts]. *)
Definition v6_parts_to_int (parts : list string) : result N :=
  if (9 <? length parts)%nat then
    Raise (AddressValueError "At most 8 colons permitted")
  else
    skip_index ← ipaddress.v6_find_skip parts (seq 1 (length parts - 2)) None;
    counts ← v6_part_counts parts skip_index;
    v6_parse_parts parts counts.

Lemma v6_ip_int_from_string_unfold ip_str :
  ipaddress.v6_ip_int_from_string ip_str
  = if is_empty ip_str then Raise (AddressValueError "Address cannot be empty")
    else
      let parts := split ":" ip_str in
      if (length parts <? 3)%nat then
        Raise (AddressValueError "At least 3 parts expected")
      else
        parts ←
          (if contains "." (List.last parts EmptyString) then
             a ← ipaddress.IPv4Address (List.last parts EmptyString);
             let ipv4_int := ipaddress._ip a in
             Ok (removelast parts ++
                   [Fmt.hex (N.land (N.shiftr ipv4_int 16) 65535);
                    Fmt.hex (N.land ipv4_int 65535)])
           else Ok parts);
        v6_parts_to_int parts.
Proof. reflexivity. Qed.

(** Parsing the parts of a compressed address: the hextets before the
    gap, a shift by the hextets left out, the hextets after the gap. *)
Lemma v6_parts_to_int_compressed pre post :
  Forall (λ x, x ≠ "") pre → Forall (λ x, x ≠ "") post →
  (length pre + length post ≤ 6)%nat →
  v6_parts_to_int
    ((if pre is [] then [""] else []) ++ pre ++ ""
       :: post ++ (if post is [] then [""] else []))
  = as_address_error
      (a ← ipaddress.v6_parse_hextets pre 0;
       ipaddress.v6_parse_hextets post
         (N.shiftl a (16 * N.of_nat (8 - length pre - length post)))).
Proof.
  intros Hpre Hpost Hlen.
  do 7 (try destruct pre as [|? pre]); do 7 (try destruct post as [|? post]);
    simpl in Hlen; try lia;
    repeat match goal with
           | H : Forall _ (_ :: _) |- _ => apply Forall_cons in H as [? H]
           end;
    repeat match goal with
           | H : ?x ≠ "" |- _ => destruct x; [done|]; clear H
           end;
    reflexivity.
Qed.

Lemma v6_parts_to_int_plain xs :
  length xs = 8%nat → Forall (λ x, x ≠ "") xs →
  v6_parts_to_int xs = as_address_error (ipaddress.v6_parse_hextets xs 0).
Proof.
  intros Hlen Hxs.
  do 9 (try destruct xs as [|? xs]); try done.
  repeat match goal with
         | H : Forall _ (_ :: _) |- _ => apply Forall_cons in H as [? H]
         end.
  repeat match goal with
         | H : ?x ≠ "" |- _ => destruct x; [done|]; clear H
         end.
  match goal with
  | |- _ = as_address_error ?r =>
      change (as_address_error (v ← r; Ok (N.shiftl v 0)) = as_address_error r);
      destruct r as [ip_int|err]; [|done]
  end.
  simpl. by rewrite N.shiftl_0_r.
Qed.

Lemma is_empty_app_cons (a b : string) c : is_empty (a +:+ String c b) = false.
Proof. by destruct a. Qed.

Lemma split_no_sep sep s : contains sep s = false → split sep s = [s].
Proof.
  induction s as [|c s IH]; [done|]. simpl.
  destruct (Ascii.eqb c sep); [done|]. simpl. by intros ->%IH.
Qed.

Lemma split_join sep parts :
  parts ≠ [] → Forall (λ x, contains sep x = false) parts →
  split sep (join (String sep "") parts) = parts.
Proof.
  intros Hne Hparts. unfold join.
  induction Hparts as [|x parts Hx Hparts IH]; [done|].
  destruct parts as [|y parts].
  - simpl. by apply split_no_sep.
  - change (String.concat (String sep "") (x :: y :: parts))
      with (x +:+ String sep (String.concat (String sep "") (y :: parts))).
    rewrite split_app, IH by done. by rewrite split_no_sep.
Qed.

(** Parsing a text that was joined from parts free of [':'] and
    without a dotted suffix. *)
Lemma v6_ip_int_from_string_join parts :
  (3 ≤ length parts)%nat →
  Forall (λ x, contains ":" x = false) parts →
  contains "." (List.last parts "") = false →
  ipaddress.v6_ip_int_from_string (join ":" parts) = v6_parts_to_int parts.
Proof.
  intros Hlen Hparts Hdot. rewrite v6_ip_int_from_string_unfold.
  assert (is_empty (join ":" parts) = false) as ->.
  { destruct parts as [|x [|y parts]]; [simpl in Hlen; lia..|].
    apply is_empty_app_cons. }
  cbv zeta. rewrite split_join; [|intros ->; simpl in Hlen; lia|done].
  destruct (Nat.ltb_spec (length parts) 3); [lia|]. by rewrite Hdot.
Qed.

Lemma Forall_List_last {A} (P : A → Prop) l d :
  Forall P l → P d → P (List.last l d).
Proof.
  intros Hl Hd. induction Hl as [|x l Hx Hl IH]; [done|].
  simpl. by destruct l.
Qed.

Lemma hextet_of_zero_inv h : hextet_of "0" h → h = 0.
Proof. by intros (_ & _ & _ & [= <-]). Qed.

(** Round trip: the compressed text of eight hextets parses to the
    number they spell. *)
Lemma v6_reparse_compressed xs hs :
  Forall2 hextet_of xs hs → Forall (λ h, h < 65536) hs → length xs = 8%nat →
  ipaddress.v6_ip_int_from_string (join ":" (ipaddress.v6_compress_hextets xs))
  = Ok (hextets_value hs 0).
Proof.
  intros Hxs Hhs Hlen.
  assert (Forall (λ x, x ≠ "" ∧ contains ":" x = false ∧ contains "." x = false) xs)
    as Hgood.
  { apply Forall_forall. intros x Hx.
    apply list_elem_of_lookup in Hx as [i Hi].
    destruct (Forall2_lookup_l _ _ _ _ _ Hxs Hi) as (h & _ & ? & ? & ? & _). done. }
  destruct (v6_compress_hextets_cases xs) as [->|(pre & L & post & HL & Hsplit & ->)].
  - rewrite v6_ip_int_from_string_join.
    + rewrite v6_parts_to_int_plain; [|done|].
      * by rewrite (v6_parse_hextets_value _ _ _ Hxs Hhs).
      * eapply Forall_impl; [exact Hgood|]. naive_solver.
    + lia.
    + eapply Forall_impl; [exact Hgood|]. naive_solver.
    + apply (Forall_List_last (λ x, contains "." x = false)); [|done].
      eapply Forall_impl; [exact Hgood|]. naive_solver.
  - subst xs. rewrite !length_app, length_replicate in Hlen.
    apply Forall_app in Hgood as [Hpre [_ Hpost]%Forall_app].
    apply Forall2_app_inv_l in Hxs as (h1 & h23 & Hh1 & Hh23 & ->).
    apply Forall2_app_inv_l in Hh23 as (h2 & h3 & Hh2 & Hh3 & ->).
    apply Forall_app in Hhs as [Hb1 [Hb2 Hb3]%Forall_app].
    assert (h2 = replicate L 0) as ->.
    { clear -Hh2. revert h2 Hh2. induction L as [|L IH]; intros h2 Hh2.
      - by apply Forall2_nil_inv_l in Hh2.
      - apply Forall2_cons_inv_l in Hh2 as (h & h2' & Hh%hextet_of_zero_inv & Hh2 & ->).
        subst h. simpl. f_equal. by apply IH. }
    rewrite v6_ip_int_from_string_join.
    + rewrite v6_parts_to_int_compressed; [| | |lia].
      * rewrite (v6_parse_hextets_value _ _ _ Hh1 Hb1). simpl.
        rewrite (v6_parse_hextets_value _ _ _ Hh3 Hb3). simpl. f_equal.
        unfold hextets_value. rewrite !foldl_app.
        fold (hextets_value (replicate L 0) (foldl (λ a h, a * 65536 + h) 0 h1)).
        rewrite hextets_value_zeros. do 3 f_equal. lia.
      * eapply Forall_impl; [exact Hpre|]. naive_solver.
      * eapply Forall_impl; [exact Hpost|]. naive_solver.
    + rewrite !length_app. simpl. rewrite length_app.
      destruct pre, post; simpl in *; lia.
    + apply Forall_app. split; [by destruct pre; repeat constructor|].
      apply Forall_app. split; [eapply Forall_impl; [exact Hpre|]; naive_solver|].
      apply Forall_cons. split; [done|]. apply Forall_app.
      split; [eapply Forall_impl; [exact Hpost|]; naive_solver|].
      by destruct post; repeat constructor.
    + apply (Forall_List_last (λ x, contains "." x = false)); [|done].
      apply Forall_app. split; [by destruct pre; repeat constructor|].
      apply Forall_app. split; [eapply Forall_impl; [exact Hpre|]; naive_solver|].
      apply Forall_cons. split; [done|]. apply Forall_app.
      split; [eapply Forall_impl; [exact Hpost|]; naive_solver|].
      by destruct post; repeat constructor.
Qed.
End reparse.

(** ** The range of a parsed address *)

Section parsed_range.
Local Open Scope N_scope.

Lemma int_digits_bound b s acc v :
  Fmt.int_digits b s acc = Some v →
  v < (acc + 1) * b ^ N.of_nat (String.length s).
Proof.
  revert acc. induction s as [|c s IH]; intros acc H.
  - simpl in *. injection H as <-. lia.
  - simpl in H. destruct (Fmt.digit_value c) as [d|]; [|done].
    destruct (N.ltb_spec d b) as [Hd|]; [|done].
    apply IH in H. cbn [String.length]. rewrite Nat2N.inj_succ, N.pow_succ_r'.
    nia.
Qed.

Lemma v6_parse_hextet_bound x h : ipaddress.v6_parse_hextet x = Ok h → h < 65536.
Proof.
  unfold ipaddress.v6_parse_hextet, Fmt.int.
  destruct (negb _); [done|].
  destruct (Nat.ltb_spec 4 (String.length x)) as [|Hlen]; [done|].
  destruct (is_empty x); [done|].
  destruct (Fmt.int_digits 16 x 0) as [v|] eqn:E; [|done].
  intros [= <-]. apply int_digits_bound in E.
  eapply N.lt_le_trans; [exact E|]. rewrite N.add_0_l, N.mul_1_l.
  change 65536 with (16 ^ 4). apply N.pow_le_mono_r; lia.
Qed.

Lemma v6_parse_hextets_bound xs acc v k :
  acc < 2 ^ (16 * k) → ipaddress.v6_parse_hextets xs acc = Ok v →
  v < 2 ^ (16 * (k + N.of_nat (length xs))).
Proof.
  revert acc k. induction xs as [|x xs IH]; intros acc k Hacc H.
  - simpl in *. injection H as <-. by rewrite N.add_0_r.
  - cbn [ipaddress.v6_parse_hextets] in H.
    destruct (ipaddress.v6_parse_hextet x) as [h|] eqn:Hx; [|done].
    cbn [mbind result_bind] in H. apply v6_parse_hextet_bound in Hx.
    rewrite (lor_shiftl_add acc h 16) in H by done.
    apply (IH _ (k + 1)) in H.
    + cbn [length].
      by replace (k + N.of_nat (S (length xs)))
        with (k + 1 + N.of_nat (length xs)) by lia.
    + replace (16 * (k + 1)) with (16 * k + 16) by lia.
      rewrite N.pow_add_r. change (2 ^ 16) with 65536. nia.
Qed.

Lemma v6_find_skip_range parts indices acc i :
  ipaddress.v6_find_skip parts indices acc = Ok (Some i) →
  acc = Some i ∨ i ∈ indices.
Proof.
  revert acc. induction indices as [|j rest IH]; intros acc H; simpl in H.
  - left. congruence.
  - rewrite elem_of_cons. destruct (is_empty _).
    + destruct acc; [done|]. apply IH in H. naive_solver.
    + apply IH in H. naive_solver.
Qed.

Lemma v6_part_counts_range parts skip_index hi lo sk :
  (length parts ≤ 9)%nat →
  (∀ i, skip_index = Some i → (1 ≤ i ∧ i + 2 ≤ length parts)%nat) →
  v6_part_counts parts skip_index = Ok (hi, lo, sk) →
  (0 ≤ hi ∧ 0 ≤ lo ∧ 0 ≤ sk ∧ hi + lo + sk ≤ 8)%Z.
Proof.
  intros Hlen Hskip. unfold v6_part_counts.
  destruct skip_index as [i|].
  - destruct (Hskip i eq_refl) as [Hi1 Hi2].
    destruct (is_empty (nth 0 parts "")), (is_empty (List.last parts ""));
      repeat (cbn [mbind result_bind negb];
              match goal with
              | |- context [(?a =? ?b)%Z] => destruct (Z.eqb_spec a b)
              | |- context [(?a <? ?b)%Z] => destruct (Z.ltb_spec a b)
              end);
      cbn [mbind result_bind negb]; try done; intros ?; simplify_eq; lia.
  - destruct (Nat.eqb_spec (length parts) 8); [|done]. simpl.
    destruct (is_empty (nth 0 parts "")); [done|].
    destruct (is_empty (List.last parts "")); [done|].
    intros ?; simplify_eq. lia.
Qed.

Lemma as_address_error_Ok r v : as_address_error r = Ok v → r = Ok v.
Proof. destruct r as [|[]]; by intros [= ->]. Qed.

Lemma v6_parse_parts_bound parts hi lo sk ip :
  (0 ≤ hi ∧ 0 ≤ lo ∧ 0 ≤ sk ∧ hi + lo + sk ≤ 8)%Z →
  v6_parse_parts parts (hi, lo, sk) = Ok ip → ip < 2 ^ 128.
Proof.
  intros Hc H. apply as_address_error_Ok in H.
  destruct (ipaddress.v6_parse_hextets (take (Z.to_nat hi) parts) 0)
    as [a|] eqn:Ha; [|done].
  cbn [mbind result_bind] in H.
  apply (v6_parse_hextets_bound _ _ _ 0) in Ha; [|done].
  apply (v6_parse_hextets_bound _ _ _
           (N.of_nat (length (take (Z.to_nat hi) parts)) + Z.to_N sk)) in H.
  - eapply N.lt_le_trans; [exact H|].
    apply N.pow_le_mono_r; [done|].
    rewrite length_take, length_drop. lia.
  - rewrite N.shiftl_mul_pow2, N.mul_add_distr_l, N.pow_add_r.
    rewrite N.add_0_l in Ha.
    apply N.mul_lt_mono_pos_r; [|done].
    apply N.neq_0_lt_0, N.pow_nonzero. done.
Qed.

Lemma v6_parts_to_int_bound parts ip :
  v6_parts_to_int parts = Ok ip → ip < 2 ^ 128.
Proof.
  unfold v6_parts_to_int.
  destruct (Nat.ltb_spec 9 (length parts)) as [|Hlen]; [done|].
  destruct (ipaddress.v6_find_skip _ _ _) as [skip|] eqn:Hskip; [|done].
  cbn [mbind result_bind].
  destruct (v6_part_counts parts skip) as [[[hi lo] sk]|] eqn:Hcounts; [|done].
  cbn [mbind result_bind]. apply v6_parse_parts_bound.
  eapply v6_part_counts_range; [done| |exact Hcounts].
  intros i ->. apply v6_find_skip_range in Hskip as [?|Hi]; [done|].
  apply elem_of_seq in Hi. lia.
Qed.

(** Every address of version 6 that parses is below [2 ^ 128]. *)
Lemma v6_ip_int_from_string_bound ip_str ip :
  ipaddress.v6_ip_int_from_string ip_str = Ok ip → ip < 2 ^ 128.
Proof.
  rewrite v6_ip_int_from_string_unfold.
  destruct (is_empty ip_str); [done|]. cbv zeta.
  destruct (length (split ":" ip_str) <? 3)%nat; [done|].
  destruct (contains "." _).
  - destruct (ipaddress.IPv4Address _) as [a|]; [|done].
    cbn [mbind result_bind]. apply v6_parts_to_int_bound.
  - cbn [mbind result_bind]. apply v6_parts_to_int_bound.
Qed.
End parsed_range.

(** ** The expanded text of a stored address *)

Section expanded.
Local Open Scope N_scope.

Lemma fixed_mod b w n : b ≠ 0 → Fmt.fixed b w (n mod b ^ N.of_nat w) = Fmt.fixed b w n.
Proof.
  intros Hb. revert n. induction w as [|w IH]; intros n; [done|].
  cbn [Fmt.fixed]. rewrite Nat2N.inj_succ, N.pow_succ_r'.
  rewrite N.Div0.mod_mul_r.
  assert (n mod b < b) as Hr by (by apply N.mod_lt).
  replace ((n mod b + b * ((n / b) mod b ^ N.of_nat w)) / b)
    with ((n / b) mod b ^ N.of_nat w)
    by (apply (N.div_unique _ b _ (n mod b)); [done | lia]).
  replace ((n mod b + b * ((n / b) mod b ^ N.of_nat w)) mod b)
    with (n mod b)
    by (apply (N.mod_unique _ b ((n / b) mod b ^ N.of_nat w)); [done | lia]).
  by rewrite IH.
Qed.

(** [.exploded] of an address of version 6 without a zone: the eight
    hextets, four digits each. *)
Lemma v6_exploded_eq ip :
  ip < 2 ^ 128 →
  ipaddress.exploded (ipaddress.IPv6 ip None)
  = Ok (join ":" (Fmt.fixed 16 4 <$> v6_hextets ip)).
Proof.
  intros Hip. unfold ipaddress.exploded, ipaddress.str.
  rewrite v6_string_from_ip_int_eq by done. cbn [mbind result_bind truthy].
  rewrite (v6_reparse_compressed _ (v6_hextets ip)).
  - rewrite v6_hextets_value by done. cbn [mbind result_bind].
    unfold Fmt.hex032. rewrite (zfill_to_base 16 ip 31) by done.
    change 32%nat with (8 * 4)%nat. rewrite fixed_quotients, v6_slices_groups.
    + do 2 f_equal. unfold v6_hextets. rewrite <- list_fmap_compose.
      apply list_fmap_ext. intros _ q _. cbn [compose]. symmetry.
      by apply (fixed_mod 16 4).
    + by rewrite length_fmap.
    + apply Forall_fmap, Forall_forall. intros q _. apply fixed_length.
  - apply Forall2_fmap_l, Forall_Forall2_diag.
    eapply Forall_impl; [apply v6_hextets_bound|]. intros h Hh. by apply hex_hextet.
  - apply v6_hextets_bound.
  - by rewrite length_fmap.
Qed.

Lemma ip_address_v6_bound address ip scope_id :
  ipaddress.ip_address address = Ok (ipaddress.IPv6 ip scope_id) → ip < 2 ^ 128.
Proof.
  unfold ipaddress.ip_address.
  destruct (ipaddress.IPv4Address address) as [a|e] eqn:E4.
  { unfold ipaddress.IPv4Address in E4. destruct (contains "/" address); [done|].
    destruct (ipaddress.v4_ip_int_from_string address); [|done].
    simpl in E4. by intros; simplify_eq. }
  destruct e; try done.
  unfold ipaddress.IPv6Address. destruct (contains "/" address); [done|].
  destruct (ipaddress.v6_split_scope_id address) as [[addr_str sc]|e];
    [|cbn [mbind result_bind]; by destruct e].
  cbn [mbind result_bind].
  destruct (ipaddress.v6_ip_int_from_string addr_str) as [v|e] eqn:E6.
  - cbn [mbind result_bind]. intros ?; simplify_eq.
    by eapply v6_ip_int_from_string_bound.
  - cbn [mbind result_bind]. by destruct e.
Qed.
End expanded.

(** ** Dotted quads *)

Section dotted_quad.
Local Open Scope N_scope.

Lemma digit_char_digit_value c d :
  Fmt.is_decimal_digit c = true → Fmt.digit_value c = Some d →
  d < 10 ∧ Fmt.digit_char d = c.
Proof.
  unfold Fmt.is_decimal_digit, Fmt.digit_value. cbv zeta. intros H. rewrite H.
  intros [= <-]. apply andb_prop in H as [H1%N.leb_le H2%N.leb_le].
  split; [lia|]. unfold Fmt.digit_char.
  destruct (N.ltb_spec (N_of_ascii c - 48) 10); [|lia].
  replace (48 + (N_of_ascii c - 48)) with (N_of_ascii c) by lia.
  apply ascii_N_embedding.
Qed.

(** A text of decimal digits is the numeral, of the same width, of the
    number it is read as. *)
Lemma int_digits_inv b s acc v :
  1 < b → b ≤ 10 → string_forallb Fmt.is_decimal_digit s = true →
  Fmt.int_digits b s acc = Some v →
  v / b ^ N.of_nat (String.length s) = acc ∧ Fmt.fixed b (String.length s) v = s.
Proof.
  intros Hb Hb'. revert acc. induction s as [|c s IH]; intros acc Hs H.
  - simpl in *. injection H as <-. by rewrite N.div_1_r.
  - simpl in Hs. apply andb_prop in Hs as [Hc Hs].
    cbn [Fmt.int_digits] in H.
    destruct (Fmt.digit_value c) as [d|] eqn:Ed; [|done].
    destruct (digit_char_digit_value c d Hc Ed) as [Hd Hcd].
    destruct (N.ltb_spec d b) as [Hdb|]; [|done].
    destruct (IH _ Hs H) as [Hq Hf].
    cbn [String.length]. split.
    + rewrite Nat2N.inj_succ, N.pow_succ_r', N.mul_comm, <- N.Div0.div_div, Hq.
      symmetry. apply (N.div_unique _ b _ d); [done | lia].
    + change (S (String.length s)) with (1 + String.length s)%nat.
      rewrite fixed_app by lia. rewrite Hq, Hf. cbn [Fmt.fixed].
      rewrite string_app_nil_l, string_app_cons, string_app_nil_l. f_equal.
      rewrite <- Hcd. f_equal.
      symmetry. apply (N.mod_unique _ b acc d); [done | lia].
Qed.

(** An octet that parses is at most 255 and is printed as it was
    written. *)
Lemma v4_parse_octet_inv o n :
  ipaddress.v4_parse_octet o = Ok n → n ≤ 255 ∧ Fmt.str n = o.
Proof.
  unfold ipaddress.v4_parse_octet.
  destruct (is_empty o) eqn:Hne; [done|].
  destruct (string_forallb Fmt.is_decimal_digit o) eqn:Hdig; [|done].
  cbn [negb]. destruct (3 <? String.length o)%nat; [done|].
  destruct (negb (String.eqb o "0") && _) eqn:Hlead; [done|].
  unfold Fmt.int. rewrite Hne.
  destruct (Fmt.int_digits 10 o 0) as [v|] eqn:Ev; [|done].
  cbn [mbind result_bind]. destruct (N.ltb_spec 255 v); [done|].
  intros [= <-]. split; [lia|].
  destruct o as [|c o]; [done|].
  apply andb_false_iff in Hlead as [Hz|Hc].
  - apply negb_false_iff, String.eqb_eq in Hz. injection Hz as -> ->.
    injection Ev as <-. reflexivity.
  - assert (c ≠ "0"%char) as Hc0 by (intros ->; done).
    simpl in Hdig. apply andb_prop in Hdig as [Hc' Ho].
    cbn [Fmt.int_digits] in Ev.
    destruct (Fmt.digit_value c) as [d|] eqn:Ed; [|done].
    destruct (digit_char_digit_value c d Hc' Ed) as [Hd Hcd].
    destruct (N.ltb_spec d 10); [|done].
    destruct (int_digits_inv 10 o _ v ltac:(lia) ltac:(lia) Ho Ev) as [Hq Hf].
    assert (v / 10 ^ N.of_nat (String.length o) = d) as Hq' by lia.
    assert (d ≠ 0) as Hd0 by (intros ->; by subst c).
    assert (0 < 10 ^ N.of_nat (String.length o)) as Hpow
      by (apply N.neq_0_lt_0, N.pow_nonzero; lia).
    pose proof (N.Div0.div_mod v (10 ^ N.of_nat (String.length o))) as Hdm.
    pose proof (N.mod_lt v (10 ^ N.of_nat (String.length o)) ltac:(lia)) as Hlt.
    rewrite Hq' in Hdm.
    assert (10 ^ N.of_nat (String.length o) ≤ v
            ∧ v < 10 * 10 ^ N.of_nat (String.length o)) as [Hlo Hhi].
    { clear -Hdm Hlt Hd Hd0.
      generalize dependent (v mod 10 ^ N.of_nat (String.length o)).
      generalize dependent (10 ^ N.of_nat (String.length o)).
      intros P R -> HR. nia. }
    unfold Fmt.str. rewrite (to_base_fixed 10 v (String.length o)).
    + change (S (String.length o)) with (1 + String.length o)%nat.
      rewrite fixed_app by lia. rewrite Hq', Hf. cbn [Fmt.fixed].
      rewrite string_app_nil_l, string_app_cons, string_app_nil_l.
      by rewrite N.mod_small, Hcd by lia.
    + lia.
    + done.
    + by rewrite Nat2N.inj_succ, N.pow_succ_r'.
Qed.

Lemma mapM_result_inv {A B} (f : A → result B) (l : list A) (k : list B) :
  mapM f l = Ok k → Forall2 (λ x y, f x = Ok y) l k.
Proof.
  revert k. induction l as [|x l IH]; intros k.
  - intros [= <-]. constructor.
  - change (mapM f (x :: l)) with (y ← f x; k ← mapM f l; mret (y :: k)).
    destruct (f x) as [y|] eqn:Ex; [|done]. cbn [mbind result_bind].
    destruct (mapM f l) as [k'|]; [|done]. cbn [mbind result_bind].
    intros [= <-]. constructor; [done | by apply IH].
Qed.

(** Four octets make a number below [2 ^ 32], and its four bytes are
    the octets. *)
Lemma to_bytes4_from_bytes a b c d :
  a ≤ 255 → b ≤ 255 → c ≤ 255 → d ≤ 255 →
  ipaddress.to_bytes4 (ipaddress.from_bytes [a; b; c; d]) = Ok [a; b; c; d].
Proof.
  intros Ha Hb Hc Hd. unfold ipaddress.to_bytes4, ipaddress.from_bytes.
  cbn [foldl]. change (2 ^ 32) with 4294967296.
  destruct (N.leb_spec 4294967296 ((((0 * 256 + a) * 256 + b) * 256 + c) * 256 + d));
    [lia|].
  change 255 with (N.ones 8). rewrite !N.land_ones, !N.shiftr_div_pow2.
  change (2 ^ 24) with 16777216. change (2 ^ 16) with 65536.
  change (2 ^ 8) with 256.
  do 2 f_equal; [|f_equal; [|f_equal; [|f_equal]]];
    zify; Z.to_euclidean_division_equations; lia.
Qed.

(** [.exploded] (and [str]) of an address of version 4 is the text it
    was parsed from. *)
Lemma v4_exploded_eq address ip :
  ipaddress.IPv4Address address = Ok (ipaddress.IPv4 ip) →
  ipaddress.exploded (ipaddress.IPv4 ip) = Ok address.
Proof.
  unfold ipaddress.IPv4Address. destruct (contains "/" address); [done|].
  unfold ipaddress.v4_ip_int_from_string.
  destruct (is_empty address); [done|]. cbv zeta.
  destruct (Nat.eqb_spec (length (split "." address)) 4) as [Hlen|]; [|done].
  cbn [negb].
  destruct (mapM ipaddress.v4_parse_octet (split "." address)) as [bs|e] eqn:Hbs;
    [|by destruct e].
  cbn [mbind result_bind]. intros [= <-].
  apply mapM_result_inv in Hbs.
  pose proof (join_split "." address) as Hjoin.
  destruct (split "." address) as [|o0 [|o1 [|o2 [|o3 [|]]]]]; try done.
  repeat match goal with
         | H : Forall2 _ (_ :: _) _ |- _ =>
             apply Forall2_cons_inv_l in H as (? & ? & [? ?]%v4_parse_octet_inv & H & ->)
         end.
  apply Forall2_nil_inv_l in Hbs as ->.
  unfold ipaddress.exploded, ipaddress.str, ipaddress.v4_string_from_ip_int.
  rewrite to_bytes4_from_bytes by done. cbn [mbind result_bind].
  f_equal. rewrite <- Hjoin. csimpl. by simplify_eq.
Qed.
End dotted_quad.

(** ** The exceptions of the address parser *)

Section failures.
Local Open Scope N_scope.

Lemma int_raises s b e : Fmt.int s b = Raise e → ∃ msg, e = ValueError msg.
Proof.
  unfold Fmt.int. destruct (is_empty s); [intros [= <-]; eauto|].
  destruct (Fmt.int_digits b s 0); [done|]. intros [= <-]. eauto.
Qed.

Lemma v4_parse_octet_raises o e :
  ipaddress.v4_parse_octet o = Raise e → ∃ msg, e = ValueError msg.
Proof.
  unfold ipaddress.v4_parse_octet.
  repeat match goal with
         | |- context [if ?c then _ else _] =>
             destruct c; [intros [= <-]; eauto|]
         end.
  destruct (Fmt.int o 10) as [v|e'] eqn:E; cbn [mbind result_bind].
  - destruct (255 <? v); [intros [= <-]; eauto | done].
  - intros [= <-]. by eapply int_raises.
Qed.

Lemma mapM_result_raises {A B} (f : A → result B) (P : exn → Prop) l e :
  (∀ x e, f x = Raise e → P e) → mapM f l = Raise e → P e.
Proof.
  intros Hf. induction l as [|x l IH]; [done|].
  change (mapM f (x :: l)) with (y ← f x; k ← mapM f l; mret (y :: k)).
  destruct (f x) as [y|e'] eqn:Ex; cbn [mbind result_bind].
  - destruct (mapM f l) as [k|e']; cbn [mbind result_bind]; [done|].
    intros [= <-]. by apply IH.
  - intros [= <-]. by eapply Hf.
Qed.

Lemma IPv4Address_raises address e :
  ipaddress.IPv4Address address = Raise e → ∃ msg, e = AddressValueError msg.
Proof.
  unfold ipaddress.IPv4Address, ipaddress.v4_ip_int_from_string.
  destruct (contains "/" address); [intros [= <-]; eauto|].
  destruct (is_empty address); [intros [= <-]; eauto|]. cbv zeta.
  destruct (negb _); [intros [= <-]; eauto|].
  destruct (mapM ipaddress.v4_parse_octet (split "." address)) as [bs|e'] eqn:E;
    [done|].
  apply (mapM_result_raises _ (λ e, ∃ msg, e = ValueError msg)) in E
      as [msg ->]; [|apply v4_parse_octet_raises].
  cbn [mbind result_bind]. intros [= <-]. eauto.
Qed.

Lemma v6_parse_hextet_raises x e :
  ipaddress.v6_parse_hextet x = Raise e → ∃ msg, e = ValueError msg.
Proof.
  unfold ipaddress.v6_parse_hextet.
  destruct (negb _); [intros [= <-]; eauto|].
  destruct (4 <? String.length x)%nat; [intros [= <-]; eauto|].
  apply int_raises.
Qed.

Lemma v6_parse_hextets_raises xs acc e :
  ipaddress.v6_parse_hextets xs acc = Raise e → ∃ msg, e = ValueError msg.
Proof.
  revert acc. induction xs as [|x xs IH]; intros acc; [done|].
  cbn [ipaddress.v6_parse_hextets].
  destruct (ipaddress.v6_parse_hextet x) as [h|e'] eqn:E; cbn [mbind result_bind].
  - apply IH.
  - intros [= <-]. by eapply v6_parse_hextet_raises.
Qed.

Lemma v6_find_skip_raises parts indices acc e :
  ipaddress.v6_find_skip parts indices acc = Raise e →
  ∃ msg, e = AddressValueError msg.
Proof.
  revert acc. induction indices as [|i rest IH]; intros acc; [done|]. simpl.
  destruct (is_empty _); [|apply IH].
  destruct acc; [intros [= <-]; eauto | apply IH].
Qed.

Lemma v6_part_counts_raises parts skip_index e :
  v6_part_counts parts skip_index = Raise e → ∃ msg, e = AddressValueError msg.
Proof.
  unfold v6_part_counts. destruct skip_index as [i|].
  - destruct (is_empty (nth 0 parts "")), (is_empty (List.last parts ""));
      repeat (cbn [mbind result_bind];
              match goal with
              | |- context [if ?c then _ else _] => destruct c
              end);
      cbn [mbind result_bind]; try done; intros [= <-]; eauto.
  - repeat match goal with
           | |- context [if ?c then _ else _] =>
               destruct c; [intros [= <-]; eauto|]
           end.
    done.
Qed.

Lemma v6_parse_parts_raises parts counts e :
  v6_parse_parts parts counts = Raise e → ∃ msg, e = AddressValueError msg.
Proof.
  destruct counts as [[hi lo] sk]. unfold v6_parse_parts.
  destruct (ipaddress.v6_parse_hextets (take (Z.to_nat hi) parts) 0)
    as [a|e'] eqn:Ea; cbn [mbind result_bind].
  - destruct (ipaddress.v6_parse_hextets _ (N.shiftl a _)) as [v|e'] eqn:Ev; [done|].
    apply v6_parse_hextets_raises in Ev as [msg ->]. intros [= <-]. eauto.
  - apply v6_parse_hextets_raises in Ea as [msg ->]. intros [= <-]. eauto.
Qed.

Lemma v6_parts_to_int_raises parts e :
  v6_parts_to_int parts = Raise e → ∃ msg, e = AddressValueError msg.
Proof.
  unfold v6_parts_to_int.
  destruct (9 <? length parts)%nat; [intros [= <-]; eauto|].
  destruct (ipaddress.v6_find_skip _ _ _) as [skip|e'] eqn:Hskip;
    cbn [mbind result_bind].
  - destruct (v6_part_counts parts skip) as [counts|e'] eqn:Hc;
      cbn [mbind result_bind].
    + apply v6_parse_parts_raises.
    + intros [= <-]. by eapply v6_part_counts_raises.
  - intros [= <-]. by eapply v6_find_skip_raises.
Qed.

Lemma v6_ip_int_from_string_raises ip_str e :
  ipaddress.v6_ip_int_from_string ip_str = Raise e →
  ∃ msg, e = AddressValueError msg.
Proof.
  rewrite v6_ip_int_from_string_unfold.
  destruct (is_empty ip_str); [intros [= <-]; eauto|]. cbv zeta.
  destruct (length (split ":" ip_str) <? 3)%nat; [intros [= <-]; eauto|].
  destruct (contains "." _).
  - destruct (ipaddress.IPv4Address _) as [a|e'] eqn:E4; cbn [mbind result_bind].
    + apply v6_parts_to_int_raises.
    + intros [= <-]. by eapply IPv4Address_raises.
  - cbn [mbind result_bind]. apply v6_parts_to_int_raises.
Qed.

Lemma IPv6Address_raises address e :
  ipaddress.IPv6Address address = Raise e → ∃ msg, e = AddressValueError msg.
Proof.
  unfold ipaddress.IPv6Address, ipaddress.v6_split_scope_id.
  destruct (contains "/" address); [intros [= <-]; eauto|].
  destruct (partition "%" address) as [[addr sep] scope_id].
  destruct (negb sep); cbn [mbind result_bind].
  - destruct (ipaddress.v6_ip_int_from_string addr) as [ip|e'] eqn:E;
      cbn [mbind result_bind]; [done|].
    intros [= <-]. by eapply v6_ip_int_from_string_raises.
  - destruct (is_empty scope_id || contains "%" scope_id);
      cbn [mbind result_bind]; [intros [= <-]; eauto|].
    destruct (ipaddress.v6_ip_int_from_string addr) as [ip|e'] eqn:E;
      cbn [mbind result_bind]; [done|].
    intros [= <-]. by eapply v6_ip_int_from_string_raises.
Qed.

(** [ip_address] raises nothing but its own [ValueError]. *)
Lemma ip_address_raises address e :
  ipaddress.ip_address address = Raise e →
  e = ValueError "does not appear to be an IPv4 or IPv6 address".
Proof.
  unfold ipaddress.ip_address.
  destruct (ipaddress.IPv4Address address) as [a|e4] eqn:E4; [done|].
  apply IPv4Address_raises in E4 as [msg ->].
  destruct (ipaddress.IPv6Address address) as [a|e6] eqn:E6; [done|].
  apply IPv6Address_raises in E6 as [msg' ->]. by intros [= <-].
Qed.
End failures.

(** * Further properties of the script *)

(** ** Stored addresses in the hostvars mapping *)

Lemma ip_address_IPv4 address ip :
  ipaddress.ip_address address = Ok (ipaddress.IPv4 ip) →
  ipaddress.IPv4Address address = Ok (ipaddress.IPv4 ip).
Proof.
  unfold ipaddress.ip_address.
  destruct (ipaddress.IPv4Address address) as [a|e]; [by intros [= ->]|].
  destruct e; try done.
  unfold ipaddress.IPv6Address. destruct (contains "/" address); [done|].
  destruct (ipaddress.v6_split_scope_id address) as [[addr_str sc]|e];
    [|cbn [mbind result_bind]; by destruct e].
  cbn [mbind result_bind].
  destruct (ipaddress.v6_ip_int_from_string addr_str) as [v|e];
    cbn [mbind result_bind]; [done | by destruct e].
Qed.

(** X1. A row whose [ipaddr] column parses as an address of version 4
    is normalized and rendered without an exception, and the [ipaddr]
    attribute of its hostvars entry is the text of the column,
    character for character: the parser accepts only the canonical
    dotted quad (four decimal octets up to 255, no leading zeros), and
    [.exploded] prints that. *)
Theorem X1_ipv4_rendered_as_stored r host ip :
  Host_of_row r = Ok host →
  Host.ipaddr host = ipaddress.IPv4 ip →
  ∃ v, host_vars host = Ok v
       ∧ Dict.get "ipaddr" v = Some (VStr (DbRow.ipaddr r))
       ∧ row_address r = Ok (VStr (DbRow.ipaddr r)).
Proof.
  intros Hhost Ha. pose proof Hhost as (Hip & _)%Host_of_row_Ok.
  rewrite Ha in Hip. apply ip_address_IPv4, v4_exploded_eq in Hip.
  unfold row_address. rewrite Hhost. cbn [mbind result_bind].
  rewrite host_vars_eq, Ha, Hip. cbn [mbind result_bind].
  eexists. split_and!; reflexivity.
Qed.

Lemma X1_ipv4_rendered_as_stored_witness :
  row_address (row 7 "gw.example.com" "192.168.0.254" None)
  = Ok (VStr "192.168.0.254").
Proof.
  destruct (X1_ipv4_rendered_as_stored
              (row 7 "gw.example.com" "192.168.0.254" None)
              {| Host.id := 7; Host.fqdn := "gw.example.com"; Host.upd := stamp;
                 Host.enabled := true; Host.ipaddr := ipaddress.IPv4 3232235774;
                 Host.groups := []; Host.features := []; Host.label := "" |}
              3232235774)
    as (v & _ & _ & Hrow).
  - vm_compute. reflexivity.
  - reflexivity.
  - exact Hrow.
Defined.

Section expanded_text.
Local Open Scope N_scope.

Lemma fixed_hextet h : h < 65536 → hextet_of (Fmt.fixed 16 4 h) h.
Proof.
  intros Hh. unfold hextet_of. split_and!.
  - pose proof (fixed_length 16 4 h). by destruct (Fmt.fixed 16 4 h).
  - rewrite contains_forallb, fixed_forallb; [done | lia |].
    intros d Hd. by rewrite digit_char_not_colon.
  - rewrite contains_forallb, fixed_forallb; [done | lia |].
    intros d Hd. by rewrite digit_char_not_dot.
  - unfold ipaddress.v6_parse_hextet.
    rewrite fixed_forallb; [|lia|].
    + rewrite fixed_length. cbn [negb Nat.ltb Nat.leb].
      rewrite (int_fixed 16 3) by lia. f_equal. by apply N.mod_small.
    + intros d Hd. unfold Fmt.is_hex_digit. by rewrite digit_value_digit_char.
Qed.

Lemma contains_app c (a b : string) :
  contains c (a +:+ b) = contains c a || contains c b.
Proof.
  induction a as [|x a IH]; [done|].
  rewrite string_app_cons. simpl. by rewrite IH, orb_assoc.
Qed.

Lemma contains_join c sep parts :
  Ascii.eqb sep c = false → Forall (λ x, contains c x = false) parts →
  contains c (join (String sep "") parts) = false.
Proof.
  intros Hsep Hparts. unfold join.
  induction Hparts as [|x parts Hx Hparts IH]; [done|].
  destruct parts as [|y parts]; [done|].
  change (String.concat (String sep "") (x :: y :: parts))
    with (x +:+ String sep (String.concat (String sep "") (y :: parts))).
  rewrite contains_app, Hx. cbn [contains orb]. by rewrite Hsep, IH.
Qed.

Lemma partition_no_sep sep s :
  contains sep s = false → partition sep s = (s, false, "").
Proof.
  induction s as [|c s IH]; [done|]. simpl.
  destruct (Ascii.eqb c sep); [done|]. simpl. by intros ->%IH.
Qed.

Lemma fixed_no_char c w h :
  Fmt.is_hex_digit c = false → contains c (Fmt.fixed 16 w h) = false.
Proof.
  intros Hc. rewrite contains_forallb, fixed_forallb; [done | done |].
  intros d Hd. destruct (Ascii.eqb_spec (Fmt.digit_char d) c) as [<-|]; [|done].
  unfold Fmt.is_hex_digit in Hc. by rewrite digit_value_digit_char in Hc.
Qed.

(** The expanded text of a number below [2 ^ 128]: 39 characters that
    the parser reads back as the same number. *)
Lemma expanded_text_facts ip :
  ip < 2 ^ 128 →
  String.length (join ":" (Fmt.fixed 16 4 <$> v6_hextets ip)) = 39%nat
  ∧ ipaddress.v6_ip_int_from_string (join ":" (Fmt.fixed 16 4 <$> v6_hextets ip))
    = Ok ip.
Proof.
  intros Hip.
  assert (Forall2 hextet_of (Fmt.fixed 16 4 <$> v6_hextets ip) (v6_hextets ip))
    as Hhex.
  { apply Forall2_fmap_l, Forall_Forall2_diag.
    eapply Forall_impl; [apply v6_hextets_bound|]. intros h Hh. by apply fixed_hextet. }
  assert (Forall (λ x, x ≠ "" ∧ contains ":" x = false ∧ contains "." x = false)
            (Fmt.fixed 16 4 <$> v6_hextets ip)) as Hgood.
  { apply Forall_forall. intros x Hx.
    apply list_elem_of_lookup in Hx as [i Hi].
    destruct (Forall2_lookup_l _ _ _ _ _ Hhex Hi) as (h & _ & ? & ? & ? & _). done. }
  split.
  - unfold v6_hextets.
    assert (length (quotients 8 ip) = 8%nat) as Hqs.
    { pose proof (v6_hextets_length ip) as Hl. unfold v6_hextets in Hl.
      by rewrite length_fmap in Hl. }
    clear Hhex Hgood. generalize dependent (quotients 8 ip). intros qs Hqs.
    do 9 (try destruct qs as [|? qs]); try done.
  - rewrite v6_ip_int_from_string_join.
    + rewrite v6_parts_to_int_plain.
      * rewrite (v6_parse_hextets_value _ _ _ Hhex (v6_hextets_bound ip)).
        cbn [as_address_error]. f_equal. by apply v6_hextets_value.
      * by rewrite length_fmap.
      * eapply Forall_impl; [exact Hgood|]. naive_solver.
    + rewrite length_fmap, v6_hextets_length. lia.
    + eapply Forall_impl; [exact Hgood|]. naive_solver.
    + apply (Forall_List_last (λ x, contains "." x = false)); [|done].
      eapply Forall_impl; [exact Hgood|]. naive_solver.
Qed.
End expanded_text.

(** X2. A row whose [ipaddr] column parses as an address of version 6
    without a zone is rendered without an exception; the [ipaddr]
    attribute of its hostvars entry is the expanded form: the eight
    16-bit groups of the address, most significant first, each as
    exactly four lower-case hexadecimal digits, joined by colons.  That
    text has 39 characters and is read back by the parser as the same
    address. *)
Theorem X2_ipv6_rendered_expanded r host ip :
  Host_of_row r = Ok host →
  Host.ipaddr host = ipaddress.IPv6 ip None →
  let text := join ":" (Fmt.fixed 16 4 <$> v6_hextets ip) in
  (∃ v, host_vars host = Ok v ∧ Dict.get "ipaddr" v = Some (VStr text))
  ∧ row_address r = Ok (VStr text)
  ∧ String.length text = 39
  ∧ ipaddress.ip_address text = Ok (ipaddress.IPv6 ip None).
Proof.
  intros Hhost Ha text. pose proof Hhost as (Hip & _)%Host_of_row_Ok.
  rewrite Ha in Hip. apply ip_address_v6_bound in Hip.
  pose proof (v6_exploded_eq ip Hip) as Hex. fold text in Hex.
  destruct (expanded_text_facts ip Hip) as [Hlen Hback]. fold text in Hlen, Hback.
  split_and!; [| |done|].
  - rewrite host_vars_eq, Ha, Hex. cbn [mbind result_bind].
    eexists. split; reflexivity.
  - unfold row_address. rewrite Hhost. cbn [mbind result_bind].
    rewrite host_vars_eq, Ha, Hex. reflexivity.
  - assert (∀ c, Fmt.is_hex_digit c = false → Ascii.eqb ":" c = false →
                 contains c text = false) as Hfree.
    { intros c Hc Hsep. apply contains_join; [done|].
      apply Forall_fmap, Forall_forall. intros h _. by apply fixed_no_char. }
    unfold ipaddress.ip_address, ipaddress.IPv4Address,
      ipaddress.v4_ip_int_from_string.
    rewrite (Hfree "/"%char) by done.
    assert (is_empty text = false) as ->.
    { clear -Hlen. by destruct text. }
    cbv zeta. rewrite (split_no_sep "." text) by (by apply Hfree).
    cbn [length Nat.eqb negb].
    unfold ipaddress.IPv6Address, ipaddress.v6_split_scope_id.
    rewrite (Hfree "/"%char) by done.
    rewrite (partition_no_sep "%" text) by (by apply Hfree).
    cbn [negb mbind result_bind]. by rewrite Hback.
Qed.

Lemma X2_ipv6_rendered_expanded_witness :
  row_address (row 8 "v6.example.com" "2001:db8::8a2e:370:7334" None)
  = Ok (VStr "2001:0db8:0000:0000:0000:8a2e:0370:7334").
Proof.
  destruct (X2_ipv6_rendered_expanded
              (row 8 "v6.example.com" "2001:db8::8a2e:370:7334" None)
              {| Host.id := 8; Host.fqdn := "v6.example.com"; Host.upd := stamp;
                 Host.enabled := true;
                 Host.ipaddr :=
                   ipaddress.IPv6 42540766411282592856904136881884656436 None;
                 Host.groups := []; Host.features := []; Host.label := "" |}
              42540766411282592856904136881884656436)
    as (_ & Hrow & _ & _).
  - vm_compute. reflexivity.
  - reflexivity.
  - exact Hrow.
Defined.

(** ** Runs of the read path *)

Lemma Host_of_row_raises r e :
  Host_of_row r = Raise e → ipaddress.ip_address (DbRow.ipaddr r) = Raise e.
Proof.
  unfold Host_of_row, Host.__init__.
  destruct (ipaddress.ip_address (DbRow.ipaddr r)); simpl; [intros [=] | by intros [= ->]].
Qed.

Lemma process_hosts_raises rows r e :
  r ∈ rows → ipaddress.ip_address (DbRow.ipaddr r) = Raise e →
  process_hosts rows
  = Raise (ValueError "does not appear to be an IPv4 or IPv6 address").
Proof.
  intros Hr He. induction rows as [|r' rows IH]; [by apply elem_of_nil in Hr|].
  cbn [process_hosts]. fold (Host_of_row r').
  destruct (Host_of_row r') as [h|e'] eqn:Eh; cbn [mbind result_bind].
  - apply elem_of_cons in Hr as [->|Hr].
    + apply Host_of_row_Ok in Eh as [Hip _]. congruence.
    + by rewrite (IH Hr).
  - apply Host_of_row_raises, ip_address_raises in Eh as ->. done.
Qed.

Section run_facts.
Variable json_dumps : data → string.
Variable gethostbyname : string → result string.
Variable execute : string → list DbRow.t → string + list DbRow.t.

(** X3. No partial inventory: when the [ipaddr] column of any row of
    the table does not parse, every request of the read path (the whole
    inventory, a host selection, a group, the list of groups) ends with
    the uncaught [ValueError] of the parser, exit status 1, and has
    printed nothing; the rows that do parse are not reported. *)
Theorem X3_bad_address_aborts_read_path args w r e :
  subparser args = None ∨ subparser args = Some "get" →
  r ∈ table w →
  ipaddress.ip_address (DbRow.ipaddr r) = Raise e →
  main json_dumps gethostbyname execute args w
  = (w, Raise (ValueError "does not appear to be an IPv4 or IPv6 address"))
  ∧ exit_status (main json_dumps gethostbyname execute args w).2 = 1%Z.
Proof.
  intros Hs Hr He. destruct w as [tbl stm out conns]. simpl in Hr.
  pose proof (process_hosts_raises _ _ _ Hr He) as Hp.
  assert (main json_dumps gethostbyname execute args
            {| table := tbl; statements := stm; stdout := out;
               connections := conns |}
          = ({| table := tbl; statements := stm; stdout := out;
                connections := conns |},
             Raise (ValueError "does not appear to be an IPv4 or IPv6 address")))
    as Hmain.
  { unfold main. destruct Hs as [Hs|Hs]; rewrite Hs; simpl;
      unfold mbind, M_bind, get_hosts, mbind, M_bind, lift; simpl;
      by rewrite Hp. }
  by rewrite Hmain.
Qed.

(** X4. The read path only reads: whatever the request and whatever
    the rows, a run that is not [add] leaves the rows of the table as
    they were, executes no statement, has closed the connection it
    opened, and has printed at most one text. *)
Theorem X4_read_path_only_reads args w :
  subparser args = None ∨ subparser args = Some "get" →
  let run := main json_dumps gethostbyname execute args w in
  table run.1 = table w
  ∧ statements run.1 = statements w
  ∧ connections run.1 = connections w
  ∧ (stdout run.1 = stdout w ∨ ∃ text, stdout run.1 = stdout w ++ [text]).
Proof.
  intros Hs run. destruct w as [tbl stm out conns]. unfold run, main.
  destruct Hs as [Hs|Hs]; rewrite Hs; simpl;
    unfold mbind, M_bind, get_hosts, mbind, M_bind, lift; simpl;
    (destruct (process_hosts tbl) as [hosts|]; simpl; [|by auto]);
    (destruct (build_hostvars hosts) as [hostvars|]; simpl; [|by auto]).
  - destruct (list_flag args); simpl; eauto 10.
  - destruct (opt_eqb (get_subparser args) "host").
    + destruct (name_0 (name args)) as [name0|]; simpl; [|by auto].
      destruct (String.eqb name0 "all"); simpl; [by eauto 10|].
      destruct (hostvar_subset_from _ _ _); simpl; eauto 10.
    + destruct (opt_eqb (get_subparser args) "group"); simpl; [|by auto].
      destruct (list_flag args); simpl; [by eauto 10|].
      destruct (getitem_name _ _) as [g|[]]; simpl; eauto 10.
Qed.


(** X5. [--list]: when every row is normalized and rendered, the run
    prints the inventory document as one JSON text and ends normally.
    The document holds the hostvars mapping under [_meta], every group
    of the group mapping under its name, and its keys are the group
    names in the order of their first appearance followed by [_meta]
    (no host naming a group [_meta]). *)
Theorem X5_list_prints_whole_inventory args w hosts hostvars :
  subparser args = None →
  list_flag args = true →
  process_hosts (table w) = Ok hosts →
  build_hostvars hosts = Ok hostvars →
  let inventory := build_ansible_inventory (build_groups hosts) hostvars in
  main json_dumps gethostbyname execute args w
  = (with_stdout w
       (stdout w ++ [json_dumps (DataInventory inventory) +:+ newline]), Ok ())
  ∧ Dict.get "_meta" inventory = Some (Meta hostvars)
  ∧ (∀ g, g ≠ "_meta" →
          Dict.get g inventory = Group <$> Dict.get g (build_groups hosts))
  ∧ ("_meta" ∉ hosts ≫= Host.groups →
     Dict.keys inventory = first_appearances (hosts ≫= Host.groups) ++ ["_meta"]).
Proof.
  intros Hs Hl Hp Hb inventory. destruct w as [tbl stm out conns]. simpl in Hp.
  split_and!.
  - run_read_path Hs Hp Hb. by rewrite Hl.
  - apply build_ansible_inventory_meta.
  - intros g Hg. by apply build_ansible_inventory_group.
  - intros Hmeta. unfold inventory, build_ansible_inventory, Dict.copy.
    rewrite keys_set, keys_fmap, build_groups_keys.
    rewrite decide_False; [done|]. by rewrite first_appearances_elem_of.
Qed.

(** X6. [get host all]: the name [all] is not matched as a prefix; the
    run prints the whole hostvars mapping as one JSON text and ends
    normally.  The mapping has one entry for each distinct [fqdn] of the
    table, in the order in which the names first appear in the rows. *)
Theorem X6_get_host_all args w hosts hostvars :
  subparser args = Some "get" →
  get_subparser args = Some "host" →
  name args = NameList ["all"] →
  process_hosts (table w) = Ok hosts →
  build_hostvars hosts = Ok hostvars →
  main json_dumps gethostbyname execute args w
  = (with_stdout w
       (stdout w ++ [json_dumps (DataHostvars hostvars) +:+ newline]), Ok ())
  ∧ Dict.keys hostvars = first_appearances (DbRow.fqdn <$> table w)
  ∧ NoDup (Dict.keys hostvars)
  ∧ (∀ f, is_Some (Dict.get f hostvars) ↔ ∃ r, r ∈ table w ∧ DbRow.fqdn r = f).
Proof.
  intros Hs Hg Hn Hp Hb. destruct w as [tbl stm out conns]. simpl in Hp.
  assert (Dict.keys hostvars = first_appearances (DbRow.fqdn <$> tbl)) as Hkeys.
  { by rewrite (build_hostvars_keys _ _ Hb), (process_hosts_fqdn _ _ Hp). }
  split_and!.
  - run_read_path Hs Hp Hb. by rewrite Hg, Hn.
  - done.
  - rewrite Hkeys. apply first_appearances_NoDup.
  - intros f. rewrite get_Some_keys, Hkeys, first_appearances_elem_of.
    rewrite list_elem_of_fmap. simpl. naive_solver.
Qed.
End run_facts.

Lemma X4_read_path_only_reads_witness :
  table (run_snapshot (get_args "group" true NameNone)).1 = snapshot
  ∧ statements (run_snapshot (get_args "group" true NameNone)).1 = []
  ∧ connections (run_snapshot (get_args "group" true NameNone)).1 = 0%nat.
Proof.
  destruct (X4_read_path_only_reads keys_json no_resolver accepting_store
              (get_args "group" true NameNone) snapshot_world)
    as (Ht & Hs & Hc & _).
  - right. reflexivity.
  - split_and!; [exact Ht | exact Hs | exact Hc].
Defined.

Lemma X3_bad_address_aborts_read_path_witness :
  main keys_json no_resolver accepting_store (get_args "host" false (NameList ["web"]))
    {| table := snapshot ++ [row 9 "bad.example.com" "10.0.0.256" (Some "web")];
       statements := []; stdout := []; connections := 0 |}
  = ({| table := snapshot ++ [row 9 "bad.example.com" "10.0.0.256" (Some "web")];
        statements := []; stdout := []; connections := 0 |},
     Raise (ValueError "does not appear to be an IPv4 or IPv6 address")).
Proof.
  refine (proj1 (X3_bad_address_aborts_read_path keys_json no_resolver
                   accepting_store (get_args "host" false (NameList ["web"]))
                   {| table := snapshot ++ [row 9 "bad.example.com" "10.0.0.256" (Some "web")];
                      statements := []; stdout := []; connections := 0 |}
                   (row 9 "bad.example.com" "10.0.0.256" (Some "web"))
                   (ValueError "does not appear to be an IPv4 or IPv6 address")
                   _ _ _)).
  - right. reflexivity.
  - apply list_elem_of_lookup_2 with (length snapshot). reflexivity.
  - vm_compute. reflexivity.
Defined.

Lemma X5_list_prints_whole_inventory_witness :
  (run_snapshot {| subparser := None; list_flag := true; get_subparser := None;
                   name := NameNone; ipaddr := None; groups := None;
                   features := None; label := None; disabled := false |}).2 = Ok ()
  ∧ Dict.get "_meta"
      (build_ansible_inventory (build_groups snapshot_hosts) snapshot_hostvars)
    = Some (Meta snapshot_hostvars).
Proof.
  destruct (X5_list_prints_whole_inventory keys_json no_resolver accepting_store
              {| subparser := None; list_flag := true; get_subparser := None;
                 name := NameNone; ipaddr := None; groups := None;
                 features := None; label := None; disabled := false |}
              snapshot_world snapshot_hosts snapshot_hostvars)
    as (Hrun & Hmeta & _).
  - reflexivity.
  - reflexivity.
  - vm_compute. reflexivity.
  - vm_compute. reflexivity.
  - split; [|exact Hmeta]. unfold run_snapshot. by rewrite Hrun.
Defined.

Lemma X6_get_host_all_witness :
  run_snapshot (get_args "host" false (NameList ["all"]))
  = (with_stdout snapshot_world
       [keys_json (DataHostvars snapshot_hostvars) +:+ newline], Ok ()).
Proof.
  refine (proj1 (X6_get_host_all keys_json no_resolver accepting_store
                   (get_args "host" false (NameList ["all"]))
                   snapshot_world snapshot_hosts snapshot_hostvars _ _ _ _ _)).
  - reflexivity.
  - reflexivity.
  - reflexivity.
  - vm_compute. reflexivity.
  - vm_compute. reflexivity.
Defined.

(** ** Hosts that share a name *)

Lemma build_hostvars_from_app (d : hostvars_t) l1 l2 :
  build_hostvars_from d (l1 ++ l2)
  = build_hostvars_from d l1 ≫= λ d', build_hostvars_from d' l2.
Proof.
  revert d. induction l1 as [|h l1 IH]; intros d; [done|].
  cbn [app build_hostvars_from].
  destruct (host_vars h) as [v|e]; cbn [mbind result_bind]; [apply IH | done].
Qed.

Lemma build_hostvars_from_notin (d hostvars : hostvars_t) hosts f :
  build_hostvars_from d hosts = Ok hostvars →
  f ∉ Host.fqdn <$> hosts →
  Dict.get f hostvars = Dict.get f d.
Proof.
  revert d. induction hosts as [|h hosts IH]; intros d; csimpl.
  - by intros [= <-].
  - destruct (host_vars h) as [v|e]; cbn [mbind result_bind]; [|done].
    intros Hb [Hne Hni]%not_elem_of_cons.
    rewrite (IH _ Hb Hni). by apply get_set_ne.
Qed.

(** X7. When several hosts carry the same [fqdn], the hostvars mapping
    keeps one entry for the name: the rendering of the last of them,
    at the place where the name first appeared. *)
Theorem X7_last_duplicate_fqdn_wins pre host post hostvars :
  build_hostvars (pre ++ host :: post) = Ok hostvars →
  Host.fqdn host ∉ Host.fqdn <$> post →
  (∃ v, host_vars host = Ok v ∧ Dict.get (Host.fqdn host) hostvars = Some v)
  ∧ Dict.keys hostvars = first_appearances (Host.fqdn <$> (pre ++ host :: post)).
Proof.
  intros Hb Hpost. split; [|by apply build_hostvars_keys].
  unfold build_hostvars in Hb. rewrite build_hostvars_from_app in Hb.
  destruct (build_hostvars_from [] pre) as [d|e]; cbn [mbind result_bind] in Hb;
    [|done].
  cbn [build_hostvars_from] in Hb.
  destruct (host_vars host) as [v|e]; cbn [mbind result_bind] in Hb; [|done].
  exists v. split; [done|].
  rewrite (build_hostvars_from_notin _ _ _ _ Hb Hpost). apply get_set_eq.
Qed.

Definition renamed_rows : list DbRow.t :=
  [row 1 "node.example.com" "10.0.0.1" (Some "old");
   row 2 "other.example.com" "10.0.0.2" None;
   row 3 "node.example.com" "10.0.0.3" (Some "new")].

Definition renamed_hosts : list Host.t :=
  Eval vm_compute in
    match process_hosts renamed_rows with Ok hosts => hosts | Raise _ => [] end.

Definition renamed_hostvars : hostvars_t :=
  Eval vm_compute in
    match build_hostvars renamed_hosts with Ok hv => hv | Raise _ => [] end.

Lemma X7_last_duplicate_fqdn_wins_witness :
  (∃ v, Dict.get "node.example.com" renamed_hostvars = Some v
        ∧ Dict.get "id" v = Some (VInt 3))
  ∧ Dict.keys renamed_hostvars = ["node.example.com"; "other.example.com"].
Proof.
  destruct (X7_last_duplicate_fqdn_wins (take 2 renamed_hosts)
              {| Host.id := 3; Host.fqdn := "node.example.com"; Host.upd := stamp;
                 Host.enabled := true; Host.ipaddr := ipaddress.IPv4 167772163;
                 Host.groups := ["new"]; Host.features := []; Host.label := "" |}
              [] renamed_hostvars)
    as [(v & Hv & Hget) Hkeys].
  - vm_compute. reflexivity.
  - apply not_elem_of_nil.
  - split; [|exact Hkeys]. exists v. split; [exact Hget|].
    vm_compute in Hv. injection Hv as <-. reflexivity.
Defined.

(** ** Groups and hostvars agree *)

(** X8. The group mapping and the hostvars mapping are built from the
    same hosts: a name is a member of group [g] exactly when some host
    of that name lists [g], and every member of every group has an
    entry in the hostvars mapping. *)
Theorem X8_group_members_have_hostvars hosts hostvars g f :
  build_hostvars hosts = Ok hostvars →
  ((∃ e, Dict.get g (build_groups hosts) = Some e ∧ f ∈ group_dict.hosts e)
   ↔ ∃ host, host ∈ hosts ∧ Host.fqdn host = f ∧ g ∈ Host.groups host)
  ∧ (∀ e, Dict.get g (build_groups hosts) = Some e → f ∈ group_dict.hosts e →
          is_Some (Dict.get f hostvars)).
Proof.
  intros Hb.
  assert ((∃ e, Dict.get g (build_groups hosts) = Some e ∧ f ∈ group_dict.hosts e)
          ↔ ∃ host, host ∈ hosts ∧ Host.fqdn host = f ∧ g ∈ Host.groups host)
    as Hiff.
  { split.
    - intros (e & He & Hf). rewrite (build_groups_get _ _ _ He) in Hf.
      by apply members_in_order_elem_of.
    - intros (host & Hh & Hf & Hg).
      destruct (proj2 (build_groups_is_Some hosts g)) as [e He]; [by eauto|].
      exists e. split; [done|]. rewrite (build_groups_get _ _ _ He).
      apply members_in_order_elem_of. eauto. }
  split; [done|]. intros e He Hf.
  destruct (proj1 Hiff) as (host & Hh & <- & _); [by eauto|].
  apply (build_hostvars_is_Some _ _ _ Hb). by apply list_elem_of_fmap_2.
Qed.

Lemma X8_group_members_have_hostvars_witness :
  ∃ e, Dict.get "prod" (build_groups snapshot_hosts) = Some e
       ∧ "db1.example.com" ∈ group_dict.hosts e
       ∧ is_Some (Dict.get "db1.example.com" snapshot_hostvars).
Proof.
  destruct (X8_group_members_have_hostvars snapshot_hosts snapshot_hostvars
              "prod" "db1.example.com") as [Hiff Hall].
  - vm_compute. reflexivity.
  - destruct (proj2 Hiff) as (e & He & Hf).
    + exists {| Host.id := 3; Host.fqdn := "db1.example.com"; Host.upd := stamp;
                Host.enabled := true; Host.ipaddr := ipaddress.IPv6 1 None;
                Host.groups := ["prod"; "db"]; Host.features := [];
                Host.label := "" |}.
      split_and!.
      * apply (list_elem_of_lookup_2 _ 2). reflexivity.
      * reflexivity.
      * left.
    + exists e. split_and!; [exact He | exact Hf | exact (Hall e He Hf)].
Defined.

(** ** The entry of a row *)

(** X9. The hostvars entry of a row (in a table where [fqdn] is a
    unique key) holds exactly seven attributes, in this order: [id] as
    stored, [upd] as the formatted time stamp, [enabled] as a boolean
    (true for a non-zero number, false for zero and for null), [ipaddr]
    as the expanded text of the parsed address, [groups] and [features]
    as the lists of the comma-separated columns (empty for null and for
    the empty text), and [label] as stored (the empty text for null).
    The [fqdn] itself is not among the attributes. *)
Theorem X9_hostvars_entry_shape rows hosts hostvars r :
  process_hosts rows = Ok hosts →
  build_hostvars hosts = Ok hostvars →
  NoDup (DbRow.fqdn <$> rows) →
  r ∈ rows →
  ∃ upd ipaddr,
    strftime (DbRow.upd r) upd_format = Ok upd
    ∧ ipaddress.ip_address (DbRow.ipaddr r) ≫= ipaddress.exploded = Ok ipaddr
    ∧ Dict.get (DbRow.fqdn r) hostvars
      = Some [("id", VInt (DbRow.id r));
              ("upd", VStr upd);
              ("enabled", VBool match DbRow.enabled r with
                                | Some z => negb (z =? 0)%Z
                                | None => false
                                end);
              ("ipaddr", VStr ipaddr);
              ("groups", VList (csv (DbRow.groups r)));
              ("features", VList (csv (DbRow.features r)));
              ("label", VStr (default "" (DbRow.label r)))].
Proof.
  intros Hp Hb Hnd Hr.
  destruct (process_hosts_elem_of _ _ _ Hp Hr) as (h & Hh & Hrow).
  pose proof Hrow as (_ & Hf & _)%Host_of_row_Ok.
  destruct (proj2 (build_hostvars_is_Some _ _ (DbRow.fqdn r) Hb)) as [v Hv].
  { rewrite <- Hf. by apply list_elem_of_fmap_2. }
  destruct (build_hostvars_get _ _ _ _ Hb Hv) as (h' & Hh' & Hf' & Hvars).
  assert (h' = h) as ->.
  { apply (NoDup_fmap_inj Host.fqdn hosts); [|done|done|congruence].
    by rewrite (process_hosts_fqdn _ _ Hp). }
  rewrite host_vars_eq in Hvars.
  unfold Host_of_row, Host.__init__ in Hrow.
  destruct (ipaddress.ip_address (DbRow.ipaddr r)) as [a|]; [|done].
  cbn [mbind result_bind] in Hrow. injection Hrow as <-.
  cbn [Host.id Host.upd Host.enabled Host.ipaddr Host.groups Host.features
       Host.label] in Hvars.
  destruct (ipaddress.exploded a) as [text|] eqn:Htext; [|done].
  eexists _, text. split_and!; [apply strftime_upd_format | done |].
  rewrite Hv. cbn [mbind result_bind] in Hvars. injection Hvars as <-.
  repeat f_equal;
    first [ by destruct (DbRow.enabled r) as [z|]; [destruct (z =? 0)%Z|]
          | by destruct (DbRow.label r) as [[|]|] ].
Qed.

Lemma X9_hostvars_entry_shape_witness :
  Dict.get "db1.example.com" snapshot_hostvars
  = Some [("id", VInt 3); ("upd", VStr "2020-17-03 04:05:06");
          ("enabled", VBool true);
          ("ipaddr", VStr "0000:0000:0000:0000:0000:0000:0000:0001");
          ("groups", VList ["prod"; "db"]); ("features", VList []);
          ("label", VStr "")].
Proof.
  destruct (X9_hostvars_entry_shape snapshot snapshot_hosts snapshot_hostvars
              (row 3 "db1.example.com" "::1" (Some "prod,db")))
    as (upd & ipaddr & Hupd & Hip & Hget).
  - vm_compute. reflexivity.
  - vm_compute. reflexivity.
  - apply (bool_decide_unpack _). vm_compute. exact I.
  - apply (list_elem_of_lookup_2 _ 2). reflexivity.
  - vm_compute in Hupd, Hip. injection Hupd as <-. injection Hip as <-.
    exact Hget.
Defined.

(** ** The host writer *)

(** The columns of the statement that [add_host] builds, each with its
    value, in the order of the statement: [fqdn] and [ipaddr], then
    the options that were given, then [enabled] for a disabled host. *)
Definition insert_columns (name ip : string) (groups features label : option string)
    (disabled : bool) : list (string * sql_value) :=
  [("fqdn", SqlStr name); ("ipaddr", SqlStr ip)]
    ++ (if truthy groups then [("groups", SqlStr (default "" groups))] else [])
    ++ (if truthy features then [("features", SqlStr (default "" features))] else [])
    ++ (if truthy label then [("label", SqlStr (default "" label))] else [])
    ++ (if disabled then [("enabled", SqlInt 0)] else []).

(** A value as the statement spells it: a text between quotes, as it
    is; a number in decimal. *)
Definition sql_literal (x : sql_value) : string :=
  match x with
  | SqlStr s => "'" +:+ s +:+ "'"
  | SqlInt z => str_of_Z z
  end.

Definition insert_statement (columns : list (string * sql_value)) : string :=
  "INSERT INTO `server_inventory` ("
    +:+ join "," ((λ c, "`" +:+ c.1 +:+ "`") <$> columns)
    +:+ ") VALUES ("
    +:+ join "," ((λ c, sql_literal c.2) <$> columns) +:+ ");".

Section writer_facts.
Variable json_dumps : data → string.
Variable gethostbyname : string → result string.
Variable execute : string → list DbRow.t → string + list DbRow.t.

Lemma add_host_with_address name_ c ip groups_ features_ label_ disabled_ w :
  add_host gethostbyname execute name_ (Some (String c ip)) groups_ features_
    label_ disabled_ w
  = (_ ← connect_db;
     _ ← write_query execute
           (insert_statement
              (insert_columns name_ (String c ip) groups_ features_ label_
                 disabled_));
     db_close) w.
Proof.
  unfold add_host, insert_columns.
  destruct (truthy groups_), (truthy features_), (truthy label_), disabled_;
    reflexivity.
Qed.

Lemma main_add args w name_ :
  subparser args = Some "add" →
  name args = NameList [name_] →
  main json_dumps gethostbyname execute args w
  = add_host gethostbyname execute name_ (ipaddr args) (groups args)
      (features args) (label args) (disabled args) w.
Proof.
  intros Hs Hn. unfold main. rewrite Hs, Hn. reflexivity.
Qed.

(** X10. [add NAME -i IP]: the resolver is not consulted; the run
    executes one statement, an [INSERT] whose column list and value
    list run in step ([fqdn], [ipaddr], then the options that were
    given and are not empty, then [enabled] with the number 0 when the
    host is added disabled; text values between quotes, as given).
    When the store accepts the statement the run records it, leaves the
    rows as the store returned them, prints nothing, has closed its
    connection and ends normally. *)
Theorem X10_add_host_inserts_given_columns args w name_ ip rows :
  subparser args = Some "add" →
  name args = NameList [name_] →
  ipaddr args = Some ip →
  ip ≠ "" →
  let query :=
    insert_statement
      (insert_columns name_ ip (groups args) (features args) (label args)
         (disabled args)) in
  execute query (table w) = inr rows →
  main json_dumps gethostbyname execute args w
  = ({| table := rows; statements := statements w ++ [query];
        stdout := stdout w; connections := connections w |}, Ok ()).
Proof.
  intros Hs Hn Hi Hip query Hex. destruct ip as [|c ip]; [done|].
  destruct w as [tbl stm out conns]. simpl in Hex.
  rewrite (main_add _ _ name_ Hs Hn), Hi, add_host_with_address.
  unfold mbind, M_bind, connect_db, write_query, db_close. simpl.
  fold query. by rewrite Hex.
Qed.

(** X11. [add] when the store refuses the statement: the run prints
    [ERROR:] and the text of the store's error, closes the connection
    and exits with status 1; no statement is recorded and the rows are
    what they were. *)
Theorem X11_add_host_store_failure args w name_ ip msg :
  subparser args = Some "add" →
  name args = NameList [name_] →
  ipaddr args = Some ip →
  ip ≠ "" →
  execute
    (insert_statement
       (insert_columns name_ ip (groups args) (features args) (label args)
          (disabled args)))
    (table w) = inl msg →
  main json_dumps gethostbyname execute args w
  = (with_stdout w (stdout w ++ [("ERROR: " +:+ msg) +:+ newline]),
     Raise (SystemExit 1))
  ∧ exit_status (main json_dumps gethostbyname execute args w).2 = 1%Z.
Proof.
  intros Hs Hn Hi Hip Hex. destruct ip as [|c ip]; [done|].
  destruct w as [tbl stm out conns]. simpl in Hex.
  assert (main json_dumps gethostbyname execute args
            {| table := tbl; statements := stm; stdout := out;
               connections := conns |}
          = (with_stdout
               {| table := tbl; statements := stm; stdout := out;
                  connections := conns |}
               (out ++ [("ERROR: " +:+ msg) +:+ newline]),
             Raise (SystemExit 1))) as Hmain.
  { rewrite (main_add _ _ name_ Hs Hn), Hi, add_host_with_address.
    unfold mbind, M_bind, connect_db, write_query, db_close. simpl.
    by rewrite Hex. }
  by rewrite Hmain.
Qed.

(** X12. [add NAME] without an address (or with an empty one), when
    the resolver answers: the run is the run of [add NAME -i IP] with
    the address the resolver returned. *)
Theorem X12_add_host_resolved_as_given args w name_ ip :
  subparser args = Some "add" →
  name args = NameList [name_] →
  truthy (ipaddr args) = false →
  gethostbyname name_ = Ok ip →
  main json_dumps gethostbyname execute args w
  = main json_dumps gethostbyname execute
      {| subparser := subparser args; list_flag := list_flag args;
         get_subparser := get_subparser args; name := name args;
         ipaddr := Some ip; groups := groups args; features := features args;
         label := label args; disabled := disabled args |} w.
Proof.
  intros Hs Hn Hi Hr.
  rewrite (main_add args w name_ Hs Hn).
  rewrite (main_add _ w name_); [|exact Hs|exact Hn].
  cbn [ipaddr groups features label disabled].
  unfold add_host. rewrite Hi.
  destruct ip as [|c ip]; cbn [truthy]; rewrite Hr; reflexivity.
Qed.

(** X13. [add NAME] without an address, when the resolver raises
    anything but its own lookup error ([socket.gaierror]): nothing
    catches the exception, so the run ends with it, prints nothing,
    executes no statement, and never calls [close] on the connection
    it opened. *)
Theorem X13_resolver_exception_skips_close args w name_ e :
  subparser args = Some "add" →
  name args = NameList [name_] →
  truthy (ipaddr args) = false →
  gethostbyname name_ = Raise e →
  (∀ errno strerror, e ≠ Gaierror errno strerror) →
  main json_dumps gethostbyname execute args w
  = ({| table := table w; statements := statements w; stdout := stdout w;
        connections := S (connections w) |}, Raise e).
Proof.
  intros Hs Hn Hi Hr He. destruct w as [tbl stm out conns].
  unfold main. rewrite Hs, Hn. simpl.
  unfold mbind, M_bind, lift, add_host, mbind, M_bind. simpl.
  rewrite Hi, Hr. destruct e; try done. by destruct (He errno strerror).
Qed.
End writer_facts.

(** Runs of the writer on the snapshot: a host given with its address,
    a group and the disabled flag; a store that refuses every
    statement; a resolver that answers; a resolver that fails on the
    name itself. *)
Definition add_args_with (name ip : string) (groups : option string)
    (disabled : bool) : Namespace :=
  {| subparser := Some "add"; list_flag := false;
     get_subparser := None; name := NameList [name];
     ipaddr := Some ip; groups := groups; features := None; label := None;
     disabled := disabled |}.

Definition refusing_store (query : string) (rows : list DbRow.t)
    : string + list DbRow.t :=
  inl "Duplicate entry 'web1.example.com' for key 'fqdn'".

Definition answering_resolver (name : string) : result string :=
  Ok "10.1.1.1".

Definition failing_resolver (name : string) : result string :=
  Raise (OtherError "UnicodeError: label empty or too long").

Lemma X10_add_host_inserts_given_columns_witness :
  main keys_json no_resolver accepting_store
    (add_args_with "n.example.com" "10.1.1.1" (Some "web") true) snapshot_world
  = ({| table := snapshot;
        statements :=
          ["INSERT INTO `server_inventory` (`fqdn`,`ipaddr`,`groups`,`enabled`) VALUES ('n.example.com','10.1.1.1','web',0);"];
        stdout := []; connections := 0 |}, Ok ()).
Proof.
  apply (X10_add_host_inserts_given_columns keys_json no_resolver accepting_store
           (add_args_with "n.example.com" "10.1.1.1" (Some "web") true)
           snapshot_world "n.example.com" "10.1.1.1" snapshot).
  - reflexivity.
  - reflexivity.
  - reflexivity.
  - discriminate.
  - reflexivity.
Defined.

Lemma X11_add_host_store_failure_witness :
  main keys_json no_resolver refusing_store
    (add_args_with "web1.example.com" "10.0.0.1" None false) snapshot_world
  = (with_stdout snapshot_world
       [("ERROR: " +:+ "Duplicate entry 'web1.example.com' for key 'fqdn'")
          +:+ newline],
     Raise (SystemExit 1)).
Proof.
  refine (proj1 (X11_add_host_store_failure keys_json no_resolver refusing_store
                   (add_args_with "web1.example.com" "10.0.0.1" None false)
                   snapshot_world "web1.example.com" "10.0.0.1"
                   "Duplicate entry 'web1.example.com' for key 'fqdn'"
                   _ _ _ _ _)).
  - reflexivity.
  - reflexivity.
  - reflexivity.
  - discriminate.
  - reflexivity.
Defined.

Lemma X12_add_host_resolved_as_given_witness :
  main keys_json answering_resolver accepting_store (add_args "n.example.com")
    snapshot_world
  = main keys_json answering_resolver accepting_store
      (add_args_with "n.example.com" "10.1.1.1" None false) snapshot_world.
Proof.
  apply (X12_add_host_resolved_as_given keys_json answering_resolver
           accepting_store (add_args "n.example.com") snapshot_world
           "n.example.com" "10.1.1.1").
  - reflexivity.
  - reflexivity.
  - reflexivity.
  - reflexivity.
Defined.

Lemma X13_resolver_exception_skips_close_witness :
  main keys_json failing_resolver accepting_store (add_args "") snapshot_world
  = ({| table := snapshot; statements := []; stdout := []; connections := 1 |},
     Raise (OtherError "UnicodeError: label empty or too long")).
Proof.
  apply (X13_resolver_exception_skips_close keys_json failing_resolver
           accepting_store (add_args "") snapshot_world ""
           (OtherError "UnicodeError: label empty or too long")).
  - reflexivity.
  - reflexivity.
  - reflexivity.
  - reflexivity.
  - discriminate.
Defined.

(** ** Lists on standard output *)

Section dump_facts.
Variable json_dumps : data → string.

(** X14. [dump] of a list (or of the keys of a mapping) prints one
    text and never fails: the elements in the order of the texts,
    duplicates kept, joined by line breaks.  When no element contains a
    line break, the lines of the output are exactly the sorted
    elements; an empty list is printed as one empty line. *)
Theorem X14_dump_list_prints_sorted_lines l w :
  ∃ text,
    dump json_dumps (DataList l) w
    = (with_stdout w (stdout w ++ [text +:+ newline]), Ok ())
    ∧ dump json_dumps (DataKeys l) w = dump json_dumps (DataList l) w
    ∧ (l = [] → text = "")
    ∧ (l ≠ [] → Forall (λ x, contains "010" x = false) l →
       split "010" text = sorted l)
    ∧ sorted l ≡ₚ l
    ∧ Sorted String.le (sorted l).
Proof.
  exists (join newline (sorted l)). split_and!.
  - reflexivity.
  - reflexivity.
  - by intros ->.
  - intros Hne Hl. apply split_join.
    + intros Hnil. apply Hne, Permutation_nil_r.
      by rewrite <- Hnil, sorted_Permutation.
    + by rewrite sorted_Permutation.
  - apply sorted_Permutation.
  - apply sorted_Sorted.
Qed.
End dump_facts.

(** ** The selection of hosts as a sub-list *)

Lemma filter_fmap_bool {A B} (f : A → B) (p : B → bool) (l : list A) :
  List.filter p (f <$> l) = f <$> List.filter (λ x, p (f x)) l.
Proof.
  induction l as [|x l IH]; [done|]. csimpl.
  destruct (p (f x)); csimpl; by rewrite IH.
Qed.

Lemma filter_filter_bool (p : string → bool) (Q : string → Prop)
    `{∀ x, Decision (Q x)} (l : list string) :
  filter Q (List.filter p l) = List.filter p (filter Q l).
Proof.
  induction l as [|x l IH]; [done|]. simpl.
  destruct (p x) eqn:Hp, (decide (Q x)) as [HQ|HQ].
  - rewrite !filter_cons_True by done. simpl. by rewrite Hp, IH.
  - by rewrite !filter_cons_False by done.
  - rewrite filter_cons_True by done. simpl. by rewrite Hp.
  - by rewrite filter_cons_False by done.
Qed.

Lemma filter_bool_drop (p : string → bool) x (l : list string) :
  p x = false → List.filter p (filter (λ y, y ≠ x) l) = List.filter p l.
Proof.
  intros Hx. induction l as [|y l IH]; [done|].
  destruct (decide (y = x)) as [->|Hne].
  - rewrite filter_cons_False by (by intros ?). simpl. by rewrite Hx.
  - rewrite filter_cons_True by done. simpl. by rewrite IH.
Qed.

Lemma first_appearances_filter (p : string → bool) (l : list string) :
  first_appearances (List.filter p l) = List.filter p (first_appearances l).
Proof.
  induction l as [|x l IH]; [done|]. simpl.
  destruct (p x) eqn:Hp.
  - simpl. by rewrite IH, filter_filter_bool.
  - by rewrite IH, filter_bool_drop.
Qed.

Lemma keys_filter_bool {V} (p : string → bool) (d : Dict.t V) :
  Dict.keys (List.filter (λ kv, p kv.1) d) = List.filter p (Dict.keys d).
Proof.
  unfold Dict.keys. induction d as [|[k v] d IH]; [done|]. csimpl.
  destruct (p k); csimpl; by rewrite IH.
Qed.

Lemma get_filter_bool {V} (p : string → bool) (d : Dict.t V) k :
  Dict.get k (List.filter (λ kv, p kv.1) d)
  = if p k then Dict.get k d else None.
Proof.
  induction d as [|[k' v] d IH]; simpl; [by destruct (p k)|].
  destruct (p k') eqn:Hk'; simpl.
  - destruct (String.eqb_spec k k') as [->|]; [by rewrite Hk' | done].
  - destruct (String.eqb_spec k k') as [->|]; [by rewrite IH, Hk' | done].
Qed.

Lemma dict_ext {V} (d1 d2 : Dict.t V) :
  NoDup (Dict.keys d1) → Dict.keys d1 = Dict.keys d2 →
  (∀ k, Dict.get k d1 = Dict.get k d2) → d1 = d2.
Proof.
  unfold Dict.keys. revert d2.
  induction d1 as [|[k v] d1 IH]; intros [|[k' v'] d2]; csimpl; try done.
  intros [Hk Hnd]%NoDup_cons [= <- Hkeys] Hget. f_equal.
  - specialize (Hget k). simpl in Hget. rewrite String.eqb_refl in Hget.
    congruence.
  - apply IH; [done | done |]. intros k0. specialize (Hget k0). simpl in Hget.
    destruct (String.eqb_spec k0 k) as [Heq|]; [subst k0|done].
    assert (Dict.get k d1 = None) as -> by by apply get_None_keys.
    symmetry. apply get_None_keys. unfold Dict.keys. by rewrite <- Hkeys.
Qed.

Lemma hostvar_subset_from_keys (hostvars res acc : hostvars_t) l :
  hostvar_subset_from hostvars acc l = Ok res →
  Dict.keys res = foldl see (Dict.keys acc) l.
Proof.
  revert acc. induction l as [|x l IH]; intros acc; simpl.
  - by intros [= <-].
  - unfold getitem. destruct (Dict.get x hostvars) as [v|]; simpl; [|done].
    intros ->%IH. by rewrite keys_set.
Qed.

Section selection_facts.
Variable json_dumps : data → string.
Variable gethostbyname : string → result string.
Variable execute : string → list DbRow.t → string + list DbRow.t.

(** X15. [get host X] prints the sub-list of the hostvars mapping:
    the entries whose name starts with [X], unchanged and in the order
    they have in the whole mapping. *)
Theorem X15_host_selection_is_sublist args w hosts hostvars X :
  subparser args = Some "get" →
  get_subparser args = Some "host" →
  name args = NameList [X] →
  X ≠ "all" →
  process_hosts (table w) = Ok hosts →
  build_hostvars hosts = Ok hostvars →
  main json_dumps gethostbyname execute args w
  = (with_stdout w
       (stdout w ++
          [json_dumps
             (DataHostvars (List.filter (λ kv, String.prefix X kv.1) hostvars))
             +:+ newline]),
     Ok ()).
Proof.
  intros Hs Hg Hn HX Hp Hb. destruct w as [tbl stm out conns]. simpl in Hp.
  set (host_subset :=
         Host.fqdn <$> List.filter (λ host, String.prefix X (Host.fqdn host)) hosts).
  assert (host_subset = List.filter (String.prefix X) (Host.fqdn <$> hosts))
    as Hsub by (symmetry; apply filter_fmap_bool).
  destruct (hostvar_subset_from_Ok hostvars [] host_subset) as [res Hres].
  { intros f Hf. apply (build_hostvars_is_Some _ _ _ Hb).
    rewrite Hsub in Hf. by apply list_elem_of_In, filter_In in Hf as [?%list_elem_of_In _]. }
  assert (res = List.filter (λ kv, String.prefix X kv.1) hostvars) as <-.
  { apply dict_ext.
    - by apply (hostvar_subset_from_NoDup _ _ _ _ Hres), NoDup_nil.
    - rewrite (hostvar_subset_from_keys _ _ _ _ Hres), foldl_see. simpl.
      rewrite filter_all by (intros x _; apply not_elem_of_nil).
      rewrite keys_filter_bool, (build_hostvars_keys _ _ Hb), Hsub.
      apply first_appearances_filter.
    - intros f. rewrite (hostvar_subset_from_spec _ _ _ _ Hres f), get_filter_bool.
      destruct (decide (f ∈ host_subset)) as [Hin|Hni].
      + rewrite Hsub in Hin. apply list_elem_of_In, filter_In in Hin as [_ ->]. done.
      + simpl. destruct (String.prefix X f) eqn:Hpre; [|done].
        destruct (Dict.get f hostvars) as [v|] eqn:Hv; [|done].
        exfalso. apply Hni. rewrite Hsub. apply list_elem_of_In, filter_In.
        split; [|done]. apply list_elem_of_In, (build_hostvars_is_Some _ _ _ Hb).
        by rewrite Hv. }
  run_read_path Hs Hp Hb. rewrite Hg, Hn. simpl.
  apply String.eqb_neq in HX as ->. simpl.
  fold host_subset. by rewrite Hres.
Qed.
End selection_facts.

Lemma X15_host_selection_is_sublist_witness :
  run_snapshot (get_args "host" false (NameList ["web"]))
  = (with_stdout snapshot_world ["{web1.example.com,web2.example.com}" +:+ newline],
     Ok ()).
Proof.
  apply (X15_host_selection_is_sublist keys_json no_resolver accepting_store
           (get_args "host" false (NameList ["web"])) snapshot_world
           snapshot_hosts snapshot_hostvars "web").
  - reflexivity.
  - reflexivity.
  - reflexivity.
  - discriminate.
  - vm_compute. reflexivity.
  - vm_compute. reflexivity.
Defined.

(** ** Addresses with a zone *)

Section zones.
Local Open Scope N_scope.

Lemma hex_digits_no_percent s :
  string_forallb Fmt.is_hex_digit s = true → contains "%" s = false.
Proof.
  induction s as [|c s IH]; [done|]. simpl.
  intros [Hc Hs]%andb_prop. rewrite (IH Hs), orb_false_r.
  destruct (Ascii.eqb_spec c "%") as [->|]; [done|done].
Qed.

Lemma decimal_digits_no_percent s :
  string_forallb Fmt.is_decimal_digit s = true → contains "%" s = false.
Proof.
  induction s as [|c s IH]; [done|]. simpl.
  intros [Hc Hs]%andb_prop. rewrite (IH Hs), orb_false_r.
  destruct (Ascii.eqb_spec c "%") as [->|]; [done|done].
Qed.

Lemma v6_parse_hextet_no_percent x h :
  ipaddress.v6_parse_hextet x = Ok h → contains "%" x = false.
Proof.
  unfold ipaddress.v6_parse_hextet.
  destruct (string_forallb Fmt.is_hex_digit x) eqn:Hx; [|done].
  intros _. by apply hex_digits_no_percent.
Qed.

Lemma v6_parse_hextets_no_percent xs acc v :
  ipaddress.v6_parse_hextets xs acc = Ok v →
  Forall (λ x, contains "%" x = false) xs.
Proof.
  revert acc. induction xs as [|x xs IH]; intros acc; [by constructor|].
  cbn [ipaddress.v6_parse_hextets].
  destruct (ipaddress.v6_parse_hextet x) as [h|] eqn:Hx; [|done].
  cbn [mbind result_bind]. intros Hxs. constructor.
  - by eapply v6_parse_hextet_no_percent.
  - by eapply IH.
Qed.

Lemma v4_parse_octet_no_percent o n :
  ipaddress.v4_parse_octet o = Ok n → contains "%" o = false.
Proof.
  unfold ipaddress.v4_parse_octet. destruct (is_empty o); [done|].
  destruct (string_forallb Fmt.is_decimal_digit o) eqn:Ho; [|done].
  intros _. by apply decimal_digits_no_percent.
Qed.

Lemma IPv4Address_no_percent address a :
  ipaddress.IPv4Address address = Ok a → contains "%" address = false.
Proof.
  unfold ipaddress.IPv4Address, ipaddress.v4_ip_int_from_string.
  destruct (contains "/" address); [done|].
  destruct (is_empty address); [done|]. cbv zeta.
  destruct (negb _); [done|].
  destruct (mapM ipaddress.v4_parse_octet (split "." address)) as [bs|e] eqn:Hbs;
    [|by destruct e].
  intros _. apply mapM_result_inv in Hbs.
  rewrite <- (join_split "." address). apply contains_join; [done|].
  apply Forall_forall. intros o [i Hi]%list_elem_of_lookup.
  destruct (Forall2_lookup_l _ _ _ _ _ Hbs Hi) as (n & _ & Hn).
  by eapply v4_parse_octet_no_percent.
Qed.

Lemma v6_find_skip_empty parts indices acc i :
  ipaddress.v6_find_skip parts indices acc = Ok (Some i) →
  acc = Some i ∨ (i ∈ indices ∧ is_empty (nth i parts "") = true).
Proof.
  revert acc. induction indices as [|j rest IH]; intros acc H; simpl in H.
  - left. congruence.
  - rewrite elem_of_cons. destruct (is_empty (nth j parts "")) eqn:Hj.
    + destruct acc; [done|]. apply IH in H. naive_solver.
    + apply IH in H. naive_solver.
Qed.

Lemma v6_part_counts_None parts hi lo sk :
  v6_part_counts parts None = Ok (hi, lo, sk) →
  hi = Z.of_nat (length parts) ∧ lo = 0%Z.
Proof.
  unfold v6_part_counts.
  destruct (negb _); [done|].
  destruct (is_empty (nth 0 parts "")); [done|].
  destruct (is_empty (List.last parts "")); [done|].
  intros ?; by simplify_eq.
Qed.

Lemma v6_part_counts_Some parts i hi lo sk :
  v6_part_counts parts (Some i) = Ok (hi, lo, sk) →
  (hi = Z.of_nat i
   ∨ (hi = 0%Z ∧ i = 1%nat ∧ is_empty (nth 0 parts "") = true))
  ∧ (lo = (Z.of_nat (length parts) - Z.of_nat i - 1)%Z
     ∨ (lo = 0%Z ∧ (Z.of_nat (length parts) - Z.of_nat i - 1 = 1)%Z
        ∧ is_empty (List.last parts "") = true)).
Proof.
  unfold v6_part_counts.
  destruct (is_empty (nth 0 parts "")) eqn:E0,
           (is_empty (List.last parts "")) eqn:E1;
    repeat (cbn [mbind result_bind negb];
            match goal with
            | |- context [(?a =? ?b)%Z] => destruct (Z.eqb_spec a b)
            | |- context [(?a <? ?b)%Z] => destruct (Z.ltb_spec a b)
            end);
    cbn [mbind result_bind negb]; try done; intros ?; simplify_eq;
    (split; [first [by left | right; split_and!; (lia || done)]
            |first [by left | right; split_and!; (lia || done)]]).
Qed.

Lemma last_nth (l : list string) d :
  List.last l d = nth (length l - 1) l d.
Proof.
  induction l as [|x [|y l] IH]; [done | done |].
  change (List.last (x :: y :: l) d) with (List.last (y :: l) d).
  rewrite IH. simpl. by rewrite Nat.sub_0_r.
Qed.

(** The parser reads every part but the empty ones that mark the
    gap. *)
Lemma v6_parts_to_int_no_percent parts v :
  v6_parts_to_int parts = Ok v → Forall (λ x, contains "%" x = false) parts.
Proof.
  unfold v6_parts_to_int.
  destruct (9 <? length parts)%nat; [done|].
  destruct (ipaddress.v6_find_skip _ _ _) as [skip|] eqn:Hskip; [|done].
  cbn [mbind result_bind].
  destruct (v6_part_counts parts skip) as [[[hi lo] sk]|] eqn:Hcounts; [|done].
  cbn [mbind result_bind]. unfold v6_parse_parts. intros H%as_address_error_Ok.
  destruct (ipaddress.v6_parse_hextets (take (Z.to_nat hi) parts) 0)
    as [a|] eqn:Ha; [|done].
  cbn [mbind result_bind] in H.
  apply v6_parse_hextets_no_percent in Ha, H.
  apply Forall_lookup. intros j x Hj.
  pose proof (lookup_lt_Some _ _ _ Hj) as Hlt.
  destruct (decide (j < Z.to_nat hi)%nat) as [Hhi|Hhi].
  { eapply (proj1 (Forall_lookup _ _) Ha j). by rewrite lookup_take_lt. }
  destruct (decide (length parts - Z.to_nat lo ≤ j)%nat) as [Hlo|Hlo].
  { eapply (proj1 (Forall_lookup _ _) H (j - (length parts - Z.to_nat lo))%nat).
    rewrite lookup_drop. by replace (length parts - Z.to_nat lo
                                     + (j - (length parts - Z.to_nat lo)))%nat
      with j by lia. }
  assert (is_empty (nth j parts "") = true) as Hempty.
  { destruct skip as [i|].
    - apply v6_find_skip_empty in Hskip as [?|[Hi Hi']]; [done|].
      apply elem_of_seq in Hi.
      apply v6_part_counts_Some in Hcounts as [Hc1 Hc2].
      rewrite last_nth in Hc2.
      assert (j = i ∨ (j = 0%nat ∧ is_empty (nth 0 parts "") = true)
              ∨ (j = (length parts - 1)%nat
                 ∧ is_empty (nth (length parts - 1) parts "") = true)) as Hj'.
      { destruct Hc1 as [->|(-> & -> & ?)], Hc2 as [->|(-> & ? & ?)].
        - left. lia.
        - destruct (decide (j = i)); [by left|]. right. right. split; [lia|done].
        - destruct (decide (j = 1%nat)); [by left|]. right. left. split; [lia|done].
        - destruct (decide (j = 1%nat)); [by left|]. right.
          destruct (decide (j = 0%nat)); [left | right]; split; (lia || done). }
      destruct Hj' as [->|[[-> ?]|[-> ?]]]; done.
    - apply v6_part_counts_None in Hcounts as [-> ->]. lia. }
  rewrite (nth_lookup_Some _ _ _ _ Hj) in Hempty. by destruct x.
Qed.

Lemma v6_ip_int_from_string_no_percent ip_str v :
  ipaddress.v6_ip_int_from_string ip_str = Ok v → contains "%" ip_str = false.
Proof.
  rewrite v6_ip_int_from_string_unfold.
  destruct (is_empty ip_str); [done|]. cbv zeta.
  destruct (length (split ":" ip_str) <? 3)%nat; [done|].
  pose proof (join_split ":" ip_str) as Hjoin.
  pose proof (split_nonempty ":" ip_str) as Hne.
  destruct (contains "." (List.last (split ":" ip_str) "")).
  - destruct (ipaddress.IPv4Address _) as [a|] eqn:E4; [|done].
    cbn [mbind result_bind]. intros Hparts%v6_parts_to_int_no_percent.
    apply Forall_app in Hparts as [Hinit _].
    apply IPv4Address_no_percent in E4.
    rewrite <- Hjoin. apply contains_join; [done|].
    rewrite (app_removelast_last "" Hne). apply Forall_app. split; [done|].
    by constructor.
  - cbn [mbind result_bind]. intros Hparts%v6_parts_to_int_no_percent.
    rewrite <- Hjoin. by apply contains_join.
Qed.

Lemma ip_address_zone address ip zone :
  ipaddress.ip_address address = Ok (ipaddress.IPv6 ip (Some zone)) →
  zone ≠ "" ∧ ip < 2 ^ 128.
Proof.
  intros H. split; [|by eapply ip_address_v6_bound].
  revert H. unfold ipaddress.ip_address.
  destruct (ipaddress.IPv4Address address) as [a|e] eqn:E4.
  { unfold ipaddress.IPv4Address in E4. destruct (contains "/" address); [done|].
    destruct (ipaddress.v4_ip_int_from_string address); [|done].
    simpl in E4. by intros; simplify_eq. }
  destruct e; try done.
  unfold ipaddress.IPv6Address, ipaddress.v6_split_scope_id.
  destruct (contains "/" address); [done|].
  destruct (partition "%" address) as [[addr sep] scope_id].
  destruct (negb sep); cbn [mbind result_bind].
  - destruct (ipaddress.v6_ip_int_from_string addr) as [w|e];
      cbn [mbind result_bind]; [done | by destruct e].
  - destruct (is_empty scope_id) eqn:Hz; cbn [orb mbind result_bind]; [done|].
    destruct (contains "%" scope_id); cbn [mbind result_bind]; [done|].
    destruct (ipaddress.v6_ip_int_from_string addr) as [w|e];
      cbn [mbind result_bind]; [|by destruct e].
    intros ?; simplify_eq. by intros ->.
Qed.

(** [.exploded] of an address with a zone: [str] appends the zone, and
    the parser that reads the text again has no place for it. *)
Lemma zoned_exploded_raises ip zone :
  ip < 2 ^ 128 → zone ≠ "" →
  ∃ msg, ipaddress.exploded (ipaddress.IPv6 ip (Some zone))
         = Raise (AddressValueError msg).
Proof.
  intros Hip Hz. unfold ipaddress.exploded, ipaddress.str.
  rewrite v6_string_from_ip_int_eq by done. cbn [mbind result_bind].
  destruct zone as [|c zone]; [done|]. cbn [truthy default].
  match goal with
  | |- context [ipaddress.v6_ip_int_from_string ?t] => set (text := t)
  end.
  assert (contains "%" text = true) as Htext.
  { unfold text. rewrite contains_app. apply orb_true_r. }
  destruct (ipaddress.v6_ip_int_from_string text) as [v|e] eqn:E.
  - apply v6_ip_int_from_string_no_percent in E. congruence.
  - apply v6_ip_int_from_string_raises in E as [msg ->]. eauto.
Qed.
End zones.

(** X16. A row whose [ipaddr] column parses as an address of version
    6 with a zone (["...%zone"]) is normalized, but can never be
    rendered: [.exploded] raises [AddressValueError] whatever the
    address and the zone, so does the rendering of the host, and the
    hostvars mapping of any list of hosts that holds it is not
    built. *)
Theorem X16_zoned_address_never_rendered r host ip zone :
  Host_of_row r = Ok host →
  Host.ipaddr host = ipaddress.IPv6 ip (Some zone) →
  (∃ msg, ipaddress.exploded (Host.ipaddr host) = Raise (AddressValueError msg)
          ∧ host_vars host = Raise (AddressValueError msg)
          ∧ row_address r = Raise (AddressValueError msg))
  ∧ (∀ pre post, ∃ e, build_hostvars (pre ++ host :: post) = Raise e).
Proof.
  intros Hhost Ha. pose proof Hhost as (Hip & _)%Host_of_row_Ok.
  rewrite Ha in Hip. apply ip_address_zone in Hip as [Hz Hip].
  destruct (zoned_exploded_raises ip zone Hip Hz) as [msg Hex].
  assert (host_vars host = Raise (AddressValueError msg)) as Hvars.
  { by rewrite host_vars_eq, Ha, Hex. }
  split.
  - exists msg. split_and!; [by rewrite Ha | done |].
    unfold row_address. rewrite Hhost. cbn [mbind result_bind]. by rewrite Hvars.
  - intros pre post. unfold build_hostvars. rewrite build_hostvars_from_app.
    destruct (build_hostvars_from [] pre) as [d|e]; cbn [mbind result_bind];
      [|by eauto].
    cbn [build_hostvars_from]. rewrite Hvars. cbn [mbind result_bind]. eauto.
Qed.

Lemma X16_zoned_address_never_rendered_witness :
  ∃ msg, row_address (row 6 "router.example.com" "fe80::1%eth0" (Some "net"))
         = Raise (AddressValueError msg).
Proof.
  destruct (X16_zoned_address_never_rendered
              (row 6 "router.example.com" "fe80::1%eth0" (Some "net"))
              {| Host.id := 6; Host.fqdn := "router.example.com"; Host.upd := stamp;
                 Host.enabled := true;
                 Host.ipaddr :=
                   ipaddress.IPv6 338288524927261089654018896841347694593
                     (Some "eth0");
                 Host.groups := ["net"]; Host.features := []; Host.label := "" |}
              338288524927261089654018896841347694593 "eth0")
    as [(msg & _ & _ & Hrow) _].
  - vm_compute. reflexivity.
  - reflexivity.
  - exists msg. exact Hrow.
Defined.

(** ** When the inventory is produced *)






Section production.
Variable json_dumps : data → string.
Variable gethostbyname : string → result string.
Variable execute : string → list DbRow.t → string + list DbRow.t.

End production.

